(** * prepare_ligands.py: a shallow embedding and its verified properties

    The development follows [src/prepare_ligands.py]:
    - Python text ([str]) is a list of characters, files live in a finite
      map from paths to nodes, and every fallible operation runs in a
      state-and-exception monad over that world;
    - Python floats are IEEE 754 binary64 values, taken from the Standard
      Library's [SpecFloat] with [prec = 53] and [emax = 1024];
    - external tools are an oracle from command lines to exit statuses and
      file-system effects; what [sys.stdout] does with a printed line and
      what the disk does with an [open(p, 'w')] are oracles carried by the
      world. *)

From Stdlib Require Import ZArith List Ascii String Bool Lia.
From Stdlib Require Import Floats.SpecFloat.
From Stdlib Require Import Reals Lra.
From stdpp Require Import base list gmap strings.

Local Open Scope Z_scope.

(** ** Text *)

(** A Python [str]; only single-byte characters are modelled. *)
Abbreviation text := (list ascii).

Definition lit (s : string) : text := list_ascii_of_string s.

Definition nl : ascii := "010"%char.
Definition dq : ascii := "034"%char.

(** ** Exceptions and the world *)

Inductive exn :=
  | FileNotFoundError
  | OSError
  | UnicodeDecodeError
  | UnicodeEncodeError
  | ValueError
  | ZeroDivisionError
  | OverflowError
  | IndexError
  | CalledProcessError (code : Z)
  | KeyboardInterrupt.

(** [except Exception] handles every class but the [BaseException]-only ones. *)
Definition is_Exception (e : exn) : bool :=
  match e with
  | KeyboardInterrupt => false
  | _ => true
  end.

(** [except subprocess.CalledProcessError]. *)
Definition is_CalledProcessError (e : exn) : bool :=
  match e with
  | CalledProcessError _ => true
  | _ => false
  end.

Inductive result (A : Type) :=
  | Ok (a : A)
  | Raise (e : exn).
Arguments Ok {A} a.
Arguments Raise {A} e.

(** A path names a regular text file, a file whose bytes do not decode, or
    something [open] refuses (a directory, a file without permission). *)
Inductive node :=
  | File (data : text)
  | Undecodable
  | Denied.

(** The lines the program prints, one constructor per [print] statement
    with the values its f-string shows. Whether [sys.stdout] takes the
    text (it holds the path, the exception's message, a ligand name, or
    the marks U+2713 and U+2717) is the console's verdict, below. *)
Inductive message :=
  | msg_reposition_error (input_file : string) (e : exn)
  | msg_processing (total_count : Z) (name : text)
  | msg_converting_smiles
  | msg_failed_smiles
  | msg_converting_pdb
  | msg_failed_pdbqt
  | msg_repositioning
  | msg_failed_reposition
  | msg_processed (name : text)
  | msg_blank.

(** What [open(p, 'w')] and the [writelines] under it meet: [open] raises
    and nothing is touched; or the file is opened, truncated and takes the
    whole text; or it is opened, truncated, takes the first [k] characters
    and a write (or the flush at [close]) raises. [others] are further
    spellings of the path at which the same file is seen. *)
Inductive write_verdict :=
  | Refused
  | Written (others : list string)
  | Broken (k : nat) (others : list string).

Record world := World {
  nodes : gmap string node;
  calls : list text;
  stdout : list message;
  tty : list message -> message -> option exn;
  disk : string -> text -> gmap string node -> write_verdict
}.

Definition with_nodes (fs : gmap string node) (w : world) : world :=
  World fs (calls w) (stdout w) (tty w) (disk w).

(** A world whose console takes every line and whose disk takes every
    write, with nothing run or printed yet. *)
Definition quiet (fs : gmap string node) : world :=
  World fs [] [] (fun _ _ => None) (fun _ _ _ => Written []).

Definition M (A : Type) : Type := world -> result A * world.

Definition ret {A} (a : A) : M A := fun w => (Ok a, w).
Definition raise {A} (e : exn) : M A := fun w => (Raise e, w).
Definition bind {A B} (m : M A) (k : A -> M B) : M B :=
  fun w => match m w with
           | (Ok a, w') => k a w'
           | (Raise e, w') => (Raise e, w')
           end.

(** [try: m except <handles>: h] *)
Definition try_except {A} (m : M A) (handles : exn -> bool) (h : exn -> M A) : M A :=
  fun w => match m w with
           | (Ok a, w') => (Ok a, w')
           | (Raise e, w') => if handles e then h e w' else (Raise e, w')
           end.

Notation "x <- m ;; k" := (bind m (fun x => k))
  (at level 100, m at next level, right associativity).
Notation "m ;;; k" := (bind m (fun _ => k))
  (at level 100, right associativity).

(** [os.path.exists] *)
Definition path_exists (p : string) : M bool :=
  fun w => (Ok (bool_decide (is_Some (nodes w !! p))), w).

(** [with open(p, 'r') as f: f.readlines()], before the split into lines. *)
Definition read_text (p : string) : M text :=
  fun w => match nodes w !! p with
           | None => (Raise FileNotFoundError, w)
           | Some Denied => (Raise OSError, w)
           | Some Undecodable => (Raise UnicodeDecodeError, w)
           | Some (File t) => (Ok t, w)
           end.

(** The file system once [t] is what the file at [ps] holds. *)
Definition put (ps : list string) (t : text) (fs : gmap string node)
    : gmap string node :=
  foldr (fun q m => <[q := File t]> m) fs ps.

(** [with open(p, 'w') as f: f.writelines(...)], the lines joined to [t]:
    whatever the disk's verdict, a failure is an [OSError]. *)
Definition write_text (p : string) (t : text) : M unit :=
  fun w => match disk w p t (nodes w) with
           | Refused => (Raise OSError, w)
           | Written others => (Ok tt, with_nodes (put (p :: others) t (nodes w)) w)
           | Broken k others =>
               (Raise OSError, with_nodes (put (p :: others) (take k t) (nodes w)) w)
           end.

(** [print(...)]: the line reaches the console, or the write to
    [sys.stdout] raises (the text does not encode, the pipe is closed). *)
Definition print (m : message) : M unit :=
  fun w => match tty w (stdout w) m with
           | None => (Ok tt, World (nodes w) (calls w) (stdout w ++ [m]) (tty w) (disk w))
           | Some e => (Raise e, w)
           end.

(** ** External tools *)

(** What one [subprocess.run(cmd, shell=True, check=True, ...)] meets: the
    shell ran the command to an exit status, or the invocation itself
    raised (the process could not be spawned, the command line holds a NUL
    byte, captured output does not decode under [text=True], ...). *)
Inductive shell_outcome :=
  | Exit (code : Z)
  | Fails (e : exn).

Definition shell := text -> gmap string node -> shell_outcome * gmap string node.

Definition subprocess_run (sh : shell) (cmd : text) : M unit :=
  fun w =>
    let '(o, fs') := sh cmd (nodes w) in
    let w' := World fs' (calls w ++ [cmd]) (stdout w) (tty w) (disk w) in
    match o with
    | Exit 0 => (Ok tt, w')
    | Exit c => (Raise (CalledProcessError c), w')
    | Fails e => (Raise e, w')
    end.

Definition quoted (s : string) : text := dq :: lit s ++ [dq].

Definition cmd_prepare_ligand4 (pdb_file pdbqt_file : string) : text :=
  lit "prepare_ligand4.py -l " ++ quoted pdb_file ++ lit " -o " ++ quoted pdbqt_file
  ++ lit " -A hydrogens -U nphs_lps".

Definition cmd_obabel (pdb_file pdbqt_file : string) : text :=
  lit "obabel " ++ quoted pdb_file ++ lit " -opdbqt -O " ++ quoted pdbqt_file
  ++ lit " --partialcharge gasteiger".

Definition cmd_pythonsh (pdb_file pdbqt_file : string) : text :=
  lit "pythonsh -c " ++ [dq; nl]
  ++ lit "import sys" ++ [nl]
  ++ lit "sys.path.append('/usr/local/lib/python2.7/site-packages/')" ++ [nl]
  ++ lit "from AutoDockTools.MoleculePreparation import AD4LigandPreparation" ++ [nl]
  ++ lit "prep = AD4LigandPreparation()" ++ [nl]
  ++ lit "prep.prepare_ligand('" ++ lit pdb_file ++ lit "', outputfilename='"
  ++ lit pdbqt_file ++ lit "', repairs='checkhydrogens', charges_to_add='gasteiger')"
  ++ [nl; dq].

(** One [try: run(cmd); if exists(out): return True / except
    CalledProcessError: pass] block; [true] stands for the early return. *)
Definition try_method (sh : shell) (cmd : text) (pdbqt_file : string) : M bool :=
  try_except
    (subprocess_run sh cmd ;;; path_exists pdbqt_file)
    is_CalledProcessError
    (fun _ => ret false).

Definition convert_pdb_to_pdbqt (sh : shell) (pdb_file pdbqt_file : string) : M bool :=
  r1 <- try_method sh (cmd_prepare_ligand4 pdb_file pdbqt_file) pdbqt_file ;;
  if r1 then ret true else
  r2 <- try_method sh (cmd_obabel pdb_file pdbqt_file) pdbqt_file ;;
  if r2 then ret true else
  r3 <- try_method sh (cmd_pythonsh pdb_file pdbqt_file) pdbqt_file ;;
  if r3 then ret true else
  ret false.

(** ** Floats *)

(** Python's [float] is IEEE 754 binary64. *)
Abbreviation float := spec_float.

Definition fadd : float -> float -> float := SFadd 53 1024.
Definition fsub : float -> float -> float := SFsub 53 1024.
Definition fdiv : float -> float -> float := SFdiv 53 1024.
Definition feqb : float -> float -> bool := SFeqb.

Definition is_finite (x : float) : bool :=
  match x with
  | S754_zero _ | S754_finite _ _ _ => true
  | _ => false
  end.

(** [float(n)] for an [int]: nearest double, ties to even; an [int] beyond
    the largest double raises [OverflowError]. *)
Definition float_of_int (n : Z) : result float :=
  match binary_normalize 53 1024 n 0 false with
  | S754_infinity _ => Raise OverflowError
  | x => Ok x
  end.

(** [x / n] for a float [x] and an [int] [n]. *)
Definition float_div_int (x : float) (n : Z) : result float :=
  match float_of_int n with
  | Raise e => Raise e
  | Ok d => if Z.eqb n 0 then Raise ZeroDivisionError else Ok (fdiv x d)
  end.

(** [sum(xs)] over floats: accumulation from the [int] 0, left to right (the
    plain summation of CPython up to 3.11; later versions add a
    compensation term, which changes no sum that is exact). *)
Definition py_sum (xs : list float) : float :=
  fold_left fadd xs (S754_zero false).

(** The double nearest to [(-1)^neg * m * 10^e], ties to even: what the
    correctly rounded [strtod] behind [float(str)] returns. *)
Definition float_of_decimal (neg : bool) (m : Z) (e : Z) : float :=
  match m with
  | Zpos p =>
      fdiv (S754_finite neg (p * Z.to_pos (10 ^ Z.max e 0)) 0)
           (S754_finite false (Z.to_pos (10 ^ Z.max (- e) 0)) 0)
  | _ => S754_zero neg
  end.

(** ** [float(str)] *)

Definition is_digit (c : ascii) : bool :=
  (48 <=? nat_of_ascii c)%nat && (nat_of_ascii c <=? 57)%nat.

Definition digit_val (c : ascii) : Z := Z.of_nat (nat_of_ascii c) - 48.

Definition digit_char (d : Z) : ascii := ascii_of_nat (Z.to_nat (48 + d)).

Definition digits_value (ds : text) : Z :=
  fold_left (fun acc c => 10 * acc + digit_val c) ds 0.

(** [Py_ISSPACE]: space, \t, \n, \v, \f, \r. *)
Definition is_space (c : ascii) : bool :=
  let n := nat_of_ascii c in
  ((9 <=? n)%nat && (n <=? 13)%nat) || (n =? 32)%nat.

(** The white space beyond ASCII: U+0085 and U+00A0. *)
Definition is_wide_space (c : ascii) : bool :=
  let n := nat_of_ascii c in
  (n =? 133)%nat || (n =? 160)%nat.

(** What [float] does to a [str] first: a character below 127 is kept, a
    white-space character becomes a space, and at any other character
    (none of them is a decimal digit) the text ends with a question mark. *)
Fixpoint to_ascii (s : text) : text :=
  match s with
  | [] => []
  | c :: r =>
      if (nat_of_ascii c <? 127)%nat then c :: to_ascii r
      else if is_wide_space c then " "%char :: to_ascii r
      else ["?"%char]
  end.

Definition lower (c : ascii) : ascii :=
  let n := nat_of_ascii c in
  if (65 <=? n)%nat && (n <=? 90)%nat then ascii_of_nat (n + 32) else c.

Fixpoint lstrip (s : text) : text :=
  match s with
  | c :: r => if is_space c then lstrip r else s
  | [] => []
  end.

Definition strip (s : text) : text := rev (lstrip (rev (lstrip s))).

Fixpoint take_digits (s : text) : text :=
  match s with
  | c :: r => if is_digit c then c :: take_digits r else []
  | [] => []
  end.

Fixpoint drop_digits (s : text) : text :=
  match s with
  | c :: r => if is_digit c then drop_digits r else s
  | [] => []
  end.

(** Underscores may only sit between two digits; they are dropped. *)
Fixpoint drop_underscores (prev : ascii) (s : text) : option text :=
  match s with
  | [] => if Ascii.eqb prev "_" then None else Some []
  | c :: r =>
      if Ascii.eqb c "_" then
        if is_digit prev then drop_underscores c r else None
      else if Ascii.eqb prev "_" && negb (is_digit c) then None
      else option_map (cons c) (drop_underscores c r)
  end.

Definition parse_sign (s : text) : bool * text :=
  match s with
  | c :: r => if Ascii.eqb c "-" then (true, r)
              else if Ascii.eqb c "+" then (false, r)
              else (false, s)
  | [] => (false, [])
  end.

(** What follows the mantissa: nothing, or [e], an optional sign and at
    least one digit, up to the end of the string. *)
Definition parse_exponent (s : text) : option Z :=
  match s with
  | [] => Some 0
  | c :: r =>
      if Ascii.eqb (lower c) "e" then
        let '(neg, ds) := parse_sign r in
        match ds with
        | [] => None
        | _ => if forallb is_digit ds
               then Some (if neg then - digits_value ds else digits_value ds)
               else None
        end
      else None
  end.

Definition parse_decimal (s : text) : option float :=
  let '(neg, r) := parse_sign s in
  let ip := take_digits r in
  let r1 := drop_digits r in
  let '(fp, r2) :=
    match r1 with
    | c :: r' => if Ascii.eqb c "." then (take_digits r', drop_digits r') else ([], r1)
    | [] => ([], r1)
    end in
  match ip ++ fp with
  | [] => None
  | ds =>
      match parse_exponent r2 with
      | Some e => Some (float_of_decimal neg (digits_value ds) (e - Z.of_nat (length fp)))
      | None => None
      end
  end.

Definition parse_inf_or_nan (s : text) : option float :=
  let '(neg, r) := parse_sign s in
  let l := map lower r in
  if bool_decide (l = lit "inf") || bool_decide (l = lit "infinity")
  then Some (S754_infinity neg)
  else if bool_decide (l = lit "nan") then Some S754_nan
  else None.

(** [float(s)] for a [str] [s]; [ValueError] when [s] is no float literal. *)
Definition py_float (s : text) : result float :=
  match drop_underscores "000" (strip (to_ascii s)) with
  | None => Raise ValueError
  | Some s' =>
      match parse_decimal s' with
      | Some x => Ok x
      | None =>
          match parse_inf_or_nan s' with
          | Some x => Ok x
          | None => Raise ValueError
          end
      end
  end.

(** The spec's name for the read access to one coordinate field. *)
Definition parse_coordinate (s : text) : result float := py_float s.

(** ** [f'{x:8.3f}'] *)

(** [n / d] rounded to the nearest integer, ties to even ([0 <= n], [0 < d]). *)
Definition div_half_even (n d : Z) : Z :=
  let q := n / d in
  let r := n mod d in
  match 2 * r ?= d with
  | Lt => q
  | Gt => q + 1
  | Eq => if Z.even q then q else q + 1
  end.

(** [|x| * 1000] rounded to an integer, for finite [x]. *)
Definition thousandths (x : float) : Z :=
  match x with
  | S754_finite _ m e =>
      div_half_even (Zpos m * 1000 * 2 ^ Z.max e 0) (2 ^ Z.max (- e) 0)
  | _ => 0
  end.

Fixpoint decimal_fuel (fuel : nat) (n : Z) : text :=
  match fuel with
  | O => []
  | S f =>
      if n <? 10 then [digit_char n]
      else decimal_fuel f (n / 10) ++ [digit_char (n mod 10)]
  end.

(** [str(n)] for [0 <= n]. *)
Definition decimal (n : Z) : text :=
  decimal_fuel (S (Z.to_nat (Z.log2 n))) n.

Definition sign_text (neg : bool) : text := if neg then lit "-" else [].

(** The ['.3f'] rendering of a sign and a count of thousandths. *)
Definition fixed3 (neg : bool) (k : Z) : text :=
  sign_text neg ++ decimal (k / 1000) ++ lit "."
  ++ [digit_char (k / 100 mod 10); digit_char (k / 10 mod 10); digit_char (k mod 10)].

Definition sign_bit (x : float) : bool :=
  match x with
  | S754_zero s | S754_infinity s | S754_finite s _ _ => s
  | S754_nan => false
  end.

Definition format_3f (x : float) : text :=
  match x with
  | S754_nan => lit "nan"
  | S754_infinity s => sign_text s ++ lit "inf"
  | _ => fixed3 (sign_bit x) (thousandths x)
  end.

Definition rjust (width : nat) (s : text) : text :=
  replicate (width - length s) " "%char ++ s.

(** [f'{x:8.3f}']: the spec's [format_coordinate]. *)
Definition format_coordinate (x : float) : text := rjust 8 (format_3f x).

(** ** [reposition_ligand] *)

#[global] Instance result_ret : MRet result := fun _ a => Ok a.
#[global] Instance result_bind : MBind result :=
  fun _ _ k r => match r with Ok a => k a | Raise e => Raise e end.

Definition lift {A} (r : result A) : M A := fun w => (r, w).

(** [s[a:b]]: slices clamp, they never raise. *)
Definition slice (a b : nat) (s : text) : text := take (b - a) (drop a s).

Fixpoint startswith (line pre : text) : bool :=
  match pre, line with
  | [], _ => true
  | p :: pre', c :: line' => Ascii.eqb p c && startswith line' pre'
  | _ :: _, [] => false
  end.

(** A geometry-participating record. *)
Definition is_atom_line (line : text) : bool :=
  startswith line (lit "HETATM") || startswith line (lit "ATOM").

Definition coord : Type := float * float * float.

Definition line_coords (line : text) : result coord :=
  x ← py_float (slice 30 38 line);
  y ← py_float (slice 38 46 line);
  z ← py_float (slice 46 54 line);
  Ok (x, y, z).

(** [f.readlines()]: every line keeps its newline; the last may lack one. *)
Fixpoint readlines (s : text) : list text :=
  match s with
  | [] => []
  | c :: r =>
      if Ascii.eqb c nl then [c] :: readlines r
      else match readlines r with
           | [] => [[c]]
           | l :: ls => (c :: l) :: ls
           end
  end.

(** The first loop, from line index [i] on, extending [coords] and
    [atom_line_indices]. *)
Fixpoint scan_atoms (i : nat) (lines : list text)
    (coords : list coord) (atom_line_indices : list nat)
    : result (list coord * list nat) :=
  match lines with
  | [] => Ok (coords, atom_line_indices)
  | line :: rest =>
      if is_atom_line line then
        c ← line_coords line;
        scan_atoms (S i) rest (coords ++ [c]) (atom_line_indices ++ [i])
      else scan_atoms (S i) rest coords atom_line_indices
  end.

Definition center (coords : list coord) : result coord :=
  let n := Z.of_nat (length coords) in
  center_x ← float_div_int (py_sum (map (fun c => c.1.1) coords)) n;
  center_y ← float_div_int (py_sum (map (fun c => c.1.2) coords)) n;
  center_z ← float_div_int (py_sum (map (fun c => c.2) coords)) n;
  Ok (center_x, center_y, center_z).

Definition new_line (line : text) (x y z : float) : text :=
  take 30 line ++ format_coordinate x ++ format_coordinate y ++ format_coordinate z
  ++ drop 54 line.

(** The second loop: [lines[line_idx] = new_line] for each recorded index. *)
Fixpoint translate_atoms (atom_line_indices : list nat) (trans : coord)
    (lines : list text) : result (list text) :=
  match atom_line_indices with
  | [] => Ok lines
  | line_idx :: rest =>
      match lines !! line_idx with
      | None => Raise IndexError
      | Some line =>
          c ← line_coords line;
          let x := fadd c.1.1 trans.1.1 in
          let y := fadd c.1.2 trans.1.2 in
          let z := fadd c.2 trans.2 in
          translate_atoms rest trans (<[line_idx := new_line line x y z]> lines)
      end
  end.

(** The body of the [try] block. A [File]'s data is the text as Python's
    text mode presents it. *)
Definition reposition_body (input_file output_file : string)
    (target_x target_y target_z : float) : M bool :=
  t <- read_text input_file ;;
  let lines := readlines t in
  r <- lift (scan_atoms 0 lines [] []) ;;
  let '(coords, atom_line_indices) := r in
  match coords with
  | [] => ret false
  | _ =>
      c <- lift (center coords) ;;
      let trans := (fsub target_x c.1.1, fsub target_y c.1.2, fsub target_z c.2) in
      lines' <- lift (translate_atoms atom_line_indices trans lines) ;;
      write_text output_file (concat lines') ;;;
      ret true
  end.

Definition reposition_ligand (input_file output_file : string)
    (target_x target_y target_z : float) : M bool :=
  try_except
    (reposition_body input_file output_file target_x target_y target_z)
    is_Exception
    (fun e => print (msg_reposition_error input_file e) ;;; ret false).

(** ** Derived views of the two loops *)

(** The indices the first loop records, counted from [i]. *)
Fixpoint atom_indices (i : nat) (lines : list text) : list nat :=
  match lines with
  | [] => []
  | line :: rest =>
      if is_atom_line line then i :: atom_indices (S i) rest
      else atom_indices (S i) rest
  end.

(** The coordinates the first loop collects. *)
Fixpoint atom_coords (lines : list text) : list coord :=
  match lines with
  | [] => []
  | line :: rest =>
      if is_atom_line line then
        match line_coords line with
        | Ok c => c :: atom_coords rest
        | Raise _ => atom_coords rest
        end
      else atom_coords rest
  end.

(** A line the first loop passes: inert, or with three readable fields. *)
Definition line_ok (line : text) : bool :=
  negb (is_atom_line line)
  || match line_coords line with Ok _ => true | Raise _ => false end.

(** What the second loop leaves at the place of [line]. *)
Definition moved_line (trans : coord) (line : text) : text :=
  if is_atom_line line then
    match line_coords line with
    | Ok c => new_line line (fadd c.1.1 trans.1.1) (fadd c.1.2 trans.1.2) (fadd c.2 trans.2)
    | Raise _ => line
    end
  else line.

Definition translation (target c : coord) : coord :=
  (fsub target.1.1 c.1.1, fsub target.1.2 c.1.2, fsub target.2 c.2).

(** The centroid the program would compute from a file's text. *)
Definition text_centroid (t : text) : result coord :=
  r ← scan_atoms 0 (readlines t) [] [];
  match r.1 with
  | [] => Raise ValueError
  | coords => center coords
  end.

(** The handler of [reposition_ligand]: the diagnostic, then [False]. *)
Definition report (input_file : string) (e : exn) : M bool :=
  print (msg_reposition_error input_file e) ;;; ret false.

(** The text [reposition_ligand] hands to the output file. *)
Definition moved_text (target c : coord) (lines : list text) : text :=
  concat (map (moved_line (translation target c)) lines).

(** The whole of [reposition_ligand] as one case analysis. *)
Definition reposition_outcome (input_file output_file : string)
    (target : coord) (w : world) : result bool * world :=
  match nodes w !! input_file with
  | Some (File t) =>
      let lines := readlines t in
      if forallb line_ok lines then
        match atom_coords lines with
        | [] => (Ok false, w)
        | coords =>
            match center coords with
            | Raise e => report input_file e w
            | Ok c =>
                let data := moved_text target c lines in
                match disk w output_file data (nodes w) with
                | Refused => report input_file OSError w
                | Written others =>
                    (Ok true, with_nodes (put (output_file :: others) data (nodes w)) w)
                | Broken k others =>
                    report input_file OSError
                      (with_nodes (put (output_file :: others) (take k data) (nodes w)) w)
                end
            end
        end
      else report input_file ValueError w
  | Some Undecodable => report input_file UnicodeDecodeError w
  | Some Denied => report input_file OSError w
  | None => report input_file FileNotFoundError w
  end.

(** A line as [readlines] yields it: free of newlines but for the one that
    may end it; [term] tells whether it is terminated. *)
Definition is_line (term : bool) (l : text) : Prop :=
  exists body, (nl ∉ body) /\ l = body ++ (if term then [nl] else [])
               /\ (term = false -> body <> []).

Inductive lines_wf : list text -> Prop :=
  | wf_nil : lines_wf []
  | wf_last l : is_line false l -> lines_wf [l]
  | wf_cons l ls : is_line true l -> lines_wf ls -> lines_wf (l :: ls).

(** ** Notions of the specification *)

Fixpoint drop_spaces (s : text) : text :=
  match s with
  | c :: r => if Ascii.eqb c " " then drop_spaces r else s
  | [] => []
  end.

(** Decimal digits of an integer part: no leading zero but for ["0"]. *)
Definition is_plain_int (ds : text) : bool :=
  match ds with
  | [] => false
  | c :: r =>
      forallb is_digit ds
      && (negb (Ascii.eqb c "0") || bool_decide (r = []))
  end.

Definition is_fixed3 (body : text) : bool :=
  let r := match body with
           | c :: r' => if Ascii.eqb c "-" then r' else body
           | [] => []
           end in
  match drop_digits r with
  | [dot; a; b; c] =>
      Ascii.eqb dot "." && is_digit a && is_digit b && is_digit c
      && is_plain_int (take_digits r)
  | _ => false
  end.

(** An 8-character coordinate field as the data model has it: right-aligned
    with spaces, fixed point, 3 decimal places. *)
Definition is_fixed_field (s : text) : bool :=
  (length s =? 8)%nat && is_fixed3 (drop_spaces s).

(** The text of a fixed-point field: sign, integer digits, point and three
    decimals. *)
Definition field_body (neg : bool) (ip : text) (a b c : ascii) : text :=
  sign_text neg ++ ip ++ "."%char :: [a; b; c].

(** The values whose rendering stays within the 8 characters of a field:
    finite, and below 10000 (above -1000) once rounded to thousandths. *)
Definition fits_field (x : float) : bool :=
  is_finite x
  && (thousandths x <=? (if sign_bit x then 999999 else 9999999)).

(** A geometry line of a valid structure: its three coordinate fields are
    fixed-point fields. *)
Definition valid_atom_line (line : text) : bool :=
  is_fixed_field (slice 30 38 line)
  && is_fixed_field (slice 38 46 line)
  && is_fixed_field (slice 46 54 line).

Definition valid_line (line : text) : bool :=
  negb (is_atom_line line) || valid_atom_line line.

(** Numeric equality of two points (as [==] on floats: -0.0 equals 0.0). *)
Definition coord_eqb (p q : coord) : bool :=
  feqb p.1.1 q.1.1 && feqb p.1.2 q.1.2 && feqb p.2 q.2.

(** How one strategy of the fallback coordinator ends, in the spec's
    words: it succeeds when the tool exits without error and the artifact
    exists; it fails on a non-zero exit or a missing artifact; an exception
    of the invocation itself is neither. *)
Inductive verdict :=
  | Succeeded
  | Failed
  | Surfaced (e : exn).

Definition attempt (sh : shell) (pdbqt_file : string) (cmd : text) (w : world)
    : verdict * world :=
  let '(o, fs') := sh cmd (nodes w) in
  (match o with
   | Exit 0 => if bool_decide (is_Some (fs' !! pdbqt_file)) then Succeeded else Failed
   | Exit _ => Failed
   | Fails e => if is_CalledProcessError e then Failed else Surfaced e
   end,
   World fs' (calls w ++ [cmd]) (stdout w) (tty w) (disk w)).

(** The fallback policy in the spec's words, as the code has it: the
    strategies in order, the first success ends the run with [True], a
    failure passes to the next strategy, [False] only when the list is
    exhausted; an exception of an invocation ends the run at once. *)
Fixpoint fallback (sh : shell) (pdbqt_file : string) (cmds : list text) (w : world)
    : result bool * world :=
  match cmds with
  | [] => (Ok false, w)
  | cmd :: rest =>
      match attempt sh pdbqt_file cmd w with
      | (Succeeded, w') => (Ok true, w')
      | (Failed, w') => fallback sh pdbqt_file rest w'
      | (Surfaced e, w') => (Raise e, w')
      end
  end.

Definition strategies (pdb_file pdbqt_file : string) : list text :=
  [cmd_prepare_ligand4 pdb_file pdbqt_file;
   cmd_obabel pdb_file pdbqt_file;
   cmd_pythonsh pdb_file pdbqt_file].

(** No invocation raises anything but [CalledProcessError]. *)
Definition always_exits (sh : shell) : Prop :=
  forall cmd fs, exists c, (sh cmd fs).1 = Exit c.

(** ** Concrete worlds for the examples *)

(** A shell that refuses a command line holding a NUL byte (as
    [subprocess.run] does, with [ValueError]) and otherwise finds no tool. *)
Definition sh_no_tools : shell :=
  fun cmd fs =>
    if bool_decide ("000"%char ∈ cmd) then (Fails ValueError, fs) else (Exit 127, fs).

Definition nul_path : string := String "000" "lig.pdb".

(** Strategy 1 exits non-zero, strategy 2 exits 0 without producing the
    artifact, strategy 3 writes it. *)
Definition sh_third_only : shell :=
  fun cmd fs =>
    if startswith cmd (lit "prepare_ligand4.py") then (Exit 1, fs)
    else if startswith cmd (lit "obabel") then (Exit 0, fs)
    else (Exit 0, <["lig.pdbqt"%string := File (lit "ROOT")]> fs).

(** Strategy 1 exits non-zero and the invocation of strategy 2 raises. *)
Definition sh_second_raises : shell :=
  fun cmd fs =>
    if startswith cmd (lit "prepare_ligand4.py") then (Exit 1, fs)
    else (Fails ValueError, fs).

(** Every tool exits 0 and writes nothing. *)
Definition sh_idle : shell := fun _ fs => (Exit 0, fs).

Definition stale_world : world :=
  quiet {[ "lig.pdbqt"%string := File (lit "stale") ]}.

Definition fzero : float := S754_zero false.

(** No file at all, and a console that cannot encode what is printed. *)
Definition mute_world : world :=
  World ∅ [] [] (fun _ _ => Some UnicodeEncodeError) (fun _ _ _ => Written []).

(** REMARK and END lines only. *)
Definition inert_text : text :=
  lit "REMARK  no atoms here" ++ [nl] ++ lit "END" ++ [nl].

Definition atom_prefix : text := lit "ATOM      1  C   LIG A   1    ".
Definition atom_suffix : text := lit "  1.00  0.00           C" ++ [nl].

Definition atom_line (x y z : string) : text :=
  atom_prefix ++ lit x ++ lit y ++ lit z ++ atom_suffix.

(** One ATOM line of 51 characters, newline included: its z field is cut
    short by the end of the line. *)
Definition short_text : text :=
  atom_prefix ++ lit "   0.000" ++ lit "   0.000" ++ lit " 1.5" ++ [nl]
  ++ lit "END" ++ [nl].

(** An ATOM line of 40 characters: no z field at all. *)
Definition stub_text : text :=
  lit "REMARK" ++ [nl] ++ atom_prefix ++ lit "   0.000" ++ lit "  " ++ [nl].

Definition world_of (t : text) : world :=
  quiet {[ "in.pdbqt"%string := File t ]}.

(** The float Python reads from a literal. *)
Definition flt (s : string) : float :=
  match py_float (lit s) with
  | Ok x => x
  | Raise _ => S754_nan
  end.

(** The end-to-end scenario: atoms at (0,0,0) and (2,2,2). *)
Definition two_atoms_text : text :=
  lit "REMARK  two atoms" ++ [nl]
  ++ atom_line "   0.000" "   0.000" "   0.000"
  ++ atom_line "   2.000" "   2.000" "   2.000"
  ++ lit "END" ++ [nl].

Definition two_atoms_moved : text :=
  lit "REMARK  two atoms" ++ [nl]
  ++ atom_line "   9.000" "   9.000" "   9.000"
  ++ atom_line "  11.000" "  11.000" "  11.000"
  ++ lit "END" ++ [nl].


(** ** [convert_smiles_to_pdb] *)

Definition cmd_smiles (smiles : text) (output_file : string) : text :=
  lit "obabel -:" ++ [dq] ++ smiles ++ [dq] ++ lit " -opdb --gen3d -O " ++ quoted output_file.

(** [try: run(cmd); return True / except CalledProcessError: return False]:
    no look at the output file. *)
Definition convert_smiles_to_pdb (sh : shell) (smiles : text) (output_file : string)
    : M bool :=
  try_except
    (subprocess_run sh (cmd_smiles smiles output_file) ;;; ret true)
    is_CalledProcessError
    (fun _ => ret false).

(** ** The batch loop of [main] *)

(** [str.isspace]: \t \n \v \f \r, the separators 28-31, space, U+0085
    and U+00A0. *)
Definition is_whitespace (c : ascii) : bool :=
  let n := nat_of_ascii c in
  ((9 <=? n)%nat && (n <=? 13)%nat) || ((28 <=? n)%nat && (n <=? 32)%nat)
  || (n =? 133)%nat || (n =? 160)%nat.

Fixpoint lstrip_ws (s : text) : text :=
  match s with
  | c :: r => if is_whitespace c then lstrip_ws r else s
  | [] => []
  end.

(** [s.strip()] *)
Definition str_strip (s : text) : text := rev (lstrip_ws (rev (lstrip_ws s))).

(** [s.split()]: the maximal runs of non-whitespace characters. *)
Fixpoint str_split (s : text) : list text :=
  match s with
  | [] => []
  | c :: r =>
      if is_whitespace c then str_split r
      else match r with
           | [] => [[c]]
           | c' :: _ =>
               if is_whitespace c' then [c] :: str_split r
               else match str_split r with
                    | word :: words => (c :: word) :: words
                    | [] => [[c]]
                    end
           end
  end.

(** The parsed command line. *)
Record args := Args {
  smiles_file : string;
  grid_x : float;
  grid_y : float;
  grid_z : float;
  output_dir : string
}.

Definition pdb_path (a : args) (name : text) : string :=
  String.append (output_dir a)
    (String.append "/pdb/" (String.append (string_of_list_ascii name) ".pdb")).

Definition pdbqt_path (a : args) (name : text) : string :=
  String.append (output_dir a)
    (String.append "/pdbqt/" (String.append (string_of_list_ascii name) ".pdbqt")).

Definition positioned_path (a : args) (name : text) : string :=
  String.append (output_dir a)
    (String.append "/positioned/" (String.append (string_of_list_ascii name) ".pdbqt")).

(** Steps 1 to 3 for one ligand, with what they print; [true] when the
    ligand counts as successfully processed, [false] for each [continue]. *)
Definition process_ligand (sh : shell) (a : args) (smiles name : text) : M bool :=
  print msg_converting_smiles ;;;
  ok1 <- convert_smiles_to_pdb sh smiles (pdb_path a name) ;;
  if negb ok1 then print msg_failed_smiles ;;; ret false else
  print msg_converting_pdb ;;;
  ok2 <- convert_pdb_to_pdbqt sh (pdb_path a name) (pdbqt_path a name) ;;
  if negb ok2 then print msg_failed_pdbqt ;;; ret false else
  print msg_repositioning ;;;
  ok3 <- reposition_ligand (pdbqt_path a name) (positioned_path a name)
           (grid_x a) (grid_y a) (grid_z a) ;;
  if negb ok3 then print msg_failed_reposition ;;; ret false else
  print (msg_processed name) ;;;
  print msg_blank ;;;
  ret true.

(** A line of the SMILES file that names a ligand: not blank, no comment. *)
Definition is_entry (raw : text) : bool :=
  match str_strip raw with
  | [] => false
  | line => negb (startswith line (lit "#"))
  end.

(** The SMILES and the name a ligand line gives. *)
Definition entry_of (line_num : nat) (raw : text) : option (text * text) :=
  match str_split (str_strip raw) with
  | [] => None
  | smiles :: more =>
      Some (smiles,
            match more with
            | name :: _ => name
            | [] => lit "ligand_" ++ decimal (Z.of_nat line_num)
            end)
  end.

(** One turn of the loop on the line [raw], from the counters [st]. *)
Definition main_step (sh : shell) (a : args) (line_num : nat) (raw : text)
    (st : Z * Z) : M (Z * Z) :=
  if negb (is_entry raw) then ret st
  else
    match entry_of line_num raw with
    | None => raise IndexError
    | Some (smiles, name) =>
        print (msg_processing (st.2 + 1) name) ;;;
        ok <- process_ligand sh a smiles name ;;
        ret (if ok then st.1 + 1 else st.1, st.2 + 1)
    end.

(** The [for line_num, line in enumerate(f, 1)] loop with its two counters
    (the lines are those the file has when it is opened). *)
Fixpoint main_loop (sh : shell) (a : args) (line_num : nat) (lines : list text)
    (success_count total_count : Z) : M (Z * Z) :=
  match lines with
  | [] => ret (success_count, total_count)
  | raw :: rest =>
      st <- main_step sh a line_num raw (success_count, total_count) ;;
      main_loop sh a (S line_num) rest st.1 st.2
  end.

(** [main] from the opening of the SMILES file to the end of the loop,
    returning [(success_count, total_count)]. *)
Definition main_batch (sh : shell) (a : args) : M (Z * Z) :=
  t <- read_text (smiles_file a) ;;
  main_loop sh a 1 (readlines t) 0 0.

(** A console that takes every line, whatever was printed before. *)
Definition accepting (w : world) : Prop := forall h m, tty w h m = None.

(** A computation that leaves the console as it is. *)
Definition steady {A} (m : M A) : Prop := forall w, tty (m w).2 = tty w.

(** A computation that returns normally under an accepting console. *)
Definition succeeds {A} (m : M A) : Prop :=
  forall w, accepting w -> exists a w', m w = (Ok a, w') /\ accepting w'.

Definition count_entries (lines : list text) : Z :=
  Z.of_nat (length (List.filter is_entry lines)).



(** A shell for the batch examples: [prepare_ligand4.py] writes the
    two-atom structure to [out/pdbqt/ethanol.pdbqt], whatever it was asked
    for; every tool exits 0. *)
Definition sh_demo : shell :=
  fun cmd fs =>
    if startswith cmd (lit "prepare_ligand4.py")
    then (Exit 0, <["out/pdbqt/ethanol.pdbqt"%string := File two_atoms_text]> fs)
    else (Exit 0, fs).


(** A shell whose every invocation fails to start. *)
Definition sh_broken : shell := fun _ fs => (Fails OSError, fs).

Definition demo_args : args :=
  Args "ligands.smi" (flt "10") (flt "10") (flt "10") "out".

Definition demo_smiles : text :=
  lit "# ligand library" ++ [nl] ++ [nl]
  ++ lit "CCO ethanol" ++ [nl]
  ++ lit "  CCC  " ++ [nl].

Definition demo_world : world :=
  quiet {[ "ligands.smi"%string := File demo_smiles ]}.

(** ** The real number a float stands for *)

Definition bpow (e : Z) : R := powerRZ 2 e.

(** The value of a finite float; 0 for the others. *)
Definition F2R (x : float) : R :=
  match x with
  | S754_finite s m e => (if s then - IZR (Z.pos m) else IZR (Z.pos m)) * bpow e
  | _ => 0%R
  end.

Definition sgn (s : bool) : R := if s then (-1)%R else 1%R.

(** The relative and absolute error allowed to one operation, with a wide
    margin over the half unit in the last place of binary64. *)
Definition u_rel : R := (8 * bpow (-52))%R.
Definition u_abs : R := (8 * bpow (-1074))%R.

(** The exact sum and mean of a list of finite floats. *)
Definition Rsum (xs : list float) : R :=
  fold_right (fun x a => (F2R x + a)%R) 0%R xs.

Definition Rmean (xs : list float) : R := (Rsum xs / INR (length xs))%R.

(** A finite float of magnitude at most [B]. *)
Definition bounded (B : R) (x : float) : Prop :=
  is_finite x = true /\ (Rabs (F2R x) <= B)%R.

(** What [float] reads from the rendering of a value that fits a field:
    the value's sign and its thousandths. *)
Definition reread (v : float) : float :=
  float_of_decimal (sign_bit v) (thousandths v) (-3).

(** A point moved by a translation, as the second loop computes it, and
    what is read back from its rendering. *)
Definition shift (tr c : coord) : coord :=
  (fadd c.1.1 tr.1.1, fadd c.1.2 tr.1.2, fadd c.2 tr.2).

Definition reread3 (c : coord) : coord := (reread c.1.1, reread c.1.2, reread c.2).

Definition fits3 (c : coord) : bool :=
  fits_field c.1.1 && fits_field c.1.2 && fits_field c.2.

Definition bounded3 (B : R) (c : coord) : Prop :=
  bounded B c.1.1 /\ bounded B c.1.2 /\ bounded B c.2.

(** [x] is a finite float within [eps] of the finite float [y]. *)
Definition near (eps : R) (x y : float) : Prop :=
  is_finite x = true /\ is_finite y = true /\ (Rabs (F2R x - F2R y) <= eps)%R.

Definition near3 (eps : R) (p q : coord) : Prop :=
  near eps p.1.1 q.1.1 /\ near eps p.1.2 q.1.2 /\ near eps p.2 q.2.

(** One axis of [center]. *)
Definition axis_mean (xs : list float) : result float :=
  float_div_int (py_sum xs) (Z.of_nat (length xs)).

(** The floats a fixed field reads as: a sign and thousandths that fit the
    eight characters. *)
Definition field_float (x : float) : Prop :=
  exists (neg : bool) (k : Z), 0 <= k <= (if neg then 999999 else 9999999)
                /\ x = float_of_decimal neg k (-3).

Definition field_coord (p : coord) : Prop :=
  field_float p.1.1 /\ field_float p.1.2 /\ field_float p.2.

(** [t] is finite and within [eps] of the exact mean of [xs]. *)
Definition at_mean (eps : R) (xs : list float) (t : float) : Prop :=
  is_finite t = true /\ (Rabs (F2R t - Rmean xs) <= eps)%R.

(** The target is the centroid of [coords], the exact mean of the
    coordinates on each axis, up to 1/10000. *)
Definition own_centroid (coords : list coord) (target : coord) : Prop :=
  at_mean (1 / 10000) (map (fun c : coord => c.1.1) coords) target.1.1
  /\ at_mean (1 / 10000) (map (fun c : coord => c.1.2) coords) target.1.2
  /\ at_mean (1 / 10000) (map (fun c : coord => c.2) coords) target.2.

(** * Properties *)

(** ** The conversion fallback *)

Lemma try_method_attempt sh cmd out w :
  try_method sh cmd out w
  = match attempt sh out cmd w with
    | (Succeeded, w') => (Ok true, w')
    | (Failed, w') => (Ok false, w')
    | (Surfaced e, w') => (Raise e, w')
    end.
Proof.
  unfold try_method, try_except, bind, subprocess_run, path_exists, attempt, ret.
  destruct (sh cmd (nodes w)) as [o fs'] eqn:Hsh; simpl.
  destruct o as [c|e]; simpl.
  - destruct c; simpl; try reflexivity.
    destruct (bool_decide (is_Some (fs' !! out))); reflexivity.
  - destruct (is_CalledProcessError e); reflexivity.
Qed.

Lemma always_exits_no_exn sh cmd fs e :
  always_exits sh -> (sh cmd fs).1 = Fails e -> is_CalledProcessError e = true.
Proof.
  intros Hex Hf. destruct (Hex cmd fs) as [c Hc]. congruence.
Qed.

Lemma convert_refines_fallback sh pdb out w :
  convert_pdb_to_pdbqt sh pdb out w = fallback sh out (strategies pdb out) w.
Proof.
  unfold convert_pdb_to_pdbqt, strategies; simpl fallback.
  unfold bind at 1. rewrite try_method_attempt.
  destruct (attempt sh out (cmd_prepare_ligand4 pdb out) w) as [[| |e1] w1];
    simpl; [reflexivity| |reflexivity].
  unfold bind at 1. rewrite try_method_attempt.
  destruct (attempt sh out (cmd_obabel pdb out) w1) as [[| |e2] w2];
    simpl; [reflexivity| |reflexivity].
  unfold bind at 1. rewrite try_method_attempt.
  destruct (attempt sh out (cmd_pythonsh pdb out) w2) as [[| |e3] w3]; reflexivity.
Qed.

Lemma attempt_calls sh out cmd w :
  calls (attempt sh out cmd w).2 = calls w ++ [cmd].
Proof. unfold attempt. by destruct (sh cmd (nodes w)). Qed.

Lemma attempt_surfaced sh out cmd w e w' :
  attempt sh out cmd w = (Surfaced e, w') ->
  (sh cmd (nodes w)).1 = Fails e /\ is_CalledProcessError e = false.
Proof.
  unfold attempt. destruct (sh cmd (nodes w)) as [[c|e0] fs']; simpl.
  - destruct c; [destruct (bool_decide _)| |]; discriminate.
  - destruct (is_CalledProcessError e0) eqn:He; [discriminate|].
    by intros [= -> _].
Qed.

(** Where a run of the policy that raises stopped: at a strategy whose
    invocation raised, with every strategy up to it run and none after. *)
Lemma fallback_raises sh out cmds : forall w e w',
  fallback sh out cmds w = (Raise e, w') ->
  is_CalledProcessError e = false
  /\ exists k cmd fs,
       cmds !! k = Some cmd
       /\ calls w' = calls w ++ take (S k) cmds
       /\ (sh cmd fs).1 = Fails e.
Proof.
  induction cmds as [|cmd rest IH]; intros w e w'; simpl; [discriminate|].
  destruct (attempt sh out cmd w) as [[| |e0] w1] eqn:Hatt; [discriminate| |].
  - intros Hrest. destruct (IH _ _ _ Hrest) as (He & k & cmd' & fs & Hk & Hcalls & Hsh).
    split; [exact He|]. exists (S k), cmd', fs. split; [exact Hk|]. split; [|exact Hsh].
    pose proof (attempt_calls sh out cmd w) as Hc. rewrite Hatt in Hc. simpl in Hc.
    rewrite Hcalls, Hc, <- app_assoc. reflexivity.
  - intros [= -> <-]. destruct (attempt_surfaced _ _ _ _ _ _ Hatt) as [Hsh He].
    split; [exact He|]. exists 0%nat, cmd, (nodes w). split; [reflexivity|].
    split; [|exact Hsh].
    pose proof (attempt_calls sh out cmd w) as Hc. rewrite Hatt in Hc. exact Hc.
Qed.

(** C2, as stated, fails: an exception of the invocation itself is not
    absorbed; the first strategy's [ValueError] reaches the caller and no
    further strategy is tried. *)
Lemma convert_surfaces_invocation_error :
  let r := convert_pdb_to_pdbqt sh_no_tools nul_path "lig.pdbqt" (quiet ∅) in
  r.1 = Raise ValueError
  /\ calls r.2 = [cmd_prepare_ligand4 nul_path "lig.pdbqt"].
Proof. vm_compute. split; reflexivity. Qed.

(** C2 (amended): [convert_pdb_to_pdbqt] is the fallback policy over the
    three strategies in the fixed order of [strategies]: a strategy
    succeeds exactly when its process exits with status 0 and the artifact
    exists afterwards; a non-zero exit ([CalledProcessError]) or a missing
    artifact moves on to the next strategy without reaching the caller;
    the result is [True] at the first success and [False] only when all
    three failed. An exception of the invocation other than
    [CalledProcessError], at whichever strategy, is not handled: it reaches
    the caller, and the commands run are the strategies up to that one and
    no further. *)
Theorem convert_fallback_policy sh pdb out w :
  convert_pdb_to_pdbqt sh pdb out w = fallback sh out (strategies pdb out) w
  /\ (forall e w',
        convert_pdb_to_pdbqt sh pdb out w = (Raise e, w') ->
        is_CalledProcessError e = false
        /\ exists k cmd fs,
             strategies pdb out !! k = Some cmd
             /\ calls w' = calls w ++ take (S k) (strategies pdb out)
             /\ (sh cmd fs).1 = Fails e).
Proof.
  split; [apply convert_refines_fallback|].
  intros e w'. rewrite convert_refines_fallback. apply fallback_raises.
Qed.

Lemma convert_fallback_policy_witness :
  let w := quiet ∅ in
  let w' := (convert_pdb_to_pdbqt sh_second_raises "lig.pdb" "lig.pdbqt" w).2 in
  is_CalledProcessError ValueError = false
  /\ exists k cmd fs,
       strategies "lig.pdb" "lig.pdbqt" !! k = Some cmd
       /\ calls w' = calls w ++ take (S k) (strategies "lig.pdb" "lig.pdbqt")
       /\ (sh_second_raises cmd fs).1 = Fails ValueError.
Proof.
  apply (proj2 (convert_fallback_policy sh_second_raises "lig.pdb" "lig.pdbqt" (quiet ∅))).
  vm_compute. reflexivity.
Defined.

(** The scenario of the specification: strategies 1 and 2 fail, strategy 3
    succeeds; the result is success after exactly the three commands. *)
Example convert_third_strategy :
  let r := convert_pdb_to_pdbqt sh_third_only "lig.pdb" "lig.pdbqt" (quiet ∅) in
  r.1 = Ok true
  /\ calls r.2 = strategies "lig.pdb" "lig.pdbqt"
  /\ nodes r.2 !! "lig.pdbqt"%string = Some (File (lit "ROOT")).
Proof. vm_compute. repeat split; reflexivity. Qed.

Lemma try_method_nonzero sh cmd out w c :
  c <> 0 -> sh cmd (nodes w) = (Exit c, nodes w) ->
  try_method sh cmd out w
  = (Ok false, World (nodes w) (calls w ++ [cmd]) (stdout w) (tty w) (disk w)).
Proof.
  intros Hc Hsh.
  unfold try_method, try_except, bind, subprocess_run. rewrite Hsh.
  destruct c; [congruence| |]; reflexivity.
Qed.

Lemma try_method_stale sh cmd out w :
  is_Some (nodes w !! out) -> sh cmd (nodes w) = (Exit 0, nodes w) ->
  try_method sh cmd out w
  = (Ok true, World (nodes w) (calls w ++ [cmd]) (stdout w) (tty w) (disk w)).
Proof.
  intros Hex Hsh.
  unfold try_method, try_except, bind, subprocess_run, path_exists. rewrite Hsh.
  simpl. rewrite bool_decide_eq_true_2 by assumption. reflexivity.
Qed.

(** C10: when the artifact path exists beforehand, a strategy that exits 0
    is reported as overall success although it wrote nothing (the strategies
    before it having failed with a non-zero exit, the file system
    untouched throughout). *)
Theorem stale_artifact_counts_as_success sh pdb out w k cmd :
  strategies pdb out !! k = Some cmd ->
  is_Some (nodes w !! out) ->
  (forall j cmd', (j < k)%nat -> strategies pdb out !! j = Some cmd' ->
     exists c, c <> 0 /\ sh cmd' (nodes w) = (Exit c, nodes w)) ->
  sh cmd (nodes w) = (Exit 0, nodes w) ->
  (convert_pdb_to_pdbqt sh pdb out w).1 = Ok true
  /\ nodes (convert_pdb_to_pdbqt sh pdb out w).2 = nodes w.
Proof.
  intros Hk Hex Hbefore Hzero.
  unfold convert_pdb_to_pdbqt.
  destruct k as [|[|[|k]]]; simpl in Hk; try discriminate; injection Hk as <-.
  - unfold bind. rewrite try_method_stale by assumption. split; reflexivity.
  - destruct (Hbefore 0%nat _ ltac:(lia) eq_refl) as (c1 & Hc1 & H1).
    unfold bind. rewrite (try_method_nonzero _ _ _ _ c1) by assumption.
    rewrite try_method_stale by assumption. split; reflexivity.
  - destruct (Hbefore 0%nat _ ltac:(lia) eq_refl) as (c1 & Hc1 & H1).
    destruct (Hbefore 1%nat _ ltac:(lia) eq_refl) as (c2 & Hc2 & H2).
    unfold bind. rewrite (try_method_nonzero _ _ _ _ c1) by assumption.
    rewrite (try_method_nonzero _ _ _ _ c2) by assumption.
    rewrite try_method_stale by assumption. split; reflexivity.
Qed.

Lemma stale_artifact_counts_as_success_witness :
  (convert_pdb_to_pdbqt sh_idle "lig.pdb" "lig.pdbqt" stale_world).1 = Ok true
  /\ nodes (convert_pdb_to_pdbqt sh_idle "lig.pdb" "lig.pdbqt" stale_world).2
     = nodes stale_world.
Proof.
  apply (stale_artifact_counts_as_success sh_idle "lig.pdb" "lig.pdbqt" stale_world
           0%nat (cmd_prepare_ligand4 "lig.pdb" "lig.pdbqt")).
  - reflexivity.
  - vm_compute. eexists; reflexivity.
  - intros j cmd' Hj. lia.
  - reflexivity.
Defined.

(** ** The two loops of [reposition_ligand] *)

Lemma py_float_raises s e : py_float s = Raise e -> e = ValueError.
Proof.
  unfold py_float.
  destruct (drop_underscores _ _) as [s'|]; [|congruence].
  destruct (parse_decimal s'); [discriminate|].
  destruct (parse_inf_or_nan s'); congruence.
Qed.

Lemma line_coords_raises line e : line_coords line = Raise e -> e = ValueError.
Proof.
  unfold line_coords.
  destruct (py_float (slice 30 38 line)) as [x|ex] eqn:Hx; simpl;
    [|intros [= <-]; eauto using py_float_raises].
  destruct (py_float (slice 38 46 line)) as [y|ey] eqn:Hy; simpl;
    [|intros [= <-]; eauto using py_float_raises].
  destruct (py_float (slice 46 54 line)) as [z|ez] eqn:Hz; simpl;
    [discriminate|intros [= <-]; eauto using py_float_raises].
Qed.

Lemma scan_atoms_ok lines : forall i cs js,
  forallb line_ok lines = true ->
  scan_atoms i lines cs js = Ok (cs ++ atom_coords lines, js ++ atom_indices i lines).
Proof.
  induction lines as [|line rest IH]; intros i cs js Hok; simpl.
  - by rewrite !app_nil_r.
  - simpl in Hok. apply andb_prop in Hok as [Hl Hrest].
    unfold line_ok in Hl. destruct (is_atom_line line); simpl in *.
    + destruct (line_coords line) as [c|]; [|discriminate]. simpl.
      rewrite IH by assumption. by rewrite <- !app_assoc.
    + by apply IH.
Qed.

Lemma scan_atoms_bad lines : forall i cs js,
  forallb line_ok lines = false ->
  scan_atoms i lines cs js = Raise ValueError.
Proof.
  induction lines as [|line rest IH]; intros i cs js Hbad; simpl in *.
  - discriminate.
  - unfold line_ok in Hbad. destruct (is_atom_line line); simpl in *.
    + destruct (line_coords line) as [c|e] eqn:Hc; simpl in *.
      * by apply IH.
      * by rewrite (line_coords_raises _ _ Hc).
    + by apply IH.
Qed.

Lemma atom_coords_inert lines :
  Forall (fun line => is_atom_line line = false) lines -> atom_coords lines = [].
Proof.
  induction 1 as [|line rest Hl _ IH]; simpl; [done|]. by rewrite Hl.
Qed.

Lemma inert_lines_ok lines :
  Forall (fun line => is_atom_line line = false) lines -> forallb line_ok lines = true.
Proof.
  induction 1 as [|line rest Hl _ IH]; simpl; [done|].
  unfold line_ok. by rewrite Hl.
Qed.

Lemma translate_atoms_ok trans post : forall pre,
  forallb line_ok post = true ->
  translate_atoms (atom_indices (length pre) post) trans (pre ++ post)
  = Ok (pre ++ map (moved_line trans) post).
Proof.
  induction post as [|line rest IH]; intros pre Hok; simpl.
  - done.
  - simpl in Hok. apply andb_prop in Hok as [Hl Hrest].
    unfold line_ok in Hl. unfold moved_line at 1.
    destruct (is_atom_line line); simpl in *.
    + destruct (line_coords line) as [c|] eqn:Hc; [|discriminate].
      rewrite list_lookup_middle by done. simpl. rewrite Hc. simpl.
      rewrite insert_app_r_alt by done. rewrite Nat.sub_diag. simpl.
      specialize (IH (pre ++ [new_line line (fadd c.1.1 trans.1.1)
                                (fadd c.1.2 trans.1.2) (fadd c.2 trans.2)]) Hrest).
      rewrite length_app in IH. simpl in IH. rewrite Nat.add_1_r in IH.
      rewrite <- !app_assoc in IH. exact IH.
    + specialize (IH (pre ++ [line]) Hrest).
      rewrite length_app in IH. simpl in IH. rewrite Nat.add_1_r in IH.
      rewrite <- !app_assoc in IH. exact IH.
Qed.

Lemma float_div_int_raises x n e :
  float_div_int x n = Raise e -> is_Exception e = true.
Proof.
  unfold float_div_int, float_of_int.
  destruct (binary_normalize 53 1024 n 0 false); try (destruct (n =? 0));
    intros [= <-]; reflexivity.
Qed.

Lemma center_raises coords e : center coords = Raise e -> is_Exception e = true.
Proof.
  unfold center.
  destruct (float_div_int (py_sum (map (fun c => c.1.1) coords)) _) eqn:Hx; simpl;
    [|intros [= <-]; eauto using float_div_int_raises].
  destruct (float_div_int (py_sum (map (fun c => c.1.2) coords)) _) eqn:Hy; simpl;
    [|intros [= <-]; eauto using float_div_int_raises].
  destruct (float_div_int (py_sum (map (fun c => c.2) coords)) _) eqn:Hz; simpl;
    [discriminate|intros [= <-]; eauto using float_div_int_raises].
Qed.

Lemma reposition_ligand_outcome inp out tx ty tz w :
  reposition_ligand inp out tx ty tz w = reposition_outcome inp out (tx, ty, tz) w.
Proof.
  unfold reposition_ligand, reposition_outcome, try_except, reposition_body,
    bind, read_text, lift, write_text, ret, report.
  destruct (nodes w !! inp) as [[t| |]|]; try reflexivity.
  destruct (forallb line_ok (readlines t)) eqn:Hok.
  - rewrite scan_atoms_ok by assumption. simpl.
    destruct (atom_coords (readlines t)) as [|c0 cs] eqn:Hcs; [reflexivity|].
    destruct (center (c0 :: cs)) as [c|e] eqn:Hc.
    + pose proof (translate_atoms_ok (fsub tx c.1.1, fsub ty c.1.2, fsub tz c.2)
                    (readlines t) [] Hok) as Ht.
      simpl in Ht. rewrite Ht. unfold moved_text, translation. simpl.
      destruct (disk w out _ (nodes w)); reflexivity.
    + by rewrite (center_raises _ _ Hc).
  - rewrite scan_atoms_bad by assumption. reflexivity.
Qed.

Lemma report_accepted inp e w :
  tty w (stdout w) (msg_reposition_error inp e) = None ->
  report inp e w
  = (Ok false,
     World (nodes w) (calls w) (stdout w ++ [msg_reposition_error inp e]) (tty w) (disk w)).
Proof. intros H. unfold report, bind, print, ret. by rewrite H. Qed.

Lemma report_not_true inp e w : (report inp e w).1 <> Ok true.
Proof.
  unfold report, bind, print, ret.
  by destruct (tty w (stdout w) (msg_reposition_error inp e)).
Qed.

Lemma report_nodes inp e w : nodes (report inp e w).2 = nodes w.
Proof.
  unfold report, bind, print, ret.
  by destruct (tty w (stdout w) (msg_reposition_error inp e)).
Qed.

Lemma report_calls inp e w : calls (report inp e w).2 = calls w.
Proof.
  unfold report, bind, print, ret.
  by destruct (tty w (stdout w) (msg_reposition_error inp e)).
Qed.

(** When [reposition_ligand] returns [True], every step was taken. *)
Lemma reposition_ligand_success inp out tx ty tz w w' :
  reposition_ligand inp out tx ty tz w = (Ok true, w') ->
  exists t c others,
    nodes w !! inp = Some (File t)
    /\ forallb line_ok (readlines t) = true
    /\ atom_coords (readlines t) <> []
    /\ center (atom_coords (readlines t)) = Ok c
    /\ disk w out (moved_text (tx, ty, tz) c (readlines t)) (nodes w) = Written others
    /\ w' = with_nodes (put (out :: others) (moved_text (tx, ty, tz) c (readlines t))
                          (nodes w)) w.
Proof.
  rewrite reposition_ligand_outcome. unfold reposition_outcome.
  assert (forall e w0, report inp e w0 = (Ok true, w') -> False) as Hrep.
  { intros e w0 H. apply (report_not_true inp e w0). by rewrite H. }
  destruct (nodes w !! inp) as [[t| |]|] eqn:Hin;
    try (by intros H; destruct (Hrep _ _ H)).
  destruct (forallb line_ok (readlines t)) eqn:Hok;
    [|by intros H; destruct (Hrep _ _ H)].
  destruct (atom_coords (readlines t)) as [|c0 cs] eqn:Hcs; [discriminate|].
  destruct (center (c0 :: cs)) as [c|] eqn:Hc; [|by intros H; destruct (Hrep _ _ H)].
  destruct (disk w out _ (nodes w)) as [|others|k others] eqn:Hdisk;
    try (by intros H; destruct (Hrep _ _ H)).
  intros [= <-]. exists t, c, others. rewrite Hcs. by repeat split.
Qed.

(** ** Failure without effect *)

(** C9, as stated, fails: the handler prints before it returns; when
    [sys.stdout] does not take the line, the exception of [print] leaves
    [reposition_ligand]. Here the input file is missing and the console
    cannot encode the diagnostic. *)
Lemma reposition_ligand_can_raise :
  (reposition_ligand "in.pdbqt" "out.pdbqt" fzero fzero fzero mute_world).1
  = Raise UnicodeEncodeError.
Proof. reflexivity. Qed.

(** C9 (amended): whenever [sys.stdout] takes the handler's diagnostic,
    [reposition_ligand] returns [True] or [False] and no exception reaches
    the caller, whatever the paths, the file system, the disk and the
    target; and every failure becomes [False]: a missing, unreadable or
    undecodable input, a geometry line with an unreadable field, a
    centroid that cannot be computed, an output that cannot be opened or
    written in full. *)
Theorem reposition_ligand_total inp out tx ty tz w :
  (forall e, tty w (stdout w) (msg_reposition_error inp e) = None) ->
  let r := reposition_ligand inp out tx ty tz w in
  (exists b, r.1 = Ok b)
  /\ ((forall t, nodes w !! inp <> Some (File t)) -> r.1 = Ok false)
  /\ (forall t, nodes w !! inp = Some (File t) ->
        (forallb line_ok (readlines t) = false -> r.1 = Ok false)
        /\ (forall e, forallb line_ok (readlines t) = true ->
              center (atom_coords (readlines t)) = Raise e -> r.1 = Ok false)
        /\ (forall c, forallb line_ok (readlines t) = true ->
              center (atom_coords (readlines t)) = Ok c ->
              (forall others,
                 disk w out (moved_text (tx, ty, tz) c (readlines t)) (nodes w)
                 <> Written others) ->
              r.1 = Ok false)).
Proof.
  intros Htty r. unfold r. rewrite reposition_ligand_outcome. unfold reposition_outcome.
  assert (forall e, (report inp e w).1 = Ok false) as Hrep
      by (intros e; by rewrite report_accepted).
  assert (forall e fs, (report inp e (with_nodes fs w)).1 = Ok false) as Hrep'
      by (intros e fs; by rewrite report_accepted by apply Htty).
  destruct (nodes w !! inp) as [[t| |]|] eqn:Hin.
  2-4: (split; [by exists false; apply Hrep|]; split; [by intros _; apply Hrep|];
        intros t [=]).
  split; [|split; [intros H; by destruct (H t)|]].
  - destruct (forallb line_ok (readlines t)); [|by exists false; apply Hrep].
    destruct (atom_coords (readlines t)); [by exists false|].
    destruct (center _); [|by exists false; apply Hrep].
    destruct (disk w out _ (nodes w)); [by exists false; apply Hrep|by exists true|].
    exists false. apply Hrep'.
  - intros t' [= <-]. split; [|split].
    + intros ->. apply Hrep.
    + intros e -> Hc. destruct (atom_coords (readlines t)); [reflexivity|].
      rewrite Hc. apply Hrep.
    + intros c -> Hc Hdisk. destruct (atom_coords (readlines t)); [reflexivity|].
      rewrite Hc. destruct (disk w out _ (nodes w)) as [|others|k others] eqn:Hd.
      * apply Hrep.
      * by destruct (Hdisk others).
      * apply Hrep'.
Qed.

Lemma reposition_ligand_total_witness :
  let r := reposition_ligand "in.pdbqt" "out.pdbqt" fzero fzero fzero (quiet ∅) in
  (exists b, r.1 = Ok b)
  /\ ((forall t, nodes (quiet ∅) !! "in.pdbqt"%string <> Some (File t)) -> r.1 = Ok false)
  /\ (forall t, nodes (quiet ∅) !! "in.pdbqt"%string = Some (File t) ->
        (forallb line_ok (readlines t) = false -> r.1 = Ok false)
        /\ (forall e, forallb line_ok (readlines t) = true ->
              center (atom_coords (readlines t)) = Raise e -> r.1 = Ok false)
        /\ (forall c, forallb line_ok (readlines t) = true ->
              center (atom_coords (readlines t)) = Ok c ->
              (forall others,
                 disk (quiet ∅) "out.pdbqt" (moved_text (fzero, fzero, fzero) c (readlines t))
                   (nodes (quiet ∅))
                 <> Written others) ->
              r.1 = Ok false)).
Proof.
  apply (reposition_ligand_total "in.pdbqt" "out.pdbqt" fzero fzero fzero (quiet ∅)).
  intros e. reflexivity.
Defined.

(** C5: an input without any HETATM/ATOM line makes [reposition_ligand]
    return [False] with the world unchanged: no translation is computed
    and no output file is written. *)
Theorem empty_structure_fails inp out tx ty tz w t :
  nodes w !! inp = Some (File t) ->
  Forall (fun line => is_atom_line line = false) (readlines t) ->
  reposition_ligand inp out tx ty tz w = (Ok false, w).
Proof.
  intros Hin Hinert.
  rewrite reposition_ligand_outcome. unfold reposition_outcome. rewrite Hin.
  rewrite inert_lines_ok by assumption.
  by rewrite atom_coords_inert.
Qed.

Lemma empty_structure_fails_witness :
  reposition_ligand "in.pdbqt" "out.pdbqt" fzero fzero fzero (world_of inert_text)
  = (Ok false, world_of inert_text).
Proof.
  apply (empty_structure_fails _ _ _ _ _ (world_of inert_text) inert_text).
  - reflexivity.
  - vm_compute. repeat constructor.
Defined.

Lemma py_float_empty : py_float [] = Raise ValueError.
Proof. reflexivity. Qed.

Lemma short_line_no_z line :
  (length line <= 46)%nat -> exists e, line_coords line = Raise e.
Proof.
  intros Hlen. unfold line_coords.
  destruct (py_float (slice 30 38 line)); simpl; [|eauto].
  destruct (py_float (slice 38 46 line)); simpl; [|eauto].
  unfold slice. rewrite drop_ge by lia. rewrite take_nil, py_float_empty. simpl. eauto.
Qed.

Lemma bad_line_not_ok lines line :
  line ∈ lines -> line_ok line = false -> forallb line_ok lines = false.
Proof.
  intros Hin Hbad. destruct (forallb line_ok lines) eqn:Hall; [|done].
  rewrite forallb_forall in Hall.
  rewrite <- Hbad. symmetry. apply Hall. by apply list_elem_of_In.
Qed.

(** C4, as stated, fails: this geometry line has 51 characters (fewer than
    54) and yet the run succeeds and writes the output file; the newline
    that ended the line was read as part of the z field and is gone. *)
Lemma short_line_is_repositioned :
  let r := reposition_ligand "in.pdbqt" "out.pdbqt" fzero fzero fzero (world_of short_text) in
  (exists line, readlines short_text !! 0%nat = Some line
                /\ is_atom_line line = true /\ (length line < 54)%nat)
  /\ r.1 = Ok true
  /\ nodes r.2 !! "out.pdbqt"%string
     = Some (File (atom_prefix ++ lit "   0.000   0.000   0.000END" ++ [nl])).
Proof.
  split; [|split].
  - eexists. split; [reflexivity|]. split; [reflexivity|]. vm_compute. lia.
  - vm_compute. reflexivity.
  - vm_compute. reflexivity.
Qed.

(** C4 (amended): when a geometry-tagged line has at most 46 characters (its
    z field is empty) or one of its three coordinate fields is no float
    literal for [float()], [reposition_ligand] never returns [True] and
    leaves the file system as it was: no output file is written, not even
    partially; it returns [False] whenever [sys.stdout] takes the
    handler's diagnostic. *)
Theorem malformed_record_fails inp out tx ty tz w t line :
  nodes w !! inp = Some (File t) ->
  line ∈ readlines t ->
  is_atom_line line = true ->
  (length line <= 46)%nat \/ (exists e, line_coords line = Raise e) ->
  let r := reposition_ligand inp out tx ty tz w in
  nodes r.2 = nodes w
  /\ r.1 <> Ok true
  /\ (tty w (stdout w) (msg_reposition_error inp ValueError) = None -> r.1 = Ok false).
Proof.
  intros Hin Hline Hatom Hbad.
  assert (exists e, line_coords line = Raise e) as [e He].
  { destruct Hbad as [Hlen|Hraise]; [by apply short_line_no_z|assumption]. }
  cbv zeta. rewrite reposition_ligand_outcome. unfold reposition_outcome. rewrite Hin.
  rewrite (bad_line_not_ok _ line); [|assumption|unfold line_ok; by rewrite Hatom, He].
  split; [apply report_nodes|]. split; [apply report_not_true|].
  intros Htty. by rewrite report_accepted.
Qed.

Lemma malformed_record_fails_witness :
  let r := reposition_ligand "in.pdbqt" "out.pdbqt" fzero fzero fzero (world_of stub_text) in
  nodes r.2 = nodes (world_of stub_text)
  /\ r.1 <> Ok true
  /\ (tty (world_of stub_text) (stdout (world_of stub_text))
        (msg_reposition_error "in.pdbqt" ValueError) = None -> r.1 = Ok false).
Proof.
  apply (malformed_record_fails _ _ _ _ _ (world_of stub_text) stub_text
           (atom_prefix ++ lit "   0.000" ++ lit "  " ++ [nl])).
  - reflexivity.
  - vm_compute. apply list_elem_of_In. right. left. reflexivity.
  - reflexivity.
  - left. vm_compute. lia.
Defined.

(** ** Decimal digits *)

Lemma decimal_fuel_enough f : forall f' n,
  0 <= n < 2 ^ Z.of_nat (S f) -> 0 <= n < 2 ^ Z.of_nat (S f') ->
  decimal_fuel (S f) n = decimal_fuel (S f') n.
Proof.
  induction f as [|f IH]; intros f' n Hf Hf'.
  - simpl in Hf. assert ((n <? 10) = true) as Hlt by lia.
    simpl. by rewrite Hlt.
  - simpl. destruct (n <? 10) eqn:Hlt; [reflexivity|].
    apply Z.ltb_ge in Hlt.
    destruct f' as [|f'].
    { simpl in Hf'. lia. }
    f_equal.
    change (decimal_fuel (S f) (n / 10) = decimal_fuel (S f') (n / 10)).
    rewrite (Nat2Z.inj_succ (S f)), Z.pow_succ_r in Hf by lia.
    rewrite (Nat2Z.inj_succ (S f')), Z.pow_succ_r in Hf' by lia.
    apply IH; (split; [apply Z.div_pos; lia|apply Z.div_lt_upper_bound; lia]).
Qed.

Lemma decimal_eq n :
  0 <= n ->
  decimal n = if n <? 10 then [digit_char n]
              else decimal (n / 10) ++ [digit_char (n mod 10)].
Proof.
  intros Hn. unfold decimal at 1. simpl.
  destruct (n <? 10) eqn:Hlt; [reflexivity|].
  apply Z.ltb_ge in Hlt. f_equal.
  assert (0 < n / 10) as Hq by (apply Z.div_str_pos; lia).
  pose proof (Z.log2_spec n ltac:(lia)) as [Hlo Hhi].
  pose proof (Z.log2_spec (n / 10) ltac:(lia)) as [Hlo' Hhi'].
  pose proof (Z.log2_nonneg (n / 10)) as Hnn.
  assert (3 <= Z.log2 n) as Hl3 by (apply Z.log2_le_pow2; simpl; lia).
  destruct (Z.to_nat (Z.log2 n)) as [|f] eqn:Hf; [lia|].
  unfold decimal. apply decimal_fuel_enough.
  - replace (Z.of_nat (S f)) with (Z.log2 n) by lia.
    split; [lia|]. rewrite Z.pow_succ_r in Hhi by lia.
    apply Z.div_lt_upper_bound; lia.
  - rewrite Nat2Z.inj_succ, Z2Nat.id by lia. lia.
Qed.

Lemma decimal_ind (P : Z -> text -> Prop) :
  (forall n, 0 <= n < 10 -> P n [digit_char n]) ->
  (forall n, 10 <= n -> P (n / 10) (decimal (n / 10)) ->
     P n (decimal (n / 10) ++ [digit_char (n mod 10)])) ->
  forall n, 0 <= n -> P n (decimal n).
Proof.
  intros Hsmall Hbig n Hn. generalize Hn. pattern n.
  apply Z_lt_induction; [|assumption].
  clear n Hn. intros n IH Hn.
  rewrite decimal_eq by assumption.
  destruct (n <? 10) eqn:Hlt.
  - apply Hsmall. lia.
  - apply Z.ltb_ge in Hlt. apply Hbig; [assumption|].
    apply IH; [|apply Z.div_pos; lia].
    split; [apply Z.div_pos; lia|apply Z.div_lt; lia].
Qed.

Ltac digit_cases d :=
  let H := fresh in
  assert (d = 0 \/ d = 1 \/ d = 2 \/ d = 3 \/ d = 4 \/ d = 5 \/ d = 6 \/ d = 7
          \/ d = 8 \/ d = 9) as H by lia;
  repeat (destruct H as [->|H]); [..|subst d].

Lemma digit_char_is_digit d : 0 <= d < 10 -> is_digit (digit_char d) = true.
Proof. intros Hd. digit_cases d; reflexivity. Qed.

Lemma digit_val_char d : 0 <= d < 10 -> digit_val (digit_char d) = d.
Proof. intros Hd. digit_cases d; reflexivity. Qed.

Lemma is_digit_range c :
  is_digit c = true -> (48 <= nat_of_ascii c <= 57)%nat.
Proof.
  unfold is_digit. intros H. apply andb_prop in H as [H1 H2].
  apply Nat.leb_le in H1, H2. lia.
Qed.

Lemma digit_char_val c : is_digit c = true -> digit_char (digit_val c) = c.
Proof.
  intros Hc. apply is_digit_range in Hc. unfold digit_char, digit_val.
  replace (Z.to_nat (48 + (Z.of_nat (nat_of_ascii c) - 48))) with (nat_of_ascii c) by lia.
  apply ascii_nat_embedding.
Qed.

Lemma digit_val_range c : is_digit c = true -> 0 <= digit_val c < 10.
Proof. intros Hc. apply is_digit_range in Hc. unfold digit_val. lia. Qed.

Lemma decimal_digits n : 0 <= n -> forallb is_digit (decimal n) = true.
Proof.
  apply (decimal_ind (fun _ ds => forallb is_digit ds = true)).
  - intros d Hd. simpl. by rewrite digit_char_is_digit.
  - intros m Hm IH. rewrite forallb_app, IH. simpl.
    rewrite digit_char_is_digit; [reflexivity|]. apply Z.mod_pos_bound. lia.
Qed.

Lemma decimal_nonempty n : 0 <= n -> decimal n <> [].
Proof.
  apply (decimal_ind (fun _ ds => ds <> [])).
  - done.
  - intros m _ _. by destruct (decimal (m / 10)).
Qed.

Lemma digits_value_snoc ds c :
  digits_value (ds ++ [c]) = 10 * digits_value ds + digit_val c.
Proof. unfold digits_value. by rewrite fold_left_app. Qed.

Lemma digits_value_decimal n : 0 <= n -> digits_value (decimal n) = n.
Proof.
  apply (decimal_ind (fun n ds => digits_value ds = n)).
  - intros d Hd. unfold digits_value. simpl. rewrite digit_val_char by assumption. lia.
  - intros m Hm IH. rewrite digits_value_snoc, IH.
    rewrite digit_val_char by (apply Z.mod_pos_bound; lia).
    pose proof (Z.div_mod m 10 ltac:(lia)). lia.
Qed.

Lemma div_half_even_nonneg n d : 0 <= n -> 0 < d -> 0 <= div_half_even n d.
Proof.
  intros Hn Hd. unfold div_half_even.
  pose proof (Z.div_pos n d Hn Hd).
  destruct (2 * (n mod d) ?= d); [destruct (Z.even (n / d))| |]; lia.
Qed.

Lemma thousandths_nonneg x : 0 <= thousandths x.
Proof.
  destruct x as [| | |s m e]; simpl; try lia.
  apply div_half_even_nonneg; [|apply Z.pow_pos_nonneg; lia].
  apply Z.mul_nonneg_nonneg; [lia|]. apply Z.pow_nonneg. lia.
Qed.

(** ** Lines *)

Ltac notin_literal :=
  cbn; rewrite ?not_elem_of_cons; repeat split; try discriminate; apply not_elem_of_nil.

Lemma is_digit_not_nl c : is_digit c = true -> c <> nl.
Proof. intros Hc ->. discriminate. Qed.

Lemma digits_no_nl ds : forallb is_digit ds = true -> nl ∉ ds.
Proof.
  intros Hds Hin. rewrite forallb_forall in Hds.
  apply list_elem_of_In in Hin. by apply Hds in Hin.
Qed.

Lemma digit_char_not_nl d : 0 <= d < 10 -> nl <> digit_char d.
Proof.
  intros Hd He. symmetry in He. revert He.
  by apply is_digit_not_nl, digit_char_is_digit.
Qed.

Lemma fixed3_no_nl s k : 0 <= k -> nl ∉ fixed3 s k.
Proof.
  intros Hk. unfold fixed3.
  rewrite !not_elem_of_app. repeat split.
  - destruct s; notin_literal.
  - apply digits_no_nl, decimal_digits. apply Z.div_pos; lia.
  - notin_literal.
  - rewrite !not_elem_of_cons. repeat split;
      try (apply digit_char_not_nl, Z.mod_pos_bound; lia).
    apply not_elem_of_nil.
Qed.

Lemma format_coordinate_no_nl x : nl ∉ format_coordinate x.
Proof.
  unfold format_coordinate, rjust. rewrite not_elem_of_app. split.
  - intros Hin. apply elem_of_replicate in Hin as [Hin _]. discriminate.
  - destruct x as [s|s| |s m e]; unfold format_3f.
    + apply fixed3_no_nl, thousandths_nonneg.
    + rewrite not_elem_of_app. split; [destruct s|]; notin_literal.
    + notin_literal.
    + apply fixed3_no_nl, thousandths_nonneg.
Qed.

Lemma readlines_body body s :
  nl ∉ body -> readlines (body ++ nl :: s) = (body ++ [nl]) :: readlines s.
Proof.
  induction body as [|c body IH]; intros Hnl; simpl.
  - reflexivity.
  - apply not_elem_of_cons in Hnl as [Hc Hbody].
    destruct (Ascii.eqb_spec c nl) as [->|_]; [done|].
    by rewrite IH.
Qed.

Lemma readlines_unterminated body :
  nl ∉ body -> body <> [] -> readlines body = [body].
Proof.
  induction body as [|c body IH]; intros Hnl Hne; [done|]. simpl.
  apply not_elem_of_cons in Hnl as [Hc Hbody].
  destruct (Ascii.eqb_spec c nl) as [->|_]; [done|].
  destruct body as [|c' body']; [reflexivity|].
  by rewrite IH.
Qed.

Lemma is_line_cons b c l : c <> nl -> is_line b l -> is_line b (c :: l).
Proof.
  intros Hc (body & Hnl & -> & Hne). exists (c :: body).
  split; [by apply not_elem_of_cons|]. split; [reflexivity|]. done.
Qed.

Lemma readlines_wf t : lines_wf (readlines t).
Proof.
  induction t as [|c t IH]; simpl; [constructor|].
  destruct (Ascii.eqb_spec c nl) as [->|Hc].
  - apply wf_cons; [|assumption]. exists []. split; [apply not_elem_of_nil|]. done.
  - destruct (readlines t) as [|l ls].
    + apply wf_last. exists [c]. split; [|done].
      apply not_elem_of_cons. split; [done|apply not_elem_of_nil].
    + inversion IH; subst.
      * apply wf_last. by apply is_line_cons.
      * apply wf_cons; [by apply is_line_cons|assumption].
Qed.

Lemma readlines_concat ls : lines_wf ls -> readlines (concat ls) = ls.
Proof.
  induction 1 as [|l (body & Hnl & -> & Hne)|l ls (body & Hnl & -> & _) _ IH]; simpl.
  - reflexivity.
  - rewrite !app_nil_r. apply readlines_unterminated; auto.
  - rewrite <- app_assoc. simpl. by rewrite readlines_body, IH.
Qed.

Lemma concat_readlines t : concat (readlines t) = t.
Proof.
  induction t as [|c t IH]; simpl; [reflexivity|].
  destruct (Ascii.eqb c nl); simpl; [by rewrite IH|].
  destruct (readlines t) as [|l ls]; simpl in *; by rewrite <- IH.
Qed.

(** ** The frame of a successful run *)

Lemma format_coordinate_length_ge x : (8 <= length (format_coordinate x))%nat.
Proof.
  unfold format_coordinate, rjust. rewrite length_app, length_replicate. lia.
Qed.

Lemma py_float_nonempty s x : py_float s = Ok x -> s <> [].
Proof. intros H ->. discriminate. Qed.

Lemma line_coords_long line c : line_coords line = Ok c -> (46 < length line)%nat.
Proof.
  unfold line_coords.
  destruct (py_float (slice 30 38 line)); simpl; [|discriminate].
  destruct (py_float (slice 38 46 line)); simpl; [|discriminate].
  destruct (py_float (slice 46 54 line)) eqn:Hz; simpl; [|discriminate].
  intros _. apply py_float_nonempty in Hz.
  destruct (le_lt_dec (length line) 46) as [Hle|]; [|assumption].
  exfalso. apply Hz. unfold slice. by rewrite drop_ge.
Qed.

Lemma new_line_prefix line x y z :
  (30 <= length line)%nat -> take 30 (new_line line x y z) = take 30 line.
Proof.
  intros Hlen. unfold new_line.
  apply take_app_length'. rewrite length_take. lia.
Qed.

Lemma new_line_suffix line x y z :
  (30 <= length line)%nat ->
  length (format_coordinate x) = 8%nat ->
  length (format_coordinate y) = 8%nat ->
  length (format_coordinate z) = 8%nat ->
  drop 54 (new_line line x y z) = drop 54 line.
Proof.
  intros Hlen Hx Hy Hz. unfold new_line.
  rewrite !app_assoc. apply drop_app_length'.
  rewrite !length_app, length_take, Hx, Hy, Hz. lia.
Qed.

Lemma new_line_is_line b line x y z :
  is_line b line -> nl ∉ take 54 line -> is_line b (new_line line x y z).
Proof.
  intros (body & Hnl & -> & Hne) Hspan.
  assert (forall n, nl ∉ take n body) as Htake.
  { intros n Hin. by apply subseteq_take in Hin. }
  assert (forall n, nl ∉ drop n body) as Hdrop.
  { intros n Hin. by apply subseteq_drop in Hin. }
  pose proof (format_coordinate_no_nl x). pose proof (format_coordinate_no_nl y).
  pose proof (format_coordinate_no_nl z).
  destruct b.
  - assert (54 <= length body)%nat as Hlen.
    { destruct (le_lt_dec 54 (length body)) as [|Hlt]; [assumption|].
      exfalso. apply Hspan. rewrite take_ge by (rewrite length_app; simpl; lia).
      apply elem_of_app. right. by apply list_elem_of_singleton. }
    exists (take 30 body ++ format_coordinate x ++ format_coordinate y
            ++ format_coordinate z ++ drop 54 body).
    split; [|split; [|done]].
    + rewrite !not_elem_of_app. auto.
    + unfold new_line. rewrite take_app_le, drop_app_le by lia.
      by rewrite <- !app_assoc.
  - rewrite app_nil_r in *.
    exists (new_line body x y z). split; [|split].
    + unfold new_line. rewrite !not_elem_of_app. auto.
    + by rewrite app_nil_r.
    + intros _ He. apply (f_equal length) in He. unfold new_line in He.
      rewrite !length_app in He. pose proof (format_coordinate_length_ge x).
      simpl in He. lia.
Qed.

Lemma moved_line_is_line b trans line :
  is_line b line ->
  (is_atom_line line = true -> nl ∉ take 54 line) ->
  is_line b (moved_line trans line).
Proof.
  intros Hline Hspan. unfold moved_line.
  destruct (is_atom_line line); [|assumption].
  destruct (line_coords line); [|assumption].
  apply new_line_is_line; auto.
Qed.

Lemma moved_lines_wf trans ls :
  lines_wf ls ->
  Forall (fun line => is_atom_line line = true -> nl ∉ take 54 line) ls ->
  lines_wf (map (moved_line trans) ls).
Proof.
  induction 1 as [|l Hl|l ls Hl _ IH]; intros Hspan; simpl.
  - constructor.
  - apply wf_last, moved_line_is_line; [assumption|]. by inversion Hspan.
  - inversion Hspan; subst. apply wf_cons; [by apply moved_line_is_line|auto].
Qed.

Lemma put_lookup p others t fs : put (p :: others) t fs !! p = Some (File t).
Proof. unfold put. simpl. apply lookup_insert_eq. Qed.

(** C3 (amended): after a successful run the output file holds the lines
    of the input, as text mode presents them, in their order; a
    non-geometry line is unchanged, character for character; a geometry
    line keeps its characters 0-30 and is rewritten as prefix, three
    formatted coordinates, and the input's characters from 54 on; when each
    formatted coordinate is exactly 8 characters wide its characters
    54-end are the input's, so that only the span 30-54 changes. When the
    terminator of no geometry line lies within its first 54 characters,
    reading the output back yields exactly these lines. *)
Theorem reposition_frame inp out tx ty tz w w' :
  reposition_ligand inp out tx ty tz w = (Ok true, w') ->
  exists t lines',
    nodes w !! inp = Some (File t)
    /\ nodes w' !! out = Some (File (concat lines'))
    /\ length lines' = length (readlines t)
    /\ (forall i line, readlines t !! i = Some line ->
          exists line', lines' !! i = Some line'
            /\ (is_atom_line line = false -> line' = line)
            /\ (is_atom_line line = true ->
                  exists x y z,
                    line' = take 30 line ++ format_coordinate x ++ format_coordinate y
                            ++ format_coordinate z ++ drop 54 line
                    /\ take 30 line' = take 30 line
                    /\ (length (format_coordinate x) = 8%nat ->
                        length (format_coordinate y) = 8%nat ->
                        length (format_coordinate z) = 8%nat ->
                        drop 54 line' = drop 54 line)))
    /\ (Forall (fun line => is_atom_line line = true -> nl ∉ take 54 line) (readlines t) ->
        readlines (concat lines') = lines').
Proof.
  intros Hrun.
  destruct (reposition_ligand_success _ _ _ _ _ _ _ Hrun)
    as (t & c & others & Hin & Hok & _ & _ & _ & ->).
  set (trans := translation (tx, ty, tz) c).
  exists t, (map (moved_line trans) (readlines t)).
  split; [exact Hin|]. split; [apply put_lookup|].
  split; [by rewrite length_map|]. split.
  - intros i line Hi. exists (moved_line trans line).
    split; [by rewrite list_lookup_fmap, Hi|].
    unfold moved_line. split; [by intros ->|]. intros Hatom. rewrite Hatom.
    rewrite forallb_forall in Hok.
    assert (line_ok line = true) as Hl.
    { apply Hok. eapply list_elem_of_In, list_elem_of_lookup_2, Hi. }
    unfold line_ok in Hl. rewrite Hatom in Hl. simpl in Hl.
    destruct (line_coords line) as [cl|] eqn:Hcl; [|discriminate].
    apply line_coords_long in Hcl.
    eexists _, _, _. split; [reflexivity|].
    split; [apply new_line_prefix; lia|].
    apply new_line_suffix. lia.
  - intros Hspan. apply readlines_concat, moved_lines_wf; [apply readlines_wf|assumption].
Qed.

(** C3, as stated, fails: with a target x of 100000 the x fields take 9 and
    10 characters, and what follows byte 54 of the output line is no longer
    what follows byte 54 of the input line. *)
Lemma wide_coordinate_shifts_suffix :
  let r := reposition_ligand "in.pdbqt" "out.pdbqt" (flt "100000") (flt "10") (flt "10")
             (world_of two_atoms_text) in
  r.1 = Ok true
  /\ exists t' line line',
       nodes r.2 !! "out.pdbqt"%string = Some (File t')
       /\ readlines two_atoms_text !! 1%nat = Some line
       /\ readlines t' !! 1%nat = Some line'
       /\ is_atom_line line = true
       /\ drop 54 line' <> drop 54 line.
Proof.
  split; [vm_compute; reflexivity|].
  eexists _, _, _. split; [vm_compute; reflexivity|].
  split; [vm_compute; reflexivity|]. split; [vm_compute; reflexivity|].
  split; [reflexivity|]. vm_compute. discriminate.
Qed.

Lemma reposition_frame_witness :
  let w' := with_nodes (<["out.pdbqt"%string := File two_atoms_moved]>
                          (nodes (world_of two_atoms_text)))
              (world_of two_atoms_text) in
  exists t lines',
    nodes (world_of two_atoms_text) !! "in.pdbqt"%string = Some (File t)
    /\ nodes w' !! "out.pdbqt"%string = Some (File (concat lines'))
    /\ length lines' = length (readlines t)
    /\ (forall i line, readlines t !! i = Some line ->
          exists line', lines' !! i = Some line'
            /\ (is_atom_line line = false -> line' = line)
            /\ (is_atom_line line = true ->
                  exists x y z,
                    line' = take 30 line ++ format_coordinate x ++ format_coordinate y
                            ++ format_coordinate z ++ drop 54 line
                    /\ take 30 line' = take 30 line
                    /\ (length (format_coordinate x) = 8%nat ->
                        length (format_coordinate y) = 8%nat ->
                        length (format_coordinate z) = 8%nat ->
                        drop 54 line' = drop 54 line)))
    /\ (Forall (fun line => is_atom_line line = true -> nl ∉ take 54 line) (readlines t) ->
        readlines (concat lines') = lines').
Proof.
  apply (reposition_frame "in.pdbqt" "out.pdbqt" (flt "10") (flt "10") (flt "10")
           (world_of two_atoms_text)).
  vm_compute. reflexivity.
Defined.

(** The end-to-end scenario: atoms at (0,0,0) and (2,2,2) with target
    (10,10,10) are written at (9,9,9) and (11,11,11). *)
Example reposition_two_atoms :
  reposition_ligand "in.pdbqt" "out.pdbqt" (flt "10") (flt "10") (flt "10")
    (world_of two_atoms_text)
  = (Ok true,
     with_nodes (<["out.pdbqt"%string := File two_atoms_moved]>
                   (nodes (world_of two_atoms_text)))
       (world_of two_atoms_text)).
Proof. vm_compute. reflexivity. Qed.

(** ** Rounding in binary64 *)

Lemma fexp_eq z : fexp 53 1024 z = Z.max (z - 53) (-1074).
Proof. reflexivity. Qed.

Lemma digits2_pos_size p : digits2_pos p = Pos.size p.
Proof. induction p; simpl; congruence. Qed.

Lemma Zdigits2_bounds m : 0 < m -> 2 ^ (Zdigits2 m - 1) <= m < 2 ^ Zdigits2 m.
Proof.
  destruct m as [|p|p]; try lia. intros _. simpl. rewrite digits2_pos_size.
  pose proof (Pos.size_gt p) as Hgt. pose proof (Pos.size_le p) as Hle.
  apply Pos2Z.pos_lt_pos in Hgt. apply Pos2Z.pos_le_pos in Hle.
  rewrite Pos2Z.inj_pow in Hgt, Hle.
  split; [|exact Hgt].
  replace (Z.pos (Pos.size p)) with (Z.succ (Z.pos (Pos.size p) - 1)) in Hle by lia.
  rewrite Z.pow_succ_r in Hle by lia. lia.
Qed.

Lemma Zdigits2_nonneg m : 0 <= Zdigits2 m.
Proof. destruct m; simpl; lia. Qed.

Lemma Zdigits2_le m d : 0 <= m -> 0 <= d -> m < 2 ^ d -> Zdigits2 m <= d.
Proof.
  intros Hm Hd Hlt. destruct (Z.eq_dec m 0) as [->|Hne]; [simpl; lia|].
  pose proof (Zdigits2_bounds m ltac:(lia)) as [Hlo _].
  destruct (Z_le_gt_dec (Zdigits2 m) d) as [|Hgt]; [assumption|].
  exfalso. assert (2 ^ d <= 2 ^ (Zdigits2 m - 1)) by (apply Z.pow_le_mono_r; lia). lia.
Qed.

Lemma Zdigits2_ge m d : 2 ^ (d - 1) <= m -> 1 <= d -> d <= Zdigits2 m.
Proof.
  intros Hlo Hd.
  assert (0 < m) as Hm by (pose proof (Z.pow_pos_nonneg 2 (d - 1)); lia).
  pose proof (Zdigits2_bounds m Hm) as [_ Hhi].
  pose proof (Zdigits2_nonneg m).
  destruct (Z_le_gt_dec d (Zdigits2 m)) as [|Hgt]; [assumption|].
  exfalso. assert (2 ^ Zdigits2 m <= 2 ^ (d - 1)) by (apply Z.pow_le_mono_r; lia). lia.
Qed.

Ltac pow2_side :=
  first [ lia
        | apply Z.pow_pos_nonneg; lia
        | apply Z.pow_nonzero; lia
        | apply Z.pow_nonneg; lia ].

Lemma shr_1_m r : 0 <= shr_m r -> shr_m (shr_1 r) = shr_m r / 2.
Proof.
  destruct r as [m rb sb]. simpl. intros Hm.
  rewrite <- Z.div2_div.
  destruct m as [|[p|p|]|p]; try reflexivity; lia.
Qed.

Lemma iter_shr_1_m p : forall r,
  0 <= shr_m r -> shr_m (SpecFloat.iter_pos shr_1 p r) = shr_m r / 2 ^ Z.pos p.
Proof.
  assert (forall r, 0 <= shr_m r -> 0 <= shr_m r / 2) as Hhalf.
  { intros r Hr. apply Z.div_pos; lia. }
  induction p as [p IH|p IH|]; intros r Hr; simpl.
  - assert (0 <= shr_m (shr_1 r)) as H1 by (rewrite shr_1_m; auto).
    assert (0 <= shr_m (SpecFloat.iter_pos shr_1 p (shr_1 r))) as H2.
    { rewrite IH by assumption. apply Z.div_pos; [assumption|]. apply Z.pow_pos_nonneg; lia. }
    rewrite IH, IH, shr_1_m by assumption.
    rewrite !Z.div_div by pow2_side.
    f_equal.
    replace (Z.pos p~1) with (Z.succ (Z.pos p + Z.pos p)) by lia.
    rewrite Z.pow_succ_r, Z.pow_add_r by lia. lia.
  - assert (0 <= shr_m (SpecFloat.iter_pos shr_1 p r)) as H2.
    { rewrite IH by assumption. apply Z.div_pos; [assumption|]. apply Z.pow_pos_nonneg; lia. }
    rewrite IH, IH by assumption.
    rewrite !Z.div_div by pow2_side.
    f_equal.
    replace (Z.pos p~0) with (Z.pos p + Z.pos p) by lia.
    by rewrite Z.pow_add_r by lia.
  - by apply shr_1_m.
Qed.

Lemma shr_record_of_loc_m m l : shr_m (shr_record_of_loc m l) = m.
Proof. by destruct l as [|[| |]]. Qed.

(** The first component of [shr_fexp]: the mantissa divided down to the
    exponent the format allows. *)
Lemma shr_fexp_crude m e l :
  0 <= m ->
  let e1 := Z.max e (fexp 53 1024 (Zdigits2 m + e)) in
  (shr_fexp 53 1024 m e l).2 = e1
  /\ shr_m (shr_fexp 53 1024 m e l).1 = m / 2 ^ (e1 - e).
Proof.
  intros Hm e1. unfold shr_fexp, shr.
  destruct (fexp 53 1024 (Zdigits2 m + e) - e) as [|p|p] eqn:Hn; simpl.
  - assert (e1 = e) as -> by lia. rewrite Z.sub_diag, Z.div_1_r.
    split; [reflexivity|apply shr_record_of_loc_m].
  - assert (e1 = e + Z.pos p) as -> by lia. split; [reflexivity|].
    rewrite iter_shr_1_m by (rewrite shr_record_of_loc_m; assumption).
    rewrite shr_record_of_loc_m. f_equal. f_equal. lia.
  - assert (e1 = e) as -> by lia. rewrite Z.sub_diag, Z.div_1_r.
    split; [reflexivity|apply shr_record_of_loc_m].
Qed.

Lemma round_nearest_even_range m l :
  m <= round_nearest_even m l <= m + 1.
Proof.
  destruct l as [|[| |]]; simpl; try lia. destruct (Z.even m); lia.
Qed.

Lemma Zdigits2_lt_pow m : 0 <= m -> m < 2 ^ Zdigits2 m.
Proof.
  intros Hm. destruct (Z.eq_dec m 0) as [->|Hne]; [simpl; lia|].
  apply Zdigits2_bounds. lia.
Qed.

Lemma Zdigits2_div_pow m n :
  0 <= m -> 0 <= n -> Zdigits2 (m / 2 ^ n) <= Z.max 0 (Zdigits2 m - n).
Proof.
  intros Hm Hn.
  assert (0 < 2 ^ n) as Hp by pow2_side.
  assert (0 <= m / 2 ^ n) as Hq by (apply Z.div_pos; lia).
  destruct (Z.eq_dec (m / 2 ^ n) 0) as [->|Hne]; [simpl; lia|].
  assert (2 ^ n <= m) as Hge.
  { destruct (Z_lt_le_dec m (2 ^ n)) as [Hlt|]; [|assumption].
    rewrite Z.div_small in Hne by lia. lia. }
  pose proof (Zdigits2_lt_pow m Hm) as Hhi.
  pose proof (Zdigits2_nonneg m) as Hd.
  assert (n < Zdigits2 m) as Hnd.
  { destruct (Z_lt_le_dec n (Zdigits2 m)) as [|Hle]; [assumption|].
    assert (2 ^ Zdigits2 m <= 2 ^ n) by (apply Z.pow_le_mono_r; lia). lia. }
  rewrite Z.max_r by lia.
  apply Zdigits2_le; [assumption|lia|].
  apply Z.div_lt_upper_bound; [assumption|].
  rewrite <- Z.pow_add_r by lia. by replace (n + (Zdigits2 m - n)) with (Zdigits2 m) by lia.
Qed.

(** [binary_round_aux], up to three units of the exponent it rounds at. *)
Lemma binary_round_aux_crude sx m e l :
  0 <= m ->
  let e1 := Z.max e (fexp 53 1024 (Zdigits2 m + e)) in
  exists m3 e3,
    0 <= m3 /\ e1 <= e3 <= e1 + 1
    /\ m - 3 * 2 ^ (e1 - e) < m3 * 2 ^ (e3 - e) <= m + 2 ^ (e1 - e)
    /\ binary_round_aux 53 1024 sx m e l
       = match m3 with
         | Z0 => S754_zero sx
         | Zpos p => if e3 <=? 971 then S754_finite sx p e3 else S754_infinity sx
         | Zneg _ => S754_nan
         end.
Proof.
  intros Hm e1.
  destruct (shr_fexp_crude m e l Hm) as [He1 Hm1]. fold e1 in He1, Hm1.
  assert (e1 = Z.max e (Z.max (Zdigits2 m + e - 53) (-1074))) as He1def by reflexivity.
  clearbody e1.
  unfold binary_round_aux.
  destruct (shr_fexp 53 1024 m e l) as [r1 e1'] eqn:Hs1. simpl in He1, Hm1. subst e1'.
  set (m1 := shr_m r1) in *.
  set (m2 := round_nearest_even m1 (loc_of_shr_record r1)).
  pose proof (round_nearest_even_range m1 (loc_of_shr_record r1)) as Hm2. fold m2 in Hm2.
  assert (0 <= e1 - e) as Hn by lia.
  assert (0 < 2 ^ (e1 - e)) as Hp by pow2_side.
  assert (0 <= m1) as Hm1pos by (rewrite Hm1; apply Z.div_pos; lia).
  assert (0 <= m2) as Hm2pos by lia.
  destruct (shr_fexp_crude m2 e1 loc_Exact Hm2pos) as [He3 Hm3].
  destruct (shr_fexp 53 1024 m2 e1 loc_Exact) as [r3 e3] eqn:Hs3. simpl in He3, Hm3.
  rewrite <- He3 in Hm3.
  exists (shr_m r3), e3.
  (* the second shift is by at most one *)
  assert (fexp 53 1024 (Zdigits2 m1 + e1) <= e1) as Hcanon.
  { pose proof (Zdigits2_div_pow m (e1 - e) Hm Hn) as Hd. rewrite <- Hm1 in Hd.
    pose proof (Zdigits2_nonneg m). rewrite fexp_eq. lia. }
  assert (Zdigits2 m2 <= Zdigits2 m1 + 1) as Hd2.
  { pose proof (Zdigits2_lt_pow m1 Hm1pos). pose proof (Zdigits2_nonneg m1).
    apply Zdigits2_le; [lia|lia|]. rewrite Z.pow_add_r by lia. simpl. lia. }
  assert (e1 <= e3 <= e1 + 1) as He3r.
  { rewrite fexp_eq in He3, Hcanon. lia. }
  assert (0 < 2 ^ (e3 - e1)) as Hp2 by pow2_side.
  assert (2 ^ (e3 - e1) <= 2) as Hp2le.
  { assert (e3 - e1 = 0 \/ e3 - e1 = 1) as [->| ->] by lia; simpl; lia. }
  assert (2 ^ (e3 - e) = 2 ^ (e3 - e1) * 2 ^ (e1 - e)) as Hsplit.
  { rewrite <- Z.pow_add_r by lia. f_equal. lia. }
  pose proof (Z.div_mod m (2 ^ (e1 - e)) ltac:(lia)) as Hdm1.
  pose proof (Z.mod_pos_bound m (2 ^ (e1 - e)) Hp) as Hr1.
  pose proof (Z.div_mod m2 (2 ^ (e3 - e1)) ltac:(lia)) as Hdm3.
  pose proof (Z.mod_pos_bound m2 (2 ^ (e3 - e1)) Hp2) as Hr3.
  rewrite <- Hm1 in Hdm1. rewrite <- Hm3 in Hdm3.
  split; [rewrite Hm3; apply Z.div_pos; lia|]. split; [exact He3r|].
  split; [|reflexivity].
  rewrite Hsplit. set (P := 2 ^ (e1 - e)) in *. set (Q := 2 ^ (e3 - e1)) in *.
  set (m3 := shr_m r3) in *. nia.
Qed.

Lemma SFdiv_core_quotient m1 e1 m2 e2 :
  0 < m1 -> 0 < m2 ->
  let e' := Z.min (fexp 53 1024 (Zdigits2 m1 + e1 - (Zdigits2 m2 + e2))) (e1 - e2) in
  exists l,
    SFdiv_core_binary 53 1024 m1 e1 m2 e2 = (m1 * 2 ^ (e1 - e2 - e') / m2, e', l).
Proof.
  intros H1 H2 e'. unfold SFdiv_core_binary. fold e'.
  assert (0 <= e1 - e2 - e') as Hs by (unfold e'; lia).
  set (m' := match e1 - e2 - e' with
             | 0 => m1
             | Z.pos _ => Z.shiftl m1 (e1 - e2 - e')
             | Z.neg _ => 0
             end).
  assert (m' = m1 * 2 ^ (e1 - e2 - e')) as ->.
  { unfold m'. destruct (e1 - e2 - e') as [|s|s] eqn:Es.
    - simpl. lia.
    - by rewrite Z.shiftl_mul_pow2.
    - lia. }
  unfold Z.div.
  destruct (Z.div_eucl (m1 * 2 ^ (e1 - e2 - e')) m2) as [q r]. simpl. eauto.
Qed.

(** A decimal with three fractional digits below 2^24 thousandths reads as
    a float within [7000 * 2^-39] thousandths of it. *)
Lemma decimal3_float neg p :
  Z.pos p < 2 ^ 24 ->
  exists m e,
    float_of_decimal neg (Z.pos p) (-3) = S754_finite neg m e
    /\ e < 0
    /\ 2 ^ 39 * Z.abs (1000 * Z.pos m - Z.pos p * 2 ^ (- e)) <= 7000 * 2 ^ (- e).
Proof.
  intros Hp. unfold float_of_decimal.
  change (Z.to_pos (10 ^ Z.max (-3) 0)) with 1%positive.
  change (Z.to_pos (10 ^ Z.max (- -3) 0)) with 1000%positive.
  rewrite Pos.mul_1_r. unfold fdiv, SFdiv.
  pose proof (Zdigits2_bounds (Z.pos p) ltac:(lia)) as [Hlo Hhi].
  set (d1 := Zdigits2 (Z.pos p)) in *.
  assert (1 <= d1 <= 24) as Hd1.
  { split; [unfold d1; simpl; lia|]. apply Zdigits2_le; lia. }
  destruct (SFdiv_core_quotient (Z.pos p) 0 1000 0 ltac:(lia) ltac:(lia)) as [l Hcore].
  fold d1 in Hcore. change (Zdigits2 1000) with 10 in Hcore.
  rewrite fexp_eq in Hcore.
  replace (Z.min (Z.max (d1 + 0 - (10 + 0) - 53) (-1074)) (0 - 0)) with (d1 - 63) in Hcore by lia.
  replace (0 - 0 - (d1 - 63)) with (63 - d1) in Hcore by lia.
  rewrite Hcore. clear Hcore.
  set (s := 63 - d1) in *.
  set (q := Z.pos p * 2 ^ s / 1000).
  assert (2 ^ 62 <= Z.pos p * 2 ^ s < 2 ^ 63) as Hps.
  { replace 62 with ((d1 - 1) + s) by lia. replace 63 with (d1 + s) by lia.
    rewrite !Z.pow_add_r by lia.
    assert (0 < 2 ^ s) by pow2_side.
    split; [apply Z.mul_le_mono_nonneg_r; lia|apply Z.mul_lt_mono_pos_r; lia]. }
  pose proof (Z.div_mod (Z.pos p * 2 ^ s) 1000 ltac:(lia)) as Hdm.
  pose proof (Z.mod_pos_bound (Z.pos p * 2 ^ s) 1000 ltac:(lia)) as Hr.
  fold q in Hdm.
  assert (2 ^ 52 <= q < 2 ^ 54) as Hq.
  { change (2 ^ 62) with (1024 * 2 ^ 52) in Hps. change (2 ^ 63) with (512 * 2 ^ 54) in Hps.
    lia. }
  assert (53 <= Zdigits2 q <= 54) as Hdq.
  { split; [apply Zdigits2_ge; [exact (proj1 Hq)|lia]|apply Zdigits2_le; lia]. }
  destruct (binary_round_aux_crude (xorb neg false) q (d1 - 63) l ltac:(lia))
    as (m3 & e3 & Hm3 & He3 & Hnear & ->).
  rewrite fexp_eq in He3, Hnear.
  set (e1r := Z.max (d1 - 63) (Z.max (Zdigits2 q + (d1 - 63) - 53) (-1074))) in *.
  assert (0 <= e1r - (d1 - 63) <= 1) as He1r by (unfold e1r; lia).
  assert (2 ^ (e1r - (d1 - 63)) <= 2) as Hc1.
  { assert (e1r - (d1 - 63) = 0 \/ e1r - (d1 - 63) = 1) as [->| ->] by lia; simpl; lia. }
  assert (0 < 2 ^ (e3 - (d1 - 63))) as Hc by pow2_side.
  assert (2 ^ s = 2 ^ (e3 - (d1 - 63)) * 2 ^ (- e3)) as Hsplit.
  { rewrite <- Z.pow_add_r by lia. f_equal. lia. }
  assert (2 ^ 39 <= 2 ^ s) as Hs39 by (apply Z.pow_le_mono_r; lia).
  assert (0 < 2 ^ (- e3)) as HD by pow2_side.
  destruct m3 as [|m|m]; [exfalso; rewrite Z.mul_0_l in Hnear; lia| |lia].
  replace (e3 <=? 971) with true by (symmetry; apply Z.leb_le; lia).
  rewrite xorb_false_r.
  exists m, e3. split; [reflexivity|]. split; [lia|].
  set (c := 2 ^ (e3 - (d1 - 63))) in *. set (D := 2 ^ (- e3)) in *.
  set (A := 1000 * Z.pos m - Z.pos p * D).
  assert (c * A = 1000 * (Z.pos m * c - q) - (Z.pos p * 2 ^ s) mod 1000) as HcA.
  { unfold A. rewrite Hsplit in Hdm.
    replace (c * (1000 * Z.pos m - Z.pos p * D))
      with (1000 * (Z.pos m * c) - Z.pos p * (c * D)) by ring.
    rewrite Hsplit. lia. }
  assert (c * Z.abs A <= 7000) as Hcore.
  { rewrite <- (Z.abs_eq c) at 1 by lia. rewrite <- Z.abs_mul, HcA.
    apply Z.abs_le. lia. }
  assert (2 ^ 39 * Z.abs A <= (c * D) * Z.abs A) as H1.
  { apply Z.mul_le_mono_nonneg_r; [apply Z.abs_nonneg|]. by rewrite <- Hsplit. }
  assert ((c * D) * Z.abs A = D * (c * Z.abs A)) as H2 by ring.
  assert (D * (c * Z.abs A) <= D * 7000) as H3
      by (apply Z.mul_le_mono_nonneg_l; lia).
  lia.
Qed.

(** ** Rendering and reading fixed-point fields *)

Lemma div_half_even_near n d k :
  0 < d -> 2 * Z.abs (n - k * d) < d -> div_half_even n d = k.
Proof.
  intros Hd Hnear. unfold div_half_even.
  destruct (Z_le_gt_dec (k * d) n) as [Hle|Hgt].
  - assert (n / d = k) as Hq by (symmetry; apply Z.div_unique with (n - k * d); lia).
    assert (n mod d = n - k * d) as Hr by (symmetry; apply Z.mod_unique with k; lia).
    rewrite Hq, Hr.
    destruct (Z.compare_spec (2 * (n - k * d)) d); [lia|reflexivity|lia].
  - assert (n / d = k - 1) as Hq
        by (symmetry; apply Z.div_unique with (n - (k - 1) * d); lia).
    assert (n mod d = n - (k - 1) * d) as Hr
        by (symmetry; apply Z.mod_unique with (k - 1); lia).
    rewrite Hq, Hr.
    destruct (Z.compare_spec (2 * (n - (k - 1) * d)) d); lia.
Qed.

Lemma thousandths_near s m e k :
  e < 0 ->
  2 ^ 39 * Z.abs (1000 * Z.pos m - k * 2 ^ (- e)) <= 7000 * 2 ^ (- e) ->
  thousandths (S754_finite s m e) = k.
Proof.
  intros He Hnear. unfold thousandths.
  rewrite Z.max_r, Z.max_l by lia. rewrite Z.pow_0_r, Z.mul_1_r.
  apply div_half_even_near; [pow2_side|].
  assert (0 < 2 ^ (- e)) by pow2_side.
  change (2 ^ 39) with 549755813888 in Hnear.
  replace (Z.pos m * 1000 - k * 2 ^ (- e)) with (1000 * Z.pos m - k * 2 ^ (- e)) by lia.
  lia.
Qed.

(** Reading [k] thousandths and rendering the float gives [k] thousandths
    back, with the sign. *)
Lemma format_decimal3 neg k :
  0 <= k < 2 ^ 24 ->
  format_3f (float_of_decimal neg k (-3)) = fixed3 neg k.
Proof.
  intros Hk. destruct k as [|p|p]; [reflexivity| |lia].
  destruct (decimal3_float neg p ltac:(lia)) as (m & e & -> & He & Hnear).
  unfold format_3f. simpl sign_bit.
  by rewrite (thousandths_near neg m e (Z.pos p)).
Qed.

Lemma digits_value_range ds :
  forallb is_digit ds = true -> 0 <= digits_value ds < 10 ^ Z.of_nat (length ds).
Proof.
  induction ds as [|c ds IH] using rev_ind; intros Hds.
  - simpl. unfold digits_value. simpl. lia.
  - rewrite forallb_app in Hds. apply andb_prop in Hds as [Hds Hc].
    simpl in Hc. rewrite andb_true_r in Hc.
    rewrite digits_value_snoc, length_app. simpl length.
    rewrite Nat2Z.inj_add, Z.pow_add_r by lia. change (10 ^ Z.of_nat 1) with 10.
    pose proof (digit_val_range c Hc). specialize (IH Hds). lia.
Qed.

Lemma fold_digits_ge ds : forall acc,
  forallb is_digit ds = true -> 1 <= acc ->
  1 <= fold_left (fun a c => 10 * a + digit_val c) ds acc.
Proof.
  induction ds as [|d ds IH]; intros acc Hds Hacc; simpl; [lia|].
  simpl in Hds. apply andb_prop in Hds as [Hd Hds].
  apply IH; [assumption|]. pose proof (digit_val_range d Hd). lia.
Qed.

Lemma is_plain_int_snoc ds c :
  ds <> [] -> is_plain_int (ds ++ [c]) = true ->
  is_plain_int ds = true /\ is_digit c = true /\ 1 <= digits_value ds.
Proof.
  intros Hne Hplain. destruct ds as [|c0 ds]; [done|].
  unfold is_plain_int in *. simpl app in Hplain.
  apply andb_prop in Hplain as [Hdig Hhead].
  change (c0 :: ds ++ [c]) with ((c0 :: ds) ++ [c]) in Hdig.
  rewrite forallb_app in Hdig. apply andb_prop in Hdig as [Hdig Hc].
  simpl in Hc. rewrite andb_true_r in Hc.
  assert (Ascii.eqb c0 "0" = false) as Hc0.
  { destruct (Ascii.eqb c0 "0"); [|reflexivity]. simpl in Hhead.
    apply bool_decide_eq_true in Hhead. by destruct ds. }
  rewrite Hdig, Hc0. repeat split; [done|].
  clear Hhead Hc Hne.
  assert (1 <= digit_val c0) as H0.
  { simpl in Hdig. apply andb_prop in Hdig as [Hd0 _].
    pose proof (digit_val_range c0 Hd0).
    destruct (Z.eq_dec (digit_val c0) 0) as [E|]; [|lia].
    apply (f_equal digit_char) in E. rewrite digit_char_val in E by assumption.
    subst c0. discriminate. }
  simpl in Hdig. apply andb_prop in Hdig as [_ Hds].
  unfold digits_value. simpl fold_left.
  apply fold_digits_ge; [assumption|lia].
Qed.

Lemma decimal_digits_value ds :
  is_plain_int ds = true -> decimal (digits_value ds) = ds.
Proof.
  induction ds as [|c ds IH] using rev_ind; [discriminate|]. intros Hplain.
  destruct ds as [|c0 ds'].
  - simpl in *. unfold is_plain_int in Hplain. simpl in Hplain.
    rewrite andb_true_r in Hplain. apply andb_prop in Hplain as [Hc _].
    unfold digits_value. simpl. pose proof (digit_val_range c Hc).
    rewrite decimal_eq by lia.
    replace (10 * 0 + digit_val c <? 10) with true by (symmetry; apply Z.ltb_lt; lia).
    by rewrite Z.add_0_l, digit_char_val.
  - apply is_plain_int_snoc in Hplain as (Hds & Hc & Hge); [|done].
    rewrite digits_value_snoc. pose proof (digit_val_range c Hc) as Hv.
    rewrite decimal_eq by lia.
    replace (10 * digits_value (c0 :: ds') + digit_val c <? 10) with false
      by (symmetry; apply Z.ltb_ge; lia).
    replace ((10 * digits_value (c0 :: ds') + digit_val c) / 10)
      with (digits_value (c0 :: ds'))
      by (apply Z.div_unique with (digit_val c); lia).
    replace ((10 * digits_value (c0 :: ds') + digit_val c) mod 10) with (digit_val c)
      by (apply Z.mod_unique with (digits_value (c0 :: ds')); lia).
    by rewrite IH, digit_char_val.
Qed.

Lemma digit_char_zero d : 0 <= d < 10 -> digit_char d = "0"%char -> d = 0.
Proof.
  intros Hd He. apply (f_equal digit_val) in He.
  by rewrite digit_val_char in He.
Qed.

Lemma decimal_plain_head n :
  0 <= n ->
  is_plain_int (decimal n) = true
  /\ (1 <= n -> exists c r, decimal n = c :: r /\ c <> "0"%char).
Proof.
  apply (decimal_ind (fun n ds => is_plain_int ds = true
                                  /\ (1 <= n -> exists c r, ds = c :: r /\ c <> "0"%char))).
  - intros d Hd. unfold is_plain_int. simpl.
    rewrite digit_char_is_digit by assumption. simpl.
    split; [by rewrite orb_true_r|].
    intros Hd1. eexists _, _. split; [reflexivity|].
    intros He. apply digit_char_zero in He; lia.
  - intros m Hm [_ Hhead].
    assert (1 <= m / 10) as Hq.
    { assert (10 / 10 <= m / 10) by (apply Z.div_le_mono; lia).
      by change (10 / 10) with 1 in *. }
    destruct (Hhead Hq) as (c & r & Hcr & Hc0).
    pose proof (decimal_digits (m / 10) ltac:(lia)) as Hdig.
    rewrite Hcr in *. simpl app. split; [|eauto].
    unfold is_plain_int.
    change (c :: r ++ [digit_char (m mod 10)]) with ((c :: r) ++ [digit_char (m mod 10)]).
    rewrite forallb_app, Hdig. simpl.
    rewrite digit_char_is_digit by (apply Z.mod_pos_bound; lia). simpl.
    destruct (Ascii.eqb_spec c "0"); [done|reflexivity].
Qed.

Lemma decimal_plain n : 0 <= n -> is_plain_int (decimal n) = true.
Proof. intros Hn. by apply decimal_plain_head. Qed.

Lemma decimal_length n k :
  0 <= n < 10 ^ Z.of_nat k -> (1 <= k)%nat -> (length (decimal n) <= k)%nat.
Proof.
  intros [Hn Hlt]. revert k Hlt. pattern n, (decimal n).
  apply decimal_ind; [| |assumption].
  - intros d Hd k _ Hk. simpl. lia.
  - intros m Hm IH k Hlt Hk. rewrite length_app. simpl.
    destruct k as [|[|k]]; [lia| simpl in Hlt; lia |].
    assert (length (decimal (m / 10)) <= S k)%nat; [|lia].
    apply IH; [|lia].
    rewrite (Nat2Z.inj_succ (S k)), Z.pow_succ_r in Hlt by lia.
    apply Z.div_lt_upper_bound; lia.
Qed.

Lemma take_digits_app ds c r :
  forallb is_digit ds = true -> is_digit c = false ->
  take_digits (ds ++ c :: r) = ds.
Proof.
  induction ds as [|d ds IH]; simpl; intros Hds Hc.
  - by rewrite Hc.
  - apply andb_prop in Hds as [Hd Hds]. by rewrite Hd, IH.
Qed.

Lemma drop_digits_app ds c r :
  forallb is_digit ds = true -> is_digit c = false ->
  drop_digits (ds ++ c :: r) = c :: r.
Proof.
  induction ds as [|d ds IH]; simpl; intros Hds Hc.
  - by rewrite Hc.
  - apply andb_prop in Hds as [Hd Hds]. by rewrite Hd, IH.
Qed.

Lemma take_digits_all ds : forallb is_digit ds = true -> take_digits ds = ds.
Proof.
  induction ds as [|d ds IH]; simpl; [done|]. intros Hds.
  apply andb_prop in Hds as [Hd Hds]. by rewrite Hd, IH.
Qed.

Lemma drop_digits_all ds : forallb is_digit ds = true -> drop_digits ds = [].
Proof.
  induction ds as [|d ds IH]; simpl; [done|]. intros Hds.
  apply andb_prop in Hds as [Hd Hds]. by rewrite Hd, IH.
Qed.

Lemma take_drop_digits s : take_digits s ++ drop_digits s = s.
Proof.
  induction s as [|c s IH]; simpl; [done|].
  destruct (is_digit c); simpl; [by rewrite IH|done].
Qed.

Lemma take_digits_digits s : forallb is_digit (take_digits s) = true.
Proof.
  induction s as [|c s IH]; simpl; [done|].
  destruct (is_digit c) eqn:Hc; simpl; [by rewrite Hc|done].
Qed.

Lemma drop_spaces_split s :
  exists n, s = replicate n " "%char ++ drop_spaces s.
Proof.
  induction s as [|c s [n IH]]; simpl.
  - by exists 0%nat.
  - destruct (Ascii.eqb_spec c " ") as [->|_].
    + exists (S n). simpl. by rewrite <- IH.
    + by exists 0%nat.
Qed.

Lemma drop_spaces_replicate n s : drop_spaces (replicate n " "%char ++ s) = drop_spaces s.
Proof. induction n; simpl; auto. Qed.

Lemma lstrip_replicate n s : lstrip (replicate n " "%char ++ s) = lstrip s.
Proof. induction n; simpl; auto. Qed.

Lemma is_fixed3_inv body :
  is_fixed3 body = true ->
  exists neg ip a b c,
    body = field_body neg ip a b c
    /\ is_plain_int ip = true
    /\ is_digit a = true /\ is_digit b = true /\ is_digit c = true.
Proof.
  unfold is_fixed3. intros H.
  set (r := match body with
            | c :: r' => if Ascii.eqb c "-" then r' else body
            | [] => []
            end) in *.
  assert (exists neg, body = sign_text neg ++ r) as [neg Hbody].
  { unfold r. destruct body as [|c0 r']; [by exists false|].
    destruct (Ascii.eqb_spec c0 "-") as [->|_]; [by exists true|by exists false]. }
  destruct (drop_digits r) as [|dot [|a [|b [|c [|]]]]] eqn:Hdrop; try discriminate.
  repeat (apply andb_prop in H as [H ?]).
  apply Ascii.eqb_eq in H. subst dot.
  exists neg, (take_digits r), a, b, c. repeat split; try assumption.
  unfold field_body. rewrite Hbody. f_equal.
  by rewrite <- Hdrop, take_drop_digits.
Qed.

Lemma plain_int_head ip :
  is_plain_int ip = true ->
  exists c0 r, ip = c0 :: r /\ is_digit c0 = true /\ forallb is_digit ip = true.
Proof.
  destruct ip as [|c0 r]; [discriminate|]. unfold is_plain_int.
  intros H. apply andb_prop in H as [Hdig _].
  exists c0, r. split; [done|]. split; [|done].
  simpl in Hdig. by apply andb_prop in Hdig as [? _].
Qed.

Lemma is_fixed3_intro neg ip a b c :
  is_plain_int ip = true ->
  is_digit a = true -> is_digit b = true -> is_digit c = true ->
  is_fixed3 (field_body neg ip a b c) = true.
Proof.
  intros Hip Ha Hb Hc.
  destruct (plain_int_head ip Hip) as (c0 & r & -> & Hc0 & Hdig).
  unfold is_fixed3, field_body.
  assert (match sign_text neg ++ (c0 :: r) ++ "."%char :: [a; b; c] with
          | c1 :: r' => if Ascii.eqb c1 "-" then r'
                        else sign_text neg ++ (c0 :: r) ++ "."%char :: [a; b; c]
          | [] => []
          end = (c0 :: r) ++ "."%char :: [a; b; c]) as ->.
  { destruct neg; simpl; [reflexivity|].
    destruct (Ascii.eqb_spec c0 "-") as [->|_]; [discriminate|reflexivity]. }
  rewrite drop_digits_app, take_digits_app by done.
  by rewrite Ha, Hb, Hc, Hip.
Qed.

Lemma is_digit_not_space c : is_digit c = true -> is_space c = false.
Proof.
  intros Hc. apply is_digit_range in Hc. unfold is_space.
  apply orb_false_intro; [apply andb_false_intro2, Nat.leb_gt|apply Nat.eqb_neq]; lia.
Qed.

Lemma is_digit_not_underscore c : is_digit c = true -> Ascii.eqb c "_" = false.
Proof.
  intros Hc. destruct (Ascii.eqb_spec c "_") as [->|]; [discriminate|reflexivity].
Qed.

Lemma lstrip_head c r : is_space c = false -> lstrip (c :: r) = c :: r.
Proof. intros Hc. simpl. by rewrite Hc. Qed.

Lemma field_body_head neg ip a b c :
  is_plain_int ip = true ->
  exists h r, field_body neg ip a b c = h :: r /\ is_space h = false.
Proof.
  intros Hip. destruct (plain_int_head ip Hip) as (c0 & r & -> & Hc0 & _).
  unfold field_body. destruct neg; simpl; eexists _, _; split; try reflexivity.
  by apply is_digit_not_space.
Qed.

Lemma strip_field n neg ip a b c :
  is_plain_int ip = true -> is_digit c = true ->
  strip (replicate n " "%char ++ field_body neg ip a b c) = field_body neg ip a b c.
Proof.
  intros Hip Hc. unfold strip. rewrite lstrip_replicate.
  destruct (field_body_head neg ip a b c Hip) as (h & r & Hbody & Hh).
  rewrite Hbody, lstrip_head by assumption. rewrite <- Hbody.
  assert (field_body neg ip a b c = (sign_text neg ++ ip ++ "."%char :: [a; b]) ++ [c]) as Hsnoc.
  { unfold field_body. by rewrite <- !app_assoc. }
  rewrite Hsnoc at 1. rewrite rev_app_distr. simpl rev at 1. simpl app at 1.
  rewrite (is_digit_not_space c Hc).
  change (rev (c :: rev (sign_text neg ++ ip ++ "."%char :: [a; b])))
    with (rev (rev (sign_text neg ++ ip ++ "."%char :: [a; b])) ++ [c]).
  by rewrite rev_involutive, <- Hsnoc.
Qed.

Lemma drop_underscores_id s : forall prev,
  Ascii.eqb prev "_" = false ->
  forallb (fun c => negb (Ascii.eqb c "_")) s = true ->
  drop_underscores prev s = Some s.
Proof.
  induction s as [|c s IH]; intros prev Hprev Hs; simpl.
  - by rewrite Hprev.
  - simpl in Hs. apply andb_prop in Hs as [Hc Hs].
    apply negb_true_iff in Hc. rewrite Hc, Hprev. simpl.
    by rewrite IH.
Qed.

Lemma field_body_no_underscore neg ip a b c :
  is_plain_int ip = true ->
  is_digit a = true -> is_digit b = true -> is_digit c = true ->
  forallb (fun c => negb (Ascii.eqb c "_")) (field_body neg ip a b c) = true.
Proof.
  intros Hip Ha Hb Hc. destruct (plain_int_head ip Hip) as (c0 & r & _ & _ & Hdig).
  unfold field_body. rewrite !forallb_app. simpl.
  rewrite !is_digit_not_underscore by assumption. simpl.
  rewrite andb_true_r. apply andb_true_intro. split; [by destruct neg|].
  rewrite forallb_forall in *. intros x Hx.
  by rewrite is_digit_not_underscore by auto.
Qed.

Lemma parse_decimal_field neg ip a b c :
  is_plain_int ip = true ->
  is_digit a = true -> is_digit b = true -> is_digit c = true ->
  parse_decimal (field_body neg ip a b c)
  = Some (float_of_decimal neg (digits_value (ip ++ [a; b; c])) (-3)).
Proof.
  intros Hip Ha Hb Hc. destruct (plain_int_head ip Hip) as (c0 & r & -> & Hc0 & Hdig).
  unfold parse_decimal.
  assert (parse_sign (field_body neg (c0 :: r) a b c)
          = (neg, (c0 :: r) ++ "."%char :: [a; b; c])) as ->.
  { unfold field_body. destruct neg; simpl; [reflexivity|].
    destruct (Ascii.eqb_spec c0 "-") as [->|_]; [discriminate|].
    destruct (Ascii.eqb_spec c0 "+") as [->|_]; [discriminate|reflexivity]. }
  rewrite drop_digits_app, take_digits_app by done.
  rewrite Ascii.eqb_refl.
  rewrite take_digits_all, drop_digits_all by (simpl; by rewrite Ha, Hb, Hc).
  reflexivity.
Qed.

Lemma to_ascii_id s :
  forallb (fun c => (nat_of_ascii c <? 127)%nat) s = true -> to_ascii s = s.
Proof.
  induction s as [|c s IH]; simpl; [done|]. intros H.
  apply andb_prop in H as [Hc Hs]. by rewrite Hc, IH.
Qed.

Lemma is_digit_low c : is_digit c = true -> (nat_of_ascii c <? 127)%nat = true.
Proof. intros Hc. apply is_digit_range in Hc. apply Nat.ltb_lt. lia. Qed.

Lemma to_ascii_field n neg ip a b c :
  is_plain_int ip = true ->
  is_digit a = true -> is_digit b = true -> is_digit c = true ->
  to_ascii (replicate n " "%char ++ field_body neg ip a b c)
  = replicate n " "%char ++ field_body neg ip a b c.
Proof.
  intros Hip Ha Hb Hc. destruct (plain_int_head ip Hip) as (c0 & r & _ & _ & Hdig).
  apply to_ascii_id. unfold field_body. rewrite !forallb_app. simpl.
  rewrite !is_digit_low by assumption. simpl.
  repeat (apply andb_true_intro; split); try reflexivity.
  - apply forallb_forall. intros x Hx. apply list_elem_of_In, elem_of_replicate in Hx as [-> _].
    reflexivity.
  - by destruct neg.
  - rewrite forallb_forall in *. intros x Hx. apply is_digit_low. auto.
Qed.

Lemma py_float_field n neg ip a b c :
  is_plain_int ip = true ->
  is_digit a = true -> is_digit b = true -> is_digit c = true ->
  py_float (replicate n " "%char ++ field_body neg ip a b c)
  = Ok (float_of_decimal neg (digits_value (ip ++ [a; b; c])) (-3)).
Proof.
  intros Hip Ha Hb Hc. unfold py_float.
  rewrite to_ascii_field by assumption.
  rewrite strip_field by assumption.
  rewrite drop_underscores_id
    by (try apply field_body_no_underscore; done).
  by rewrite parse_decimal_field.
Qed.

Lemma digits_value_frac ip a b c :
  digits_value (ip ++ [a; b; c])
  = 1000 * digits_value ip + 100 * digit_val a + 10 * digit_val b + digit_val c.
Proof.
  change (ip ++ [a; b; c]) with (ip ++ [a] ++ [b] ++ [c]).
  rewrite !app_assoc, !digits_value_snoc. lia.
Qed.

Lemma fixed3_field neg ip a b c :
  is_plain_int ip = true ->
  is_digit a = true -> is_digit b = true -> is_digit c = true ->
  fixed3 neg (digits_value (ip ++ [a; b; c])) = field_body neg ip a b c.
Proof.
  intros Hip Ha Hb Hc. rewrite digits_value_frac.
  pose proof (digit_val_range a Ha). pose proof (digit_val_range b Hb).
  pose proof (digit_val_range c Hc).
  set (V := digits_value ip). set (va := digit_val a) in *.
  set (vb := digit_val b) in *. set (vc := digit_val c) in *.
  unfold fixed3, field_body.
  replace ((1000 * V + 100 * va + 10 * vb + vc) / 1000) with V
    by (apply Z.div_unique with (100 * va + 10 * vb + vc); lia).
  replace ((1000 * V + 100 * va + 10 * vb + vc) / 100 mod 10) with va.
  2:{ replace ((1000 * V + 100 * va + 10 * vb + vc) / 100) with (10 * V + va)
        by (apply Z.div_unique with (10 * vb + vc); lia).
      apply Z.mod_unique with V; lia. }
  replace ((1000 * V + 100 * va + 10 * vb + vc) / 10 mod 10) with vb.
  2:{ replace ((1000 * V + 100 * va + 10 * vb + vc) / 10) with (100 * V + 10 * va + vb)
        by (apply Z.div_unique with vc; lia).
      apply Z.mod_unique with (10 * V + va); lia. }
  replace ((1000 * V + 100 * va + 10 * vb + vc) mod 10) with vc
    by (apply Z.mod_unique with (100 * V + 10 * va + vb); lia).
  unfold V, va, vb, vc.
  by rewrite decimal_digits_value, !digit_char_val.
Qed.

Lemma is_fixed_field_inv s :
  is_fixed_field s = true ->
  exists n neg ip a b c,
    s = replicate n " "%char ++ field_body neg ip a b c
    /\ length s = 8%nat
    /\ is_plain_int ip = true
    /\ is_digit a = true /\ is_digit b = true /\ is_digit c = true.
Proof.
  unfold is_fixed_field. intros H. apply andb_prop in H as [Hlen Hfix].
  apply Nat.eqb_eq in Hlen.
  destruct (drop_spaces_split s) as [n Hs].
  destruct (is_fixed3_inv _ Hfix) as (neg & ip & a & b & c & Hbody & Hrest).
  exists n, neg, ip, a, b, c. rewrite <- Hbody. by split.
Qed.

(** What a fixed field reads as: a sign and fewer than 10^7 thousandths. *)
Lemma fixed_field_value s :
  is_fixed_field s = true ->
  exists neg k,
    0 <= k < 10 ^ 7
    /\ py_float s = Ok (float_of_decimal neg k (-3))
    /\ format_coordinate (float_of_decimal neg k (-3)) = s.
Proof.
  intros Hs.
  destruct (is_fixed_field_inv s Hs) as (n & neg & ip & a & b & c & -> & Hlen & Hip & Ha & Hb & Hc).
  exists neg, (digits_value (ip ++ [a; b; c])).
  destruct (plain_int_head ip Hip) as (c0 & r & Hipeq & _ & Hdig).
  pose proof (digits_value_range ip Hdig) as Hv.
  pose proof (digit_val_range a Ha). pose proof (digit_val_range b Hb).
  pose proof (digit_val_range c Hc).
  assert (length ip <= 4)%nat as Hlip.
  { rewrite length_app, length_replicate in Hlen. unfold field_body in Hlen.
    rewrite !length_app in Hlen. simpl in Hlen. lia. }
  assert (10 ^ Z.of_nat (length ip) <= 10 ^ 4) as Hpow
      by (apply Z.pow_le_mono_r; lia).
  assert (0 <= digits_value (ip ++ [a; b; c]) < 10 ^ 7) as Hk.
  { rewrite digits_value_frac. change (10 ^ 7) with 10000000.
    change (10 ^ 4) with 10000 in Hpow. lia. }
  split; [exact Hk|]. split; [by apply py_float_field|].
  unfold format_coordinate. rewrite format_decimal3
    by (change (2 ^ 24) with 16777216; change (10 ^ 7) with 10000000 in Hk; lia).
  rewrite fixed3_field by assumption. unfold rjust. f_equal. f_equal.
  rewrite length_app, length_replicate in Hlen. lia.
Qed.

Lemma float_of_decimal3_finite neg k :
  0 <= k < 10 ^ 7 -> is_finite (float_of_decimal neg k (-3)) = true.
Proof.
  intros Hk. destruct k as [|p|p]; [reflexivity| |lia].
  destruct (decimal3_float neg p) as (m & e & -> & _); [|reflexivity].
  change (2 ^ 24) with 16777216. change (10 ^ 7) with 10000000 in Hk. lia.
Qed.

(** C7: for every 8-character fixed-point field [s] (right-aligned with
    spaces, an optional minus sign, integer digits without leading zeros,
    a point and 3 decimals), reading it with [float] and rendering the
    result with ['8.3f'] gives [s] back. *)
Theorem format_parse_roundtrip s :
  is_fixed_field s = true ->
  exists x, parse_coordinate s = Ok x /\ format_coordinate x = s.
Proof.
  intros Hs. destruct (fixed_field_value s Hs) as (neg & k & _ & Hp & Hf).
  by exists (float_of_decimal neg k (-3)).
Qed.

Lemma format_parse_roundtrip_witness :
  exists x, parse_coordinate (lit "  12.345") = Ok x
            /\ format_coordinate x = lit "  12.345".
Proof. apply format_parse_roundtrip. reflexivity. Defined.

Lemma fixed3_field_body s k :
  fixed3 s k
  = field_body s (decimal (k / 1000))
      (digit_char (k / 100 mod 10)) (digit_char (k / 10 mod 10)) (digit_char (k mod 10)).
Proof. reflexivity. Qed.

Lemma drop_spaces_head c r : is_space c = false -> drop_spaces (c :: r) = c :: r.
Proof.
  intros Hc. simpl. destruct (Ascii.eqb_spec c " ") as [->|_]; [discriminate|reflexivity].
Qed.

Lemma format_3f_fits x :
  fits_field x = true ->
  format_3f x = fixed3 (sign_bit x) (thousandths x)
  /\ 0 <= thousandths x <= (if sign_bit x then 999999 else 9999999).
Proof.
  unfold fits_field. intros H. apply andb_prop in H as [Hfin Hk].
  apply Z.leb_le in Hk. pose proof (thousandths_nonneg x).
  split; [|lia]. by destruct x.
Qed.

Lemma fixed3_length (s : bool) k :
  0 <= k <= (if s then 999999 else 9999999) -> (length (fixed3 s k) <= 8)%nat.
Proof.
  intros Hk. rewrite fixed3_field_body. unfold field_body.
  rewrite !length_app. simpl length.
  destruct s; simpl length.
  - assert (length (decimal (k / 1000)) <= 3)%nat; [|lia].
    apply decimal_length; [|lia]. change (10 ^ Z.of_nat 3) with 1000.
    split; [apply Z.div_pos; lia|apply Z.div_lt_upper_bound; lia].
  - assert (length (decimal (k / 1000)) <= 4)%nat; [|lia].
    apply decimal_length; [|lia]. change (10 ^ Z.of_nat 4) with 10000.
    split; [apply Z.div_pos; lia|apply Z.div_lt_upper_bound; lia].
Qed.

Lemma fixed3_is_fixed3 s k : 0 <= k -> is_fixed3 (fixed3 s k) = true.
Proof.
  intros Hk. rewrite fixed3_field_body.
  apply is_fixed3_intro;
    [apply decimal_plain, Z.div_pos; lia|..];
    apply digit_char_is_digit, Z.mod_pos_bound; lia.
Qed.

Lemma format_coordinate_fits x :
  fits_field x = true ->
  length (format_coordinate x) = 8%nat /\ is_fixed_field (format_coordinate x) = true.
Proof.
  intros Hfit. destruct (format_3f_fits x Hfit) as [Hfmt Hk].
  unfold format_coordinate, rjust. rewrite Hfmt.
  pose proof (fixed3_length (sign_bit x) (thousandths x) Hk) as Hlen.
  assert (length (replicate (8 - length (fixed3 (sign_bit x) (thousandths x))) " "%char
                  ++ fixed3 (sign_bit x) (thousandths x)) = 8%nat) as Hlen8.
  { rewrite length_app, length_replicate. lia. }
  split; [exact Hlen8|].
  unfold is_fixed_field. rewrite Hlen8. simpl.
  rewrite drop_spaces_replicate.
  pose proof (fixed3_is_fixed3 (sign_bit x) (thousandths x) ltac:(lia)) as Hfix.
  rewrite fixed3_field_body in *.
  destruct (field_body_head (sign_bit x) (decimal (thousandths x / 1000))
              (digit_char (thousandths x / 100 mod 10))
              (digit_char (thousandths x / 10 mod 10))
              (digit_char (thousandths x mod 10))) as (h & r & Hbody & Hh).
  { apply decimal_plain, Z.div_pos; lia. }
  rewrite Hbody in *. by rewrite drop_spaces_head.
Qed.

(** C8, as stated, fails on its first example: 12.345 does not render as
    the 7 characters [" 12.345"]. *)
Lemma format_12_345_is_not_7_wide :
  format_coordinate (flt "12.345") <> lit " 12.345".
Proof. vm_compute. discriminate. Qed.

(** C8 (amended): [format_coordinate] renders every finite value that fits
    the field (below 10000 and above -1000 once rounded to thousandths) as
    exactly 8 characters, fixed point with 3 decimal places, right-aligned;
    12.345 renders as ["  12.345"] and -5.1 as ["  -5.100"]. *)
Theorem format_coordinate_fixed_width :
  (forall x, fits_field x = true ->
     length (format_coordinate x) = 8%nat
     /\ is_fixed_field (format_coordinate x) = true)
  /\ format_coordinate (flt "12.345") = lit "  12.345"
  /\ format_coordinate (flt "-5.1") = lit "  -5.100".
Proof.
  split; [exact format_coordinate_fits|].
  split; vm_compute; reflexivity.
Qed.

Lemma format_coordinate_fixed_width_witness :
  length (format_coordinate (flt "-999.9994")) = 8%nat
  /\ is_fixed_field (format_coordinate (flt "-999.9994")) = true.
Proof.
  apply (proj1 format_coordinate_fixed_width (flt "-999.9994")).
  vm_compute. reflexivity.
Defined.

(** ** Repositioning onto the structure's own centroid *)

Lemma fsub_self x : is_finite x = true -> fsub x x = S754_zero false.
Proof.
  destruct x as [s| | |s m e]; try discriminate; intros _.
  - by destruct s.
  - unfold fsub, SFsub. by rewrite Z.sub_diag.
Qed.

Lemma fadd_zero_r x :
  fadd x (S754_zero false) = match x with S754_zero _ => S754_zero false | _ => x end.
Proof. destruct x as [[|]| | |s m e]; reflexivity. Qed.

Lemma feqb_refl_finite s m e : feqb (S754_finite s m e) (S754_finite s m e) = true.
Proof.
  unfold feqb, SFeqb, SFcompare.
  rewrite Z.compare_refl, Pos.compare_cont_refl. by destruct s.
Qed.

(** A fixed field, moved by +0.0 and rendered again, reads as the same number. *)
Lemma field_unmoved s :
  is_fixed_field s = true ->
  exists p p',
    py_float s = Ok p
    /\ length (format_coordinate (fadd p (S754_zero false))) = 8%nat
    /\ py_float (format_coordinate (fadd p (S754_zero false))) = Ok p'
    /\ feqb p' p = true.
Proof.
  intros Hs. destruct (fixed_field_value s Hs) as (neg & k & Hk & Hp & Hfmt).
  pose proof (float_of_decimal3_finite neg k Hk) as Hfin.
  exists (float_of_decimal neg k (-3)). rewrite fadd_zero_r.
  destruct (float_of_decimal neg k (-3)) as [sz| | |sp m e]; try discriminate.
  - exists (S754_zero false). split; [assumption|].
    split; [reflexivity|]. split; [reflexivity|]. by destruct sz.
  - exists (S754_finite sp m e). split; [assumption|].
    rewrite Hfmt. split; [|split; [assumption|apply feqb_refl_finite]].
    unfold is_fixed_field in Hs. apply andb_prop in Hs as [Hl _].
    by apply Nat.eqb_eq in Hl.
Qed.

Lemma slices_of_new_line pre fx fy fz post :
  length pre = 30%nat -> length fx = 8%nat -> length fy = 8%nat -> length fz = 8%nat ->
  slice 30 38 (pre ++ fx ++ fy ++ fz ++ post) = fx
  /\ slice 38 46 (pre ++ fx ++ fy ++ fz ++ post) = fy
  /\ slice 46 54 (pre ++ fx ++ fy ++ fz ++ post) = fz.
Proof.
  intros Hpre Hx Hy Hz. unfold slice. repeat split.
  - rewrite drop_app_length' by done. by apply take_app_length'.
  - rewrite (app_assoc pre fx), drop_app_length' by (rewrite length_app; lia).
    by apply take_app_length'.
  - rewrite (app_assoc pre fx), (app_assoc (pre ++ fx) fy),
      drop_app_length' by (rewrite !length_app; lia).
    by apply take_app_length'.
Qed.

Lemma fixed_field_length s : is_fixed_field s = true -> length s = 8%nat.
Proof.
  unfold is_fixed_field. intros H. apply andb_prop in H as [H _].
  by apply Nat.eqb_eq.
Qed.

Lemma valid_atom_line_unmoved line :
  valid_atom_line line = true ->
  exists p p',
    line_coords line = Ok p
    /\ line_coords (new_line line (fadd p.1.1 (S754_zero false))
                      (fadd p.1.2 (S754_zero false)) (fadd p.2 (S754_zero false))) = Ok p'
    /\ coord_eqb p' p = true.
Proof.
  unfold valid_atom_line. intros H.
  apply andb_prop in H as [H Hz]. apply andb_prop in H as [Hx Hy].
  assert (38 <= length line)%nat as Hlen.
  { apply fixed_field_length in Hx. unfold slice in Hx.
    rewrite length_take, length_drop in Hx. lia. }
  destruct (field_unmoved _ Hx) as (px & px' & Hpx & Hlx & Hpx' & Hex).
  destruct (field_unmoved _ Hy) as (py & py' & Hpy & Hly & Hpy' & Hey).
  destruct (field_unmoved _ Hz) as (pz & pz' & Hpz & Hlz & Hpz' & Hez).
  exists (px, py, pz), (px', py', pz').
  unfold line_coords at 1. rewrite Hpx, Hpy, Hpz. simpl.
  split; [reflexivity|]. split.
  - unfold line_coords, new_line.
    destruct (slices_of_new_line (take 30 line) _ _ _ (drop 54 line)
                ltac:(rewrite length_take; lia) Hlx Hly Hlz) as (-> & -> & ->).
    by rewrite Hpx', Hpy', Hpz'.
  - unfold coord_eqb. simpl. by rewrite Hex, Hey, Hez.
Qed.

Lemma valid_lines_ok lines :
  forallb valid_line lines = true -> forallb line_ok lines = true.
Proof.
  rewrite !forallb_forall. intros Hvalid line Hin. specialize (Hvalid line Hin).
  unfold valid_line, line_ok in *. destruct (is_atom_line line); [|done]. simpl in *.
  by destruct (valid_atom_line_unmoved line Hvalid) as (p & _ & -> & _).
Qed.

Lemma center_nonempty coords c : center coords = Ok c -> coords <> [].
Proof. intros H ->. discriminate. Qed.

(** * Further properties *)

(** ** What a conversion result guarantees *)

Lemma try_method_true sh cmd out w w' :
  try_method sh cmd out w = (Ok true, w') ->
  is_Some (nodes w' !! out) /\ calls w' = calls w ++ [cmd].
Proof.
  unfold try_method, try_except, bind, subprocess_run, path_exists, ret.
  destruct (sh cmd (nodes w)) as [[[|c|c]|e] fs']; simpl.
  - intros [= Hex <-]. simpl. split; [by apply bool_decide_eq_true in Hex|reflexivity].
  - discriminate.
  - discriminate.
  - destruct (is_CalledProcessError e); discriminate.
Qed.

Lemma try_method_false sh cmd out w w' :
  try_method sh cmd out w = (Ok false, w') -> calls w' = calls w ++ [cmd].
Proof.
  unfold try_method, try_except, bind, subprocess_run, path_exists, ret.
  destruct (sh cmd (nodes w)) as [[[|c|c]|e] fs']; simpl;
    try destruct (is_CalledProcessError e); try discriminate;
    intros H; inversion H; reflexivity.
Qed.

(** Whatever the tools do: when [convert_pdb_to_pdbqt] returns [True] the
    artifact exists in the file system it leaves, and the commands run are
    an initial part of the three strategies; when it returns [False] all
    three strategies were run, in order. *)
Theorem convert_result_guarantee sh pdb out w w' b :
  convert_pdb_to_pdbqt sh pdb out w = (Ok b, w') ->
  if b then
    is_Some (nodes w' !! out)
    /\ exists k, (1 <= k <= 3)%nat /\ calls w' = calls w ++ take k (strategies pdb out)
  else calls w' = calls w ++ strategies pdb out.
Proof.
  unfold convert_pdb_to_pdbqt, bind, ret, strategies.
  destruct (try_method sh (cmd_prepare_ligand4 pdb out) out w) as [[[|]|e1] w1] eqn:H1;
    [| |discriminate].
  { intros [= <- <-]. apply try_method_true in H1 as [Hex Hc].
    split; [assumption|]. exists 1%nat. split; [lia|assumption]. }
  apply try_method_false in H1.
  destruct (try_method sh (cmd_obabel pdb out) out w1) as [[[|]|e2] w2] eqn:H2;
    [| |discriminate].
  { intros [= <- <-]. apply try_method_true in H2 as [Hex Hc].
    split; [assumption|]. exists 2%nat. split; [lia|].
    rewrite Hc, H1, <- app_assoc. reflexivity. }
  apply try_method_false in H2.
  destruct (try_method sh (cmd_pythonsh pdb out) out w2) as [[[|]|e3] w3] eqn:H3;
    [| |discriminate].
  { intros [= <- <-]. apply try_method_true in H3 as [Hex Hc].
    split; [assumption|]. exists 3%nat. split; [lia|].
    rewrite Hc, H2, H1, <- !app_assoc. reflexivity. }
  apply try_method_false in H3.
  intros [= <- <-]. rewrite H3, H2, H1, <- !app_assoc. reflexivity.
Qed.

(** [convert_smiles_to_pdb] checks the exit status only: when the tool
    exits with status 0 and writes nothing, the result is [True] although
    the output file does not exist. *)
Theorem convert_smiles_trusts_exit_status sh smiles out w :
  sh (cmd_smiles smiles out) (nodes w) = (Exit 0, nodes w) ->
  nodes w !! out = None ->
  exists w', convert_smiles_to_pdb sh smiles out w = (Ok true, w')
             /\ nodes w' !! out = None
             /\ calls w' = calls w ++ [cmd_smiles smiles out].
Proof.
  intros Hsh Hout. eexists.
  unfold convert_smiles_to_pdb, try_except, bind, subprocess_run, ret.
  rewrite Hsh. simpl. split; [reflexivity|]. by split.
Qed.

(** ** The footprint of [reposition_ligand] *)

Lemma put_lookup_ne ps t fs p : p ∉ ps -> put ps t fs !! p = fs !! p.
Proof.
  induction ps as [|q ps IH]; simpl; [done|]. intros Hp.
  apply not_elem_of_cons in Hp as [Hne Hp].
  rewrite lookup_insert_ne by done. by apply IH.
Qed.

(** [reposition_ligand] runs no command, and changes the file system
    through its one [open(output_file, 'w')] only. Either the file system
    is as it was; or the whole new text was written and the result is
    [True]; or the write broke after the file was opened and truncated,
    the file holds an initial part of the new text, and the result is not
    [True]. In each case a path that is neither the output path nor one of
    the other spellings the disk names for it keeps what it held. *)
Theorem reposition_ligand_footprint inp out tx ty tz w :
  let r := reposition_ligand inp out tx ty tz w in
  calls r.2 = calls w
  /\ (nodes r.2 = nodes w
      \/ exists t c others,
           nodes w !! inp = Some (File t)
           /\ center (atom_coords (readlines t)) = Ok c
           /\ (forall p, p <> out -> p ∉ others -> nodes r.2 !! p = nodes w !! p)
           /\ ((disk w out (moved_text (tx, ty, tz) c (readlines t)) (nodes w)
                = Written others
                /\ r.1 = Ok true
                /\ nodes r.2 !! out
                   = Some (File (moved_text (tx, ty, tz) c (readlines t))))
               \/ exists k,
                    disk w out (moved_text (tx, ty, tz) c (readlines t)) (nodes w)
                    = Broken k others
                    /\ r.1 <> Ok true
                    /\ nodes r.2 !! out
                       = Some (File (take k (moved_text (tx, ty, tz) c (readlines t)))))).
Proof.
  cbv zeta. rewrite reposition_ligand_outcome. unfold reposition_outcome.
  destruct (nodes w !! inp) as [[t| |]|] eqn:Hin;
    try (split; [apply report_calls|left; apply report_nodes]).
  destruct (forallb line_ok (readlines t));
    [|split; [apply report_calls|left; apply report_nodes]].
  destruct (atom_coords (readlines t)) as [|c0 cs] eqn:Hcs; [split; [reflexivity|by left]|].
  destruct (center (c0 :: cs)) as [c|e] eqn:Hc;
    [|split; [apply report_calls|left; apply report_nodes]].
  destruct (disk w out _ (nodes w)) as [|others|k others] eqn:Hdisk.
  - split; [apply report_calls|left; apply report_nodes].
  - split; [reflexivity|]. right. exists t, c, others.
    split; [reflexivity|]. split; [by rewrite Hcs|]. split.
    + intros p Hp Hq. simpl. rewrite lookup_insert_ne by done. by apply put_lookup_ne.
    + left. split; [exact Hdisk|]. split; [reflexivity|]. apply put_lookup.
  - split; [by rewrite report_calls|]. right. exists t, c, others.
    split; [reflexivity|]. split; [by rewrite Hcs|]. rewrite report_nodes. split.
    + intros p Hp Hq. simpl. rewrite lookup_insert_ne by done. by apply put_lookup_ne.
    + right. exists k. split; [exact Hdisk|]. split; [apply report_not_true|].
      apply put_lookup.
Qed.

(** ** When [reposition_ligand] succeeds *)

Lemma pos_iter_xO m d : Z.pos (Pos.iter xO m d) = Z.pos m * 2 ^ Z.pos d.
Proof.
  induction d as [|d IH] using Pos.peano_ind.
  - simpl. lia.
  - rewrite Pos.iter_succ, Pos2Z.inj_succ, Z.pow_succ_r by lia.
    rewrite Pos2Z.inj_xO, IH. lia.
Qed.

Lemma shl_align_spec mx ex ex' :
  (shl_align mx ex ex').2 = Z.min ex ex'
  /\ Z.pos (shl_align mx ex ex').1 = Z.pos mx * 2 ^ (ex - Z.min ex ex').
Proof.
  unfold shl_align. destruct (ex' - ex) as [|d|d] eqn:Hd; simpl.
  - rewrite Z.min_l by lia. rewrite Z.sub_diag. simpl. lia.
  - rewrite Z.min_l by lia. rewrite Z.sub_diag. simpl. lia.
  - rewrite Z.min_r by lia. split; [reflexivity|].
    rewrite pos_iter_xO. f_equal. f_equal. lia.
Qed.

Lemma float_of_int_finite n :
  0 < n < 2 ^ 53 -> exists m e, float_of_int n = Ok (S754_finite false m e).
Proof.
  intros Hn. destruct n as [|p|p]; try lia.
  unfold float_of_int, binary_normalize, binary_round.
  pose proof (Zdigits2_bounds (Z.pos p) ltac:(lia)) as [Hlo Hhi].
  change (Z.pos (digits2_pos p)) with (Zdigits2 (Z.pos p)).
  set (d := Zdigits2 (Z.pos p)) in *.
  assert (1 <= d <= 53) as Hd.
  { split; [unfold d; simpl; lia|]. apply Zdigits2_le; lia. }
  rewrite fexp_eq.
  destruct (shl_align_spec p 0 (Z.max (d + 0 - 53) (-1074))) as [He Hm].
  destruct (shl_align p 0 (Z.max (d + 0 - 53) (-1074))) as [mz ez]. simpl in He, Hm.
  rewrite Z.min_r in He, Hm by lia. rewrite Z.max_l in He, Hm by lia.
  replace (0 - (d + 0 - 53)) with (53 - d) in Hm by lia.
  assert (2 ^ 52 <= Z.pos mz < 2 ^ 53) as Hmz.
  { assert (2 ^ 52 = 2 ^ (d - 1) * 2 ^ (53 - d)) as H52
        by (rewrite <- Z.pow_add_r by lia; f_equal; lia).
    assert (2 ^ 53 = 2 ^ d * 2 ^ (53 - d)) as H53
        by (rewrite <- Z.pow_add_r by lia; f_equal; lia).
    assert (0 < 2 ^ (53 - d)) by pow2_side.
    rewrite Hm, H52, H53.
    split; [apply Z.mul_le_mono_nonneg_r; lia|apply Z.mul_lt_mono_pos_r; lia]. }
  assert (Zdigits2 (Z.pos mz) = 53) as Hdz.
  { apply Z.le_antisymm; [apply Zdigits2_le; lia|apply Zdigits2_ge; [exact (proj1 Hmz)|lia]]. }
  destruct (binary_round_aux_crude false (Z.pos mz) ez loc_Exact ltac:(lia))
    as (m3 & e3 & Hm3 & He3 & Hnear & ->).
  rewrite Hdz, fexp_eq in He3, Hnear.
  rewrite Z.max_l in He3, Hnear by lia. rewrite Z.sub_diag in Hnear.
  change (2 ^ 0) with 1 in Hnear. change (2 ^ 52) with 4503599627370496 in Hmz.
  destruct m3 as [|m|m]; [lia| |lia].
  replace (e3 <=? 971) with true by (symmetry; apply Z.leb_le; lia).
  eauto.
Qed.

Lemma center_ok coords :
  coords <> [] -> Z.of_nat (length coords) < 2 ^ 53 -> exists c, center coords = Ok c.
Proof.
  intros Hne Hlen.
  assert (0 < Z.of_nat (length coords)) as Hpos by (destruct coords; [done|simpl; lia]).
  destruct (float_of_int_finite _ (conj Hpos Hlen)) as (m & e & Hn).
  unfold center, float_div_int. rewrite Hn.
  replace (Z.of_nat (length coords) =? 0) with false by (symmetry; apply Z.eqb_neq; lia).
  simpl. eauto.
Qed.

Lemma atom_coords_length lines : (length (atom_coords lines) <= length lines)%nat.
Proof.
  induction lines as [|line rest IH]; simpl; [lia|].
  destruct (is_atom_line line); [destruct (line_coords line)|]; simpl; lia.
Qed.

Lemma atom_coords_nonempty lines :
  forallb line_ok lines = true ->
  (atom_coords lines <> [] <-> exists line, line ∈ lines /\ is_atom_line line = true).
Proof.
  induction lines as [|line rest IH]; simpl; intros Hok.
  - split; [done|]. intros (line & Hin & _). by apply elem_of_nil in Hin.
  - apply andb_prop in Hok as [Hl Hrest]. specialize (IH Hrest).
    unfold line_ok in Hl. destruct (is_atom_line line) eqn:Hatom; simpl in Hl.
    + destruct (line_coords line); [|discriminate].
      split; [|done]. intros _. exists line. split; [apply elem_of_cons; by left|done].
    + rewrite IH. split.
      * intros (l & Hin & Hl'). exists l. split; [apply elem_of_cons; by right|done].
      * intros (l & Hin & Hl'). apply elem_of_cons in Hin as [->|Hin]; [congruence|eauto].
Qed.

(** [reposition_ligand] returns [True] exactly when the input is a
    readable text file, each of its HETATM/ATOM lines has three fields
    that [float] accepts, there is at least one such line, the centroid is
    computed, and the disk takes the whole of the new text; for an input
    of fewer than 2^53 lines the centroid is always computed. *)
Theorem reposition_succeeds_iff inp out tx ty tz w :
  ((reposition_ligand inp out tx ty tz w).1 = Ok true
   <-> exists t c others,
         nodes w !! inp = Some (File t)
         /\ forallb line_ok (readlines t) = true
         /\ (exists line, line ∈ readlines t /\ is_atom_line line = true)
         /\ center (atom_coords (readlines t)) = Ok c
         /\ disk w out (moved_text (tx, ty, tz) c (readlines t)) (nodes w)
            = Written others)
  /\ (forall t, nodes w !! inp = Some (File t) ->
        Z.of_nat (length (readlines t)) < 2 ^ 53 ->
        forallb line_ok (readlines t) = true ->
        (exists line, line ∈ readlines t /\ is_atom_line line = true) ->
        exists c, center (atom_coords (readlines t)) = Ok c).
Proof.
  split.
  - split.
    + destruct (reposition_ligand inp out tx ty tz w) as [r w'] eqn:Hrun. simpl.
      intros ->. apply reposition_ligand_success in Hrun
        as (t & c & others & Hin & Hok & Hne & Hc & Hdisk & _).
      exists t, c, others. repeat split; try assumption.
      by apply (atom_coords_nonempty _ Hok).
    + intros (t & c & others & Hin & Hok & Hatom & Hc & Hdisk).
      rewrite reposition_ligand_outcome. unfold reposition_outcome.
      rewrite Hin, Hok. apply (atom_coords_nonempty _ Hok) in Hatom.
      destruct (atom_coords (readlines t)) as [|c0 cs]; [done|].
      by rewrite Hc, Hdisk.
  - intros t Hin Hsize Hok Hatom. apply center_ok.
    + by apply (atom_coords_nonempty _ Hok).
    + pose proof (atom_coords_length (readlines t)). lia.
Qed.

(** ** The width of a rendered coordinate *)

Lemma decimal_length_ge n :
  0 <= n -> forall k, 10 ^ Z.of_nat k <= n -> (k < length (decimal n))%nat.
Proof.
  apply (decimal_ind (fun n ds => forall k : nat,
                        10 ^ Z.of_nat k <= n -> (k < length ds)%nat)).
  - intros d Hd [|k] Hk; simpl; [lia|].
    rewrite Nat2Z.inj_succ, Z.pow_succ_r in Hk by lia.
    assert (0 < 10 ^ Z.of_nat k) by (apply Z.pow_pos_nonneg; lia). lia.
  - intros m Hm IH [|k] Hk; rewrite length_app; simpl; [lia|].
    rewrite Nat2Z.inj_succ, Z.pow_succ_r in Hk by lia.
    assert (k < length (decimal (m / 10)))%nat; [|lia].
    apply IH. apply Z.div_le_lower_bound; lia.
Qed.

Lemma fixed3_length_ge (s : bool) k :
  (if s then 999999 else 9999999) < k -> (9 <= length (fixed3 s k))%nat.
Proof.
  intros Hk. rewrite fixed3_field_body. unfold field_body.
  rewrite !length_app. simpl length.
  destruct s; simpl length.
  - assert (3 < length (decimal (k / 1000)))%nat; [|lia].
    apply decimal_length_ge; [apply Z.div_pos; lia|].
    change (10 ^ Z.of_nat 3) with 1000. apply Z.div_le_lower_bound; lia.
  - assert (4 < length (decimal (k / 1000)))%nat; [|lia].
    apply decimal_length_ge; [apply Z.div_pos; lia|].
    change (10 ^ Z.of_nat 4) with 10000. apply Z.div_le_lower_bound; lia.
Qed.

(** A rendered coordinate is never shorter than 8 characters and never
    truncated: for a finite value it has exactly 8 characters if and only
    if the value fits the field (below 10000 and above -1000 once rounded
    to thousandths); otherwise the field widens. *)
Theorem format_coordinate_width x :
  (8 <= length (format_coordinate x))%nat
  /\ (is_finite x = true ->
      (length (format_coordinate x) = 8%nat <-> fits_field x = true)).
Proof.
  split; [apply format_coordinate_length_ge|]. intros Hfin.
  split; [|by intros H; apply format_coordinate_fits].
  intros Hlen. unfold fits_field. rewrite Hfin. simpl. apply Z.leb_le.
  destruct (Z_le_gt_dec (thousandths x) (if sign_bit x then 999999 else 9999999))
    as [|Hgt]; [assumption|].
  exfalso. apply Z.gt_lt in Hgt. apply fixed3_length_ge in Hgt.
  assert (format_3f x = fixed3 (sign_bit x) (thousandths x)) as Hfmt
      by (by destruct x).
  unfold format_coordinate, rjust in Hlen.
  rewrite length_app, length_replicate, Hfmt in Hlen. lia.
Qed.

(** Rendering is stable: a value that fits the field, rendered, read back
    with [float] and rendered again, gives the same 8 characters. *)
Theorem format_coordinate_stable x :
  fits_field x = true ->
  exists y, py_float (format_coordinate x) = Ok y
            /\ format_coordinate y = format_coordinate x.
Proof.
  intros Hfit. destruct (format_coordinate_fits x Hfit) as [_ Hfield].
  destruct (fixed_field_value _ Hfield) as (neg & k & _ & Hp & Hf). eauto.
Qed.

(** ** The batch loop *)

Lemma lstrip_ws_snoc c l :
  is_whitespace c = false -> exists l', lstrip_ws (l ++ [c]) = l' ++ [c].
Proof.
  intros Hc. induction l as [|d l [l' IH]]; simpl.
  - rewrite Hc. by exists [].
  - destruct (is_whitespace d); [by exists l'|by exists (d :: l)].
Qed.

Lemma lstrip_ws_head s :
  lstrip_ws s = [] \/ exists c r, lstrip_ws s = c :: r /\ is_whitespace c = false.
Proof.
  induction s as [|c s IH]; simpl; [by left|].
  destruct (is_whitespace c) eqn:Hc; [assumption|]. right. eauto.
Qed.

Lemma str_strip_head s :
  str_strip s = [] \/ exists c r, str_strip s = c :: r /\ is_whitespace c = false.
Proof.
  unfold str_strip. destruct (lstrip_ws_head s) as [->|(c & r & -> & Hc)]; [by left|].
  right. simpl rev at 2. destruct (lstrip_ws_snoc c (rev r) Hc) as [l' ->].
  rewrite rev_app_distr. simpl. eauto.
Qed.

Lemma str_split_nonempty c r : is_whitespace c = false -> str_split (c :: r) <> [].
Proof.
  intros Hc. simpl. rewrite Hc. destruct r as [|c' r']; [done|].
  destruct (is_whitespace c'); [done|]. by destruct (str_split (c' :: r')).
Qed.

(** *** What every step leaves alone: the console *)

Lemma steady_ret {A} (a : A) : steady (ret a).
Proof. by intros w. Qed.

Lemma steady_raise {A} e : steady (@raise A e).
Proof. by intros w. Qed.

Lemma steady_bind {A B} (m : M A) (k : A -> M B) :
  steady m -> (forall a, steady (k a)) -> steady (bind m k).
Proof.
  intros Hm Hk w. unfold bind. specialize (Hm w).
  destruct (m w) as [[a|e] w1]; simpl in *; [|exact Hm].
  by rewrite Hk.
Qed.

Lemma steady_try {A} (m : M A) handles h :
  steady m -> (forall e, steady (h e)) -> steady (try_except m handles h).
Proof.
  intros Hm Hh w. unfold try_except. specialize (Hm w).
  destruct (m w) as [[a|e] w1]; simpl in *; [exact Hm|].
  destruct (handles e); [by rewrite Hh|exact Hm].
Qed.

Lemma steady_print m : steady (print m).
Proof. intros w. unfold print. by destruct (tty w (stdout w) m). Qed.

Lemma steady_run sh cmd : steady (subprocess_run sh cmd).
Proof.
  intros w. unfold subprocess_run.
  destruct (sh cmd (nodes w)) as [[[|c|c]|e] fs']; reflexivity.
Qed.

Lemma steady_exists p : steady (path_exists p).
Proof. by intros w. Qed.

Lemma steady_read p : steady (read_text p).
Proof. intros w. unfold read_text. by destruct (nodes w !! p) as [[| |]|]. Qed.

Lemma steady_write p t : steady (write_text p t).
Proof. intros w. unfold write_text. by destruct (disk w p t (nodes w)). Qed.

Lemma steady_lift {A} (r : result A) : steady (lift r).
Proof. by intros w. Qed.

Create HintDb steady.
#[local] Hint Resolve steady_ret steady_raise steady_print steady_run steady_exists
  steady_read steady_write steady_lift : steady.

Ltac steady_step :=
  first [ apply steady_bind; [|intros ?]
        | apply steady_try; [|intros ?]
        | match goal with
          | |- steady (if ?b then _ else _) => destruct b
          | |- steady (match ?x with _ => _ end) => destruct x
          end
        | solve [auto with steady] ].

Lemma steady_try_method sh cmd out : steady (try_method sh cmd out).
Proof. unfold try_method. repeat steady_step. Qed.

Lemma steady_convert sh pdb out : steady (convert_pdb_to_pdbqt sh pdb out).
Proof.
  unfold convert_pdb_to_pdbqt.
  repeat first [apply steady_try_method | steady_step].
Qed.

Lemma steady_convert_smiles sh smiles out : steady (convert_smiles_to_pdb sh smiles out).
Proof. unfold convert_smiles_to_pdb. repeat steady_step. Qed.

Lemma steady_reposition inp out tx ty tz : steady (reposition_ligand inp out tx ty tz).
Proof.
  intros w. rewrite reposition_ligand_outcome. unfold reposition_outcome.
  assert (forall e w0, tty (report inp e w0).2 = tty w0) as Hrep.
  { intros e w0. unfold report, bind, print, ret.
    by destruct (tty w0 (stdout w0) (msg_reposition_error inp e)). }
  destruct (nodes w !! inp) as [[t| |]|]; try apply Hrep.
  destruct (forallb line_ok (readlines t)); [|apply Hrep].
  destruct (atom_coords (readlines t)); [reflexivity|].
  destruct (center _); [|apply Hrep].
  destruct (disk w out _ (nodes w)); [apply Hrep|reflexivity|by rewrite Hrep].
Qed.

Lemma steady_process sh a smiles name : steady (process_ligand sh a smiles name).
Proof.
  unfold process_ligand.
  repeat first [ apply steady_convert | apply steady_convert_smiles
               | apply steady_reposition | steady_step ].
Qed.

Lemma steady_main_step sh a n raw st : steady (main_step sh a n raw st).
Proof.
  unfold main_step. destruct (negb (is_entry raw)); [apply steady_ret|].
  destruct (entry_of n raw) as [[smiles name]|]; [|apply steady_raise].
  repeat first [apply steady_process | steady_step].
Qed.

Lemma steady_accepting {A} (m : M A) w :
  steady m -> accepting w -> accepting (m w).2.
Proof. intros Hm Hw h msg. rewrite Hm. apply Hw. Qed.

(** *** What returns under an accepting console *)

Lemma succeeds_ret {A} (a : A) : succeeds (ret a).
Proof. intros w Hw. by exists a, w. Qed.

Lemma succeeds_bind {A B} (m : M A) (k : A -> M B) :
  succeeds m -> (forall a, succeeds (k a)) -> succeeds (bind m k).
Proof.
  intros Hm Hk w Hw. unfold bind.
  destruct (Hm w Hw) as (a & w1 & -> & Hw1). apply Hk, Hw1.
Qed.

Lemma succeeds_print m : succeeds (print m).
Proof.
  intros w Hw. unfold print. rewrite Hw. eexists _, _. split; [reflexivity|].
  intros h msg. apply Hw.
Qed.

Lemma succeeds_from {A} (m : M A) :
  steady m -> (forall w, accepting w -> exists a w', m w = (Ok a, w')) -> succeeds m.
Proof.
  intros Hs Hm w Hw. destruct (Hm w Hw) as (a & w' & Hrun).
  exists a, w'. split; [exact Hrun|].
  pose proof (steady_accepting m w Hs Hw) as H. by rewrite Hrun in H.
Qed.

Lemma succeeds_reposition inp out tx ty tz : succeeds (reposition_ligand inp out tx ty tz).
Proof.
  apply succeeds_from; [apply steady_reposition|]. intros w Hw.
  rewrite reposition_ligand_outcome. unfold reposition_outcome.
  assert (forall e fs, exists a w', report inp e (with_nodes fs w) = (Ok a, w')) as Hrep'.
  { intros e fs. rewrite report_accepted by apply Hw. by eexists _, _. }
  assert (forall e, exists a w', report inp e w = (Ok a, w')) as Hrep.
  { intros e. rewrite report_accepted by apply Hw. by eexists _, _. }
  destruct (nodes w !! inp) as [[t| |]|]; try apply Hrep.
  destruct (forallb line_ok (readlines t)); [|apply Hrep].
  destruct (atom_coords (readlines t)); [by eexists _, _|].
  destruct (center _); [|apply Hrep].
  destruct (disk w out _ (nodes w)); [apply Hrep|by eexists _, _|apply Hrep'].
Qed.

Lemma succeeds_convert_smiles sh smiles out :
  always_exits sh -> succeeds (convert_smiles_to_pdb sh smiles out).
Proof.
  intros Hex. apply succeeds_from; [apply steady_convert_smiles|]. intros w _.
  unfold convert_smiles_to_pdb, try_except, bind, subprocess_run, ret.
  destruct (Hex (cmd_smiles smiles out) (nodes w)) as [c Hc].
  destruct (sh (cmd_smiles smiles out) (nodes w)) as [o fs']. simpl in Hc. subst o.
  destruct c; simpl; by eexists _, _.
Qed.

Lemma fallback_returns sh out cmds : forall w,
  always_exits sh -> exists b w', fallback sh out cmds w = (Ok b, w').
Proof.
  induction cmds as [|cmd rest IH]; intros w Hex; simpl; [by eexists _, _|].
  destruct (attempt sh out cmd w) as [[| |e] w1] eqn:Hatt; [by eexists _, _|by apply IH|].
  apply attempt_surfaced in Hatt as [Hsh He].
  apply (always_exits_no_exn _ _ _ _ Hex) in Hsh. congruence.
Qed.

Lemma succeeds_convert sh pdb out :
  always_exits sh -> succeeds (convert_pdb_to_pdbqt sh pdb out).
Proof.
  intros Hex. apply succeeds_from; [apply steady_convert|]. intros w _.
  rewrite convert_refines_fallback. by apply fallback_returns.
Qed.

Lemma succeeds_process sh a smiles name :
  always_exits sh -> succeeds (process_ligand sh a smiles name).
Proof.
  intros Hex. unfold process_ligand.
  repeat first
    [ apply succeeds_print | apply succeeds_ret | apply succeeds_reposition
    | apply succeeds_convert_smiles; assumption
    | apply succeeds_convert; assumption
    | apply succeeds_bind; [|intros ?]
    | match goal with |- succeeds (if ?b then _ else _) => destruct b end ].
Qed.

Lemma entry_of_is_entry n raw :
  is_entry raw = true -> exists smiles name, entry_of n raw = Some (smiles, name).
Proof.
  unfold is_entry, entry_of. intros Hentry.
  destruct (str_strip_head raw) as [Hnil|(c & r & Hline & Hc)];
    [by rewrite Hnil in Hentry|].
  rewrite Hline. pose proof (str_split_nonempty c r Hc) as Hparts.
  destruct (str_split (c :: r)) as [|smiles more]; [done|]. by eexists _, _.
Qed.

(** One turn of the loop under an accepting console and tools that run
    to an exit status: it returns, a ligand line adds one to the total
    and at most one to the successes, any other line adds nothing. *)
Lemma main_step_counts sh a n raw st w :
  always_exits sh -> accepting w ->
  exists st' w',
    main_step sh a n raw st w = (Ok st', w') /\ accepting w'
    /\ st'.2 = st.2 + (if is_entry raw then 1 else 0)
    /\ st.1 <= st'.1 <= st.1 + (if is_entry raw then 1 else 0).
Proof.
  intros Hex Hw. unfold main_step.
  destruct (is_entry raw) eqn:Hentry; simpl.
  2:{ exists st, w. unfold ret. repeat split; try assumption; lia. }
  destruct (entry_of_is_entry n raw Hentry) as (smiles & name & ->).
  unfold bind at 1.
  destruct (succeeds_print (msg_processing (st.2 + 1) name) w Hw) as ([] & w1 & -> & Hw1).
  unfold bind.
  destruct (succeeds_process sh a smiles name Hex w1 Hw1) as (ok & w2 & -> & Hw2).
  unfold ret. eexists _, _. split; [reflexivity|]. split; [exact Hw2|].
  simpl. destruct ok; lia.
Qed.

Lemma main_loop_counts sh a lines : forall line_num s t w,
  always_exits sh -> accepting w -> 0 <= s <= t ->
  exists s' w',
    main_loop sh a line_num lines s t w = (Ok (s', t + count_entries lines), w')
    /\ s <= s' /\ s' - s <= count_entries lines.
Proof.
  unfold count_entries.
  induction lines as [|raw rest IH]; intros line_num s t w Hex Hw Hst; simpl.
  - exists s, w. unfold ret. rewrite Z.add_0_r. repeat split; lia.
  - unfold bind.
    destruct (main_step_counts sh a line_num raw (s, t) w Hex Hw)
      as ([s1 t1] & w1 & -> & Hw1 & Ht1 & Hs1). simpl in Ht1, Hs1.
    destruct (IH (S line_num) s1 t1 w1 Hex Hw1 ltac:(destruct (is_entry raw); lia))
      as (s' & w' & Hrun & Hle & Hdiff).
    simpl. rewrite Hrun. exists s', w'.
    destruct (is_entry raw); simpl length; split; try (f_equal; f_equal; f_equal); lia.
Qed.

(** When the console takes every line, every tool invocation runs to an
    exit status and the SMILES file is readable, the batch completes
    whatever fails for single ligands: the total is the number of lines
    that are neither blank nor comments, and the successes are between 0
    and that total. *)
Theorem main_batch_counts sh a w t :
  always_exits sh ->
  accepting w ->
  nodes w !! smiles_file a = Some (File t) ->
  exists s w',
    main_batch sh a w = (Ok (s, count_entries (readlines t)), w')
    /\ 0 <= s <= count_entries (readlines t).
Proof.
  intros Hex Hw Hin. unfold main_batch, bind, read_text. rewrite Hin.
  destruct (main_loop_counts sh a (readlines t) 1 0 0 w Hex Hw ltac:(lia))
    as (s & w' & Hrun & Hle & Hdiff).
  exists s, w'. rewrite Hrun. split; [reflexivity|lia].
Qed.

(** *** The commands of a batch *)













(** *** Exceptions leave the loop *)






Lemma sh_demo_exits : always_exits sh_demo.
Proof.
  intros cmd fs. unfold sh_demo.
  destruct (startswith cmd (lit "prepare_ligand4.py")); by exists 0.
Qed.

(** A run of the batch: of the two ligand lines (a comment and a blank line
    aside) the first succeeds and its positioned file holds the moved
    atoms; the second, unnamed, is looked for as [ligand_4] and fails. *)
Example main_batch_demo :
  let r := main_batch sh_demo demo_args demo_world in
  r.1 = Ok (1, 2)
  /\ nodes r.2 !! "out/positioned/ethanol.pdbqt"%string = Some (File two_atoms_moved)
  /\ nodes r.2 !! "out/positioned/ligand_4.pdbqt"%string = None
  /\ length (calls r.2) = 6%nat
  /\ length (stdout r.2) = 10%nat.
Proof. vm_compute. repeat split; reflexivity. Qed.

(** ** Instances *)

Lemma convert_result_guarantee_witness :
  let w' := (convert_pdb_to_pdbqt sh_third_only "lig.pdb" "lig.pdbqt" (quiet ∅)).2 in
  is_Some (nodes w' !! "lig.pdbqt"%string)
  /\ exists k, (1 <= k <= 3)%nat
               /\ calls w' = calls (quiet ∅) ++ take k (strategies "lig.pdb" "lig.pdbqt").
Proof.
  apply (convert_result_guarantee sh_third_only "lig.pdb" "lig.pdbqt" (quiet ∅) _ true).
  vm_compute. reflexivity.
Defined.

Lemma convert_smiles_trusts_exit_status_witness :
  exists w', convert_smiles_to_pdb sh_idle (lit "CCO") "lig.pdb" (quiet ∅) = (Ok true, w')
             /\ nodes w' !! "lig.pdb"%string = None
             /\ calls w' = calls (quiet ∅) ++ [cmd_smiles (lit "CCO") "lig.pdb"].
Proof.
  apply (convert_smiles_trusts_exit_status sh_idle (lit "CCO") "lig.pdb" (quiet ∅)).
  - reflexivity.
  - reflexivity.
Defined.

Lemma reposition_ligand_footprint_witness :
  calls (reposition_ligand "in.pdbqt" "out.pdbqt" (flt "10") (flt "10") (flt "10")
           (world_of two_atoms_text)).2
  = calls (world_of two_atoms_text).
Proof.
  exact (proj1 (reposition_ligand_footprint "in.pdbqt" "out.pdbqt"
                  (flt "10") (flt "10") (flt "10") (world_of two_atoms_text))).
Defined.

Lemma reposition_succeeds_iff_witness :
  (reposition_ligand "in.pdbqt" "out.pdbqt" (flt "10") (flt "10") (flt "10")
     (world_of two_atoms_text)).1 = Ok true
  /\ exists c, center (atom_coords (readlines two_atoms_text)) = Ok c.
Proof.
  assert (exists line, line ∈ readlines two_atoms_text /\ is_atom_line line = true)
    as Hatom.
  { exists (atom_line "   0.000" "   0.000" "   0.000"). split; [|reflexivity].
    apply (list_elem_of_lookup_2 _ 1%nat). vm_compute. reflexivity. }
  destruct (reposition_succeeds_iff "in.pdbqt" "out.pdbqt" (flt "10") (flt "10") (flt "10")
              (world_of two_atoms_text)) as [Hiff Hcenter].
  destruct (Hcenter two_atoms_text) as [c Hc];
    [reflexivity|vm_compute; reflexivity|vm_compute; reflexivity|exact Hatom|].
  split; [|by exists c].
  apply Hiff. exists two_atoms_text, c, []. by repeat split.
Defined.

Lemma format_coordinate_width_witness :
  (8 <= length (format_coordinate (flt "12345.678")))%nat
  /\ (is_finite (flt "12345.678") = true ->
      (length (format_coordinate (flt "12345.678")) = 8%nat
       <-> fits_field (flt "12345.678") = true)).
Proof. apply (format_coordinate_width (flt "12345.678")). Defined.

Lemma format_coordinate_stable_witness :
  exists y, py_float (format_coordinate (flt "12.345")) = Ok y
            /\ format_coordinate y = format_coordinate (flt "12.345").
Proof.
  apply (format_coordinate_stable (flt "12.345")). vm_compute. reflexivity.
Defined.

Lemma main_batch_counts_witness :
  exists s w',
    main_batch sh_demo demo_args demo_world
    = (Ok (s, count_entries (readlines demo_smiles)), w')
    /\ 0 <= s <= count_entries (readlines demo_smiles).
Proof.
  apply (main_batch_counts sh_demo demo_args demo_world demo_smiles).
  - apply sh_demo_exits.
  - intros h m. reflexivity.
  - reflexivity.
Defined.



(** ** Real values *)

Lemma bpow_pos e : (0 < bpow e)%R.
Proof. apply powerRZ_lt. lra. Qed.

Lemma bpow_add a b : bpow (a + b) = (bpow a * bpow b)%R.
Proof. apply powerRZ_add. lra. Qed.

Lemma bpow_IZR k : 0 <= k -> bpow k = IZR (2 ^ k).
Proof.
  intros Hk. unfold bpow. rewrite <- (Z2Nat.id k Hk).
  by rewrite <- pow_powerRZ, <- pow_IZR.
Qed.

Lemma bpow_le a b : a <= b -> (bpow a <= bpow b)%R.
Proof.
  intros Hab. replace b with (a + (b - a)) by lia. rewrite bpow_add.
  rewrite (bpow_IZR (b - a)) by lia.
  assert (1 <= 2 ^ (b - a)) as H by (pose proof (Z.pow_pos_nonneg 2 (b - a)); lia).
  apply IZR_le in H. pose proof (bpow_pos a). nra.
Qed.

Lemma bpow_scale n e : 0 <= n -> (IZR (2 ^ n) * bpow e = bpow (n + e))%R.
Proof. intros Hn. rewrite bpow_add, (bpow_IZR n) by lia. reflexivity. Qed.

Lemma F2R_finite s m e :
  F2R (S754_finite s m e) = (sgn s * (IZR (Z.pos m) * bpow e))%R.
Proof. unfold F2R, sgn. destruct s; lra. Qed.

Lemma Rabs_sgn s a : (0 <= a)%R -> Rabs (sgn s * a) = a.
Proof.
  intros Ha. unfold sgn. destruct s.
  - replace (-1 * a)%R with (- a)%R by lra. rewrite Rabs_Ropp. by apply Rabs_right, Rle_ge.
  - rewrite Rmult_1_l. by apply Rabs_right, Rle_ge.
Qed.

(** [binary_round_aux] in the reals: the result is within three units of
    the exponent it rounds at, and finite when that exponent leaves room. *)
Lemma round_aux_R sx m e l :
  0 <= m ->
  let r := binary_round_aux 53 1024 sx m e l in
  let e1 := Z.max e (fexp 53 1024 (Zdigits2 m + e)) in
  (e1 + 1 <= 971 -> is_finite r = true)
  /\ (is_finite r = true ->
      exists a : R, F2R r = (sgn sx * a)%R /\ (0 <= a)%R
                    /\ (Rabs (a - IZR m * bpow e) <= 3 * bpow e1)%R).
Proof.
  intros Hm r e1.
  destruct (binary_round_aux_crude sx m e l Hm) as (m3 & e3 & Hm3 & He3 & Hnear & Hr).
  fold e1 in He3, Hnear. fold r in Hr.
  assert (0 <= e1 - e) as Hn by (unfold e1; lia).
  assert (bpow e1 = IZR (2 ^ (e1 - e)) * bpow e)%R as He1
      by (rewrite bpow_scale by lia; f_equal; lia).
  assert (IZR m3 * bpow e3 = IZR (m3 * 2 ^ (e3 - e)) * bpow e)%R as Hval.
  { rewrite mult_IZR, Rmult_assoc, bpow_scale by lia. do 2 f_equal. lia. }
  destruct Hnear as [Hlo Hhi]. apply IZR_lt in Hlo. apply IZR_le in Hhi.
  rewrite minus_IZR, mult_IZR in Hlo. rewrite plus_IZR in Hhi.
  pose proof (bpow_pos e) as Hbe.
  assert (0 < IZR (2 ^ (e1 - e)))%R as Hp.
  { apply IZR_lt. apply Z.pow_pos_nonneg; lia. }
  assert (Rabs (IZR m3 * bpow e3 - IZR m * bpow e) <= 3 * bpow e1)%R as Hbound.
  { rewrite Hval, He1. apply Rabs_le. split; nra. }
  rewrite Hr. destruct m3 as [|p|p]; [| |lia].
  - split; [reflexivity|]. intros _. exists 0%R. simpl.
    split; [lra|]. split; [lra|].
    rewrite Rmult_0_l in Hbound. exact Hbound.
  - destruct (e3 <=? 971) eqn:Hfin.
    + split; [reflexivity|]. intros _. exists (IZR (Z.pos p) * bpow e3)%R.
      split; [apply F2R_finite|]. split; [|exact Hbound].
      pose proof (bpow_pos e3). assert (0 < IZR (Z.pos p))%R by (apply IZR_lt; lia). nra.
    + apply Z.leb_gt in Hfin. split; [intros; lia|discriminate].
Qed.

Lemma bpow_lt a b : a < b -> (bpow a < bpow b)%R.
Proof.
  intros Hab. replace b with (a + (b - a)) by lia. rewrite bpow_add.
  rewrite (bpow_IZR (b - a)) by lia.
  assert (2 <= 2 ^ (b - a)) as H.
  { replace (b - a) with (Z.succ (b - a - 1)) by lia.
    rewrite Z.pow_succ_r by lia.
    pose proof (Z.pow_pos_nonneg 2 (b - a - 1)). lia. }
  apply IZR_le in H. pose proof (bpow_pos a). nra.
Qed.

Lemma bpow_le_inv a b : (bpow a <= bpow b)%R -> a <= b.
Proof.
  intros H. destruct (Z_le_gt_dec a b) as [|Hgt]; [done|].
  apply Z.gt_lt, bpow_lt in Hgt. lra.
Qed.

Lemma bpow_lt_inv a b : (bpow a < bpow b)%R -> a < b.
Proof.
  intros H. destruct (Z_lt_ge_dec a b) as [|Hge]; [done|].
  apply Z.ge_le, bpow_le in Hge. lra.
Qed.

Lemma bpow_succ a : bpow (a + 1) = (2 * bpow a)%R.
Proof. rewrite bpow_add. change (bpow 1) with (2 * 1)%R. lra. Qed.

(** One unit of the rounding exponent against the value rounded. *)
Lemma fexp_budget D V :
  (bpow (D - 1) <= V)%R ->
  (bpow (fexp 53 1024 D) <= bpow (-52) * V + bpow (-1074))%R.
Proof.
  intros HV. rewrite fexp_eq. pose proof (bpow_pos (-1074)). pose proof (bpow_pos (-52)).
  destruct (Z.max_spec (D - 53) (-1074)) as [[_ ->]|[_ ->]].
  - assert (0 <= V)%R by (pose proof (bpow_pos (D - 1)); lra). nra.
  - replace (D - 53) with (-52 + (D - 1)) by lia. rewrite bpow_add. nra.
Qed.

Lemma digits_bpow m e : 0 < m -> (bpow (Zdigits2 m + e - 1) <= IZR m * bpow e)%R.
Proof.
  intros Hm. destruct (Zdigits2_bounds m Hm) as [Hlo _].
  assert (0 <= Zdigits2 m - 1).
  { destruct (Z_le_gt_dec 1 (Zdigits2 m)) as [|Hd]; [lia|].
    destruct m; try lia. simpl in Hd. lia. }
  replace (Zdigits2 m + e - 1) with ((Zdigits2 m - 1) + e) by lia.
  rewrite bpow_add, bpow_IZR by lia. apply IZR_le in Hlo.
  pose proof (bpow_pos e). nra.
Qed.

Lemma digits_bpow_lt m e : 0 <= m -> (IZR m * bpow e < bpow (Zdigits2 m + e))%R.
Proof.
  intros Hm. pose proof (Zdigits2_lt_pow m Hm) as Hhi.
  pose proof (Zdigits2_nonneg m).
  rewrite bpow_add, (bpow_IZR (Zdigits2 m)) by lia. apply IZR_lt in Hhi.
  apply Rmult_lt_compat_r; [apply bpow_pos|exact Hhi].
Qed.

Lemma u_rel_pos : (0 < u_rel)%R.
Proof. unfold u_rel. pose proof (bpow_pos (-52)). lra. Qed.

Lemma u_abs_pos : (0 < u_abs)%R.
Proof. unfold u_abs. pose proof (bpow_pos (-1074)). lra. Qed.

(** [binary_round] of a positive mantissa. *)
Lemma binary_round_R sx p e :
  let r := binary_round 53 1024 sx p e in
  let v := (IZR (Z.pos p) * bpow e)%R in
  ((v <= bpow 1000)%R -> is_finite r = true)
  /\ (is_finite r = true ->
      exists a : R, F2R r = (sgn sx * a)%R /\ (0 <= a)%R
                    /\ (Rabs (a - v) <= u_rel * v + u_abs)%R).
Proof.
  intros r v. unfold r, binary_round.
  change (Z.pos (digits2_pos p)) with (Zdigits2 (Z.pos p)).
  set (dp := Zdigits2 (Z.pos p)).
  destruct (shl_align_spec p e (fexp 53 1024 (dp + e))) as [He Hm].
  destruct (shl_align p e (fexp 53 1024 (dp + e))) as [mz ez]. simpl in He, Hm.
  set (k := e - Z.min e (fexp 53 1024 (dp + e))) in *.
  assert (0 <= k) as Hk by (unfold k; lia).
  assert (e = k + ez) as Hek by (unfold k; lia).
  assert (v = IZR (Z.pos mz) * bpow ez)%R as Hv.
  { unfold v. rewrite Hm, mult_IZR, Hek, bpow_add, bpow_IZR by lia. ring. }
  pose proof (digits_bpow (Z.pos mz) ez ltac:(lia)) as Hlow. rewrite <- Hv in Hlow.
  set (dz := Zdigits2 (Z.pos mz)) in *.
  assert (dp + k <= dz) as Hdz.
  { apply Zdigits2_ge.
    - destruct (Zdigits2_bounds (Z.pos p) ltac:(lia)) as [Hlo _]. fold dp in Hlo.
      assert (1 <= dp) by (unfold dp; simpl; lia).
      replace (dp + k - 1) with ((dp - 1) + k) by lia.
      rewrite Z.pow_add_r, Hm by lia.
      apply Z.mul_le_mono_nonneg_r; [pow2_side|exact Hlo].
    - assert (1 <= dp) by (unfold dp; simpl; lia). lia. }
  assert (Z.max ez (fexp 53 1024 (dz + ez)) = fexp 53 1024 (dz + ez)) as He1.
  { apply Z.max_r. rewrite fexp_eq in He |- *. lia. }
  destruct (round_aux_R sx (Z.pos mz) ez loc_Exact ltac:(lia)) as [Hfin Hval].
  fold dz in Hfin, Hval. rewrite He1 in Hfin, Hval.
  split.
  - intros Hle. apply Hfin. rewrite fexp_eq.
    assert (dz + ez - 1 <= 1000) by (apply bpow_le_inv; lra). lia.
  - intros Hf. destruct (Hval Hf) as (a & Ha & Ha0 & Hnear).
    exists a. split; [exact Ha|]. split; [exact Ha0|].
    rewrite <- Hv in Hnear.
    pose proof (fexp_budget (dz + ez) v Hlow) as Hb.
    assert (0 <= v)%R by (pose proof (bpow_pos (dz + ez - 1)); lra).
    unfold u_rel, u_abs. pose proof (bpow_pos (-52)). pose proof (bpow_pos (-1074)).
    eapply Rle_trans; [exact Hnear|]. nra.
Qed.

Lemma sgn_cond_Zopp s m : IZR (cond_Zopp s m) = (sgn s * IZR m)%R.
Proof. unfold sgn. destruct s; simpl; [rewrite opp_IZR|]; lra. Qed.

(** [binary_normalize] of a signed mantissa. *)
Lemma normalize_R m e :
  let r := binary_normalize 53 1024 m e false in
  let v := (IZR m * bpow e)%R in
  ((Rabs v <= bpow 1000)%R -> is_finite r = true)
  /\ (is_finite r = true -> (Rabs (F2R r - v) <= u_rel * Rabs v + u_abs)%R).
Proof.
  intros r v. pose proof (bpow_pos e) as Hbe.
  pose proof u_rel_pos. pose proof u_abs_pos.
  destruct m as [|p|p]; unfold r, binary_normalize.
  - split; [reflexivity|]. intros _. unfold v. simpl.
    rewrite !Rmult_0_l, Rminus_0_r, Rabs_R0. lra.
  - destruct (binary_round_R false p e) as [Hfin Hval].
    assert (0 < IZR (Z.pos p))%R by (apply IZR_lt; lia).
    assert (0 <= v)%R by (unfold v; nra).
    rewrite (Rabs_right v) by lra.
    split; [exact Hfin|]. intros Hf. destruct (Hval Hf) as (a & -> & _ & Hnear).
    unfold sgn. rewrite Rmult_1_l. exact Hnear.
  - destruct (binary_round_R true p e) as [Hfin Hval].
    assert (0 < IZR (Z.pos p))%R by (apply IZR_lt; lia).
    assert (v = - (IZR (Z.pos p) * bpow e))%R as Hv.
    { unfold v. change (Z.neg p) with (- Z.pos p). rewrite opp_IZR. ring. }
    assert (Rabs v = IZR (Z.pos p) * bpow e)%R as Habs.
    { rewrite Hv, Rabs_Ropp. apply Rabs_right. nra. }
    rewrite Habs. split; [exact Hfin|].
    intros Hf. destruct (Hval Hf) as (a & -> & _ & Hnear).
    unfold sgn. rewrite Hv.
    replace (-1 * a - - (IZR (Z.pos p) * bpow e))%R
      with (- (a - IZR (Z.pos p) * bpow e))%R by ring.
    rewrite Rabs_Ropp. exact Hnear.
Qed.

Lemma F2R_aligned s m e ez :
  ez <= e ->
  (IZR (cond_Zopp s (Z.pos (shl_align m e ez).1)) * bpow ez)%R = F2R (S754_finite s m e).
Proof.
  intros Hle. destruct (shl_align_spec m e ez) as [_ Hm].
  assert (bpow e = IZR (2 ^ (e - ez)) * bpow ez)%R as He.
  { rewrite bpow_scale by lia. f_equal. lia. }
  rewrite sgn_cond_Zopp, Hm, F2R_finite, mult_IZR, He.
  rewrite Z.min_r by lia. ring.
Qed.

(** ** The operations in the reals *)

Lemma fadd_R x y :
  is_finite x = true -> is_finite y = true ->
  let v := (F2R x + F2R y)%R in
  ((Rabs v <= bpow 1000)%R -> is_finite (fadd x y) = true)
  /\ (is_finite (fadd x y) = true ->
      (Rabs (F2R (fadd x y) - v) <= u_rel * Rabs v + u_abs)%R).
Proof.
  intros Hx Hy v. pose proof u_rel_pos. pose proof u_abs_pos.
  assert (forall z : float, is_finite z = true -> v = F2R z ->
            (is_finite z = true)
            /\ (Rabs (F2R z - v) <= u_rel * Rabs v + u_abs)%R) as Hexact.
  { intros z Hz ->. split; [exact Hz|].
    rewrite Rminus_diag, Rabs_R0. pose proof (Rabs_pos (F2R z)). nra. }
  destruct x as [sx|sx| |sx mx ex]; try discriminate;
    destruct y as [sy|sy| |sy my ey]; try discriminate.
  - assert (is_finite (fadd (S754_zero sx) (S754_zero sy)) = true
            /\ F2R (fadd (S754_zero sx) (S754_zero sy)) = 0%R) as [Hf Hv0]
        by (destruct sx, sy; split; reflexivity).
    destruct (Hexact _ Hf) as [_ Hb]; [unfold v; rewrite Hv0; simpl; lra|].
    split; [done|by intros _].
  - destruct (Hexact (S754_finite sy my ey) eq_refl) as [_ Hb]; [unfold v; simpl; lra|].
    split; [done|by intros _].
  - destruct (Hexact (S754_finite sx mx ex) eq_refl) as [_ Hb]; [unfold v; simpl; lra|].
    split; [done|by intros _].
  - unfold fadd, SFadd.
    set (ez := Z.min ex ey).
    pose proof (normalize_R
      (cond_Zopp sx (Z.pos (shl_align mx ex ez).1)
       + cond_Zopp sy (Z.pos (shl_align my ey ez).1)) ez) as Hn.
    rewrite plus_IZR, Rmult_plus_distr_r in Hn.
    rewrite !F2R_aligned in Hn by (unfold ez; lia).
    exact Hn.
Qed.

Lemma fsub_R x y :
  is_finite x = true -> is_finite y = true ->
  let v := (F2R x - F2R y)%R in
  ((Rabs v <= bpow 1000)%R -> is_finite (fsub x y) = true)
  /\ (is_finite (fsub x y) = true ->
      (Rabs (F2R (fsub x y) - v) <= u_rel * Rabs v + u_abs)%R).
Proof.
  intros Hx Hy v. pose proof u_rel_pos. pose proof u_abs_pos.
  assert (forall z : float, is_finite z = true -> v = F2R z ->
            (is_finite z = true)
            /\ (Rabs (F2R z - v) <= u_rel * Rabs v + u_abs)%R) as Hexact.
  { intros z Hz ->. split; [exact Hz|].
    rewrite Rminus_diag, Rabs_R0. pose proof (Rabs_pos (F2R z)). nra. }
  destruct x as [sx|sx| |sx mx ex]; try discriminate;
    destruct y as [sy|sy| |sy my ey]; try discriminate.
  - assert (is_finite (fsub (S754_zero sx) (S754_zero sy)) = true
            /\ F2R (fsub (S754_zero sx) (S754_zero sy)) = 0%R) as [Hf Hv0]
        by (destruct sx, sy; split; reflexivity).
    destruct (Hexact _ Hf) as [_ Hb]; [unfold v; rewrite Hv0; simpl; lra|].
    split; [done|by intros _].
  - destruct (Hexact (S754_finite (negb sy) my ey) eq_refl) as [_ Hb].
    { unfold v. rewrite !F2R_finite. simpl. unfold sgn. destruct sy; simpl; lra. }
    split; [done|by intros _].
  - destruct (Hexact (S754_finite sx mx ex) eq_refl) as [_ Hb]; [unfold v; simpl; lra|].
    split; [done|by intros _].
  - unfold fsub, SFsub.
    set (ez := Z.min ex ey).
    pose proof (normalize_R
      (cond_Zopp sx (Z.pos (shl_align mx ex ez).1)
       - cond_Zopp sy (Z.pos (shl_align my ey ez).1)) ez) as Hn.
    rewrite minus_IZR, Rmult_minus_distr_r in Hn.
    rewrite !F2R_aligned in Hn by (unfold ez; lia).
    exact Hn.
Qed.

Lemma Rabs_between x a : (Rabs x <= a)%R -> (- a <= x <= a)%R.
Proof. unfold Rabs. destruct (Rcase_abs x); lra. Qed.

Lemma sgn_xorb s1 s2 : sgn (xorb s1 s2) = (sgn s1 * sgn s2)%R.
Proof. unfold sgn. destruct s1, s2; simpl; lra. Qed.

Lemma sgn_inv s : (/ sgn s = sgn s)%R.
Proof.
  unfold sgn. destruct s; [|apply Rinv_1].
  replace (-1)%R with (- (1))%R by lra. rewrite Rinv_opp, Rinv_1. lra.
Qed.

Lemma fdiv_R x sy my ey :
  is_finite x = true ->
  let y := S754_finite sy my ey in
  let v := (F2R x / F2R y)%R in
  ((Rabs v <= bpow 1000)%R -> is_finite (fdiv x y) = true)
  /\ (is_finite (fdiv x y) = true ->
      (Rabs (F2R (fdiv x y) - v) <= u_rel * Rabs v + u_abs)%R).
Proof.
  intros Hx y v. pose proof u_rel_pos as Hu. pose proof u_abs_pos as Heta.
  destruct x as [sx|sx| |sx mx ex]; try discriminate.
  { split; [reflexivity|]. intros _.
    assert (v = 0)%R as -> by (unfold v, Rdiv; simpl; lra).
    change (F2R (fdiv (S754_zero sx) y)) with 0%R.
    rewrite Rminus_diag, Rabs_R0. lra. }
  unfold fdiv, SFdiv, y.
  set (dx := Zdigits2 (Z.pos mx)). set (dy := Zdigits2 (Z.pos my)).
  destruct (SFdiv_core_quotient (Z.pos mx) ex (Z.pos my) ey ltac:(lia) ltac:(lia))
    as (l & Hcore).
  fold dx dy in Hcore. rewrite Hcore.
  set (D := dx + ex - (dy + ey)) in *.
  set (e' := Z.min (fexp 53 1024 D) (ex - ey)) in *.
  set (s := ex - ey - e') in *.
  assert (0 <= s) as Hs by (unfold s, e'; lia).
  set (q := Z.pos mx * 2 ^ s / Z.pos my) in *.
  (* the exact quotient *)
  set (X := (IZR (Z.pos mx) * bpow ex)%R).
  set (Y := (IZR (Z.pos my) * bpow ey)%R).
  assert (0 < X)%R as HX.
  { unfold X. apply Rmult_lt_0_compat; [apply IZR_lt; lia|apply bpow_pos]. }
  assert (0 < Y)%R as HY.
  { unfold Y. apply Rmult_lt_0_compat; [apply IZR_lt; lia|apply bpow_pos]. }
  set (Q := (X / Y)%R).
  assert (Q * Y = X)%R as HQ by (unfold Q; field; lra).
  assert (0 < Q)%R as HQ0 by (unfold Q; apply Rdiv_lt_0_compat; lra).
  assert (v = sgn (xorb sx sy) * Q)%R as Hv.
  { unfold v, y, Q. rewrite !F2R_finite, sgn_xorb. fold X Y.
    unfold Rdiv. rewrite Rinv_mult, sgn_inv. ring. }
  assert (Rabs v = Q) as Habs by (rewrite Hv; apply Rabs_sgn; lra).
  (* magnitude of the quotient *)
  assert (bpow (D - 1) < Q /\ Q < bpow (D + 1))%R as [HQlo HQhi].
  { pose proof (digits_bpow (Z.pos mx) ex ltac:(lia)) as Hxl.
    pose proof (digits_bpow_lt (Z.pos mx) ex ltac:(lia)) as Hxh.
    pose proof (digits_bpow (Z.pos my) ey ltac:(lia)) as Hyl.
    pose proof (digits_bpow_lt (Z.pos my) ey ltac:(lia)) as Hyh.
    fold dx X in Hxl, Hxh. fold dy Y in Hyl, Hyh.
    assert (bpow (dx + ex - 1) = bpow (D - 1) * bpow (dy + ey))%R as E1
        by (rewrite <- bpow_add; f_equal; unfold D; lia).
    assert (bpow (dx + ex) = bpow (D + 1) * bpow (dy + ey - 1))%R as E2
        by (rewrite <- bpow_add; f_equal; unfold D; lia).
    pose proof (bpow_pos (D - 1)). pose proof (bpow_pos (D + 1)).
    split.
    - apply (Rmult_lt_reg_r Y); [exact HY|]. rewrite HQ.
      apply Rlt_le_trans with (bpow (D - 1) * bpow (dy + ey))%R; [|lra].
      apply Rmult_lt_compat_l; lra.
    - apply (Rmult_lt_reg_r Y); [exact HY|]. rewrite HQ.
      apply Rlt_le_trans with (bpow (D + 1) * bpow (dy + ey - 1))%R; [lra|].
      apply Rmult_le_compat_l; lra. }
  (* the integer quotient against the exact one *)
  assert (0 <= q) as Hq0 by (unfold q; apply Z.div_pos; [|lia]; apply Z.mul_nonneg_nonneg; pow2_side).
  assert (IZR q * bpow e' <= Q /\ Q < (IZR q + 1) * bpow e')%R as [Hfl Hfu].
  { assert (X = IZR (Z.pos mx * 2 ^ s) * bpow e' * bpow ey)%R as EX.
    { unfold X. rewrite mult_IZR, <- bpow_IZR by lia.
      rewrite !Rmult_assoc, <- !bpow_add. do 2 f_equal. unfold s. lia. }
    pose proof (Z.mul_div_le (Z.pos mx * 2 ^ s) (Z.pos my) ltac:(lia)) as Hlo.
    pose proof (Z.mul_succ_div_gt (Z.pos mx * 2 ^ s) (Z.pos my) ltac:(lia)) as Hhi.
    fold q in Hlo, Hhi. apply IZR_le in Hlo. apply IZR_lt in Hhi.
    rewrite (mult_IZR (Z.pos my) q) in Hlo.
    rewrite (mult_IZR (Z.pos my) (Z.succ q)), succ_IZR in Hhi.
    pose proof (bpow_pos e') as He'. pose proof (bpow_pos ey) as Hey.
    assert (0 < bpow e' * bpow ey)%R as Hpp by (apply Rmult_lt_0_compat; lra).
    split.
    - apply (Rmult_le_reg_r Y); [exact HY|]. rewrite HQ, EX. unfold Y.
      replace (IZR q * bpow e' * (IZR (Z.pos my) * bpow ey))%R
        with (IZR (Z.pos my) * IZR q * (bpow e' * bpow ey))%R by ring.
      replace (IZR (Z.pos mx * 2 ^ s) * bpow e' * bpow ey)%R
        with (IZR (Z.pos mx * 2 ^ s) * (bpow e' * bpow ey))%R by ring.
      apply Rmult_le_compat_r; lra.
    - apply (Rmult_lt_reg_r Y); [exact HY|]. rewrite HQ, EX. unfold Y.
      replace ((IZR q + 1) * bpow e' * (IZR (Z.pos my) * bpow ey))%R
        with (IZR (Z.pos my) * (IZR q + 1) * (bpow e' * bpow ey))%R by ring.
      replace (IZR (Z.pos mx * 2 ^ s) * bpow e' * bpow ey)%R
        with (IZR (Z.pos mx * 2 ^ s) * (bpow e' * bpow ey))%R by ring.
      apply Rmult_lt_compat_r; lra. }
  (* the exponent the quotient is rounded at *)
  set (e1 := Z.max e' (fexp 53 1024 (Zdigits2 q + e'))).
  assert (e1 <= fexp 53 1024 (D + 1)) as He1.
  { assert (Zdigits2 q + e' <= Z.max (D + 1) e') as Hdq.
    { destruct (Z.eq_dec q 0) as [->|Hq]; [simpl; lia|].
      pose proof (digits_bpow q e' ltac:(lia)) as Hql.
      assert (Zdigits2 q + e' - 1 < D + 1) by (apply bpow_lt_inv; lra). lia. }
    unfold e1, e'. rewrite !fexp_eq. unfold e' in Hdq. rewrite fexp_eq in Hdq. lia. }
  assert (e' <= fexp 53 1024 (D + 1)) as He'1 by (unfold e1 in He1; lia).
  pose proof (bpow_le _ _ He1) as Hb1. pose proof (bpow_le _ _ He'1) as Hb2.
  assert (bpow (D + 1 - 1) <= 2 * Q)%R as HQ2.
  { replace (D + 1 - 1) with ((D - 1) + 1) by lia. rewrite bpow_succ. lra. }
  pose proof (fexp_budget (D + 1) (2 * Q) HQ2) as Hbud.
  destruct (round_aux_R (xorb sx sy) q e' l Hq0) as [Hfin Hval]. fold e1 in Hfin, Hval.
  split.
  - intros Hle. apply Hfin. rewrite Habs in Hle.
    assert (D - 1 < 1000) by (apply bpow_lt_inv; lra).
    rewrite fexp_eq in He1. lia.
  - intros Hf. destruct (Hval Hf) as (a & -> & Ha0 & Hnear).
    rewrite Habs, Hv, <- Rmult_minus_distr_l.
    assert (Rabs (sgn (xorb sx sy) * (a - Q)) = Rabs (a - Q)) as ->.
    { rewrite Rabs_mult. unfold sgn. destruct (xorb sx sy).
      - replace (-1)%R with (- (1))%R by lra. rewrite Rabs_Ropp, Rabs_R1. lra.
      - rewrite Rabs_R1. lra. }
    apply Rabs_between in Hnear. apply Rabs_le.
    unfold u_rel, u_abs. pose proof (bpow_pos (-52)). pose proof (bpow_pos (-1074)).
    pose proof (bpow_pos e'). pose proof (bpow_pos e1).
    split; nra.
Qed.

(** [float(n)] is exact below 2^53. *)
Lemma float_of_int_exact n :
  0 < n < 2 ^ 53 ->
  exists m e, float_of_int n = Ok (S754_finite false m e)
              /\ F2R (S754_finite false m e) = IZR n.
Proof.
  intros Hn. destruct n as [|p|p]; try lia.
  unfold float_of_int, binary_normalize, binary_round.
  pose proof (Zdigits2_bounds (Z.pos p) ltac:(lia)) as [Hlo Hhi].
  change (Z.pos (digits2_pos p)) with (Zdigits2 (Z.pos p)).
  set (d := Zdigits2 (Z.pos p)) in *.
  assert (1 <= d <= 53) as Hd.
  { split; [unfold d; simpl; lia|]. apply Zdigits2_le; lia. }
  rewrite fexp_eq.
  destruct (shl_align_spec p 0 (Z.max (d + 0 - 53) (-1074))) as [He Hm].
  destruct (shl_align p 0 (Z.max (d + 0 - 53) (-1074))) as [mz ez]. simpl in He, Hm.
  rewrite Z.min_r in He, Hm by lia. rewrite Z.max_l in He, Hm by lia.
  replace (0 - (d + 0 - 53)) with (53 - d) in Hm by lia.
  assert (2 ^ 52 <= Z.pos mz < 2 ^ 53) as Hmz.
  { assert (2 ^ 52 = 2 ^ (d - 1) * 2 ^ (53 - d)) as H52
        by (rewrite <- Z.pow_add_r by lia; f_equal; lia).
    assert (2 ^ 53 = 2 ^ d * 2 ^ (53 - d)) as H53
        by (rewrite <- Z.pow_add_r by lia; f_equal; lia).
    assert (0 < 2 ^ (53 - d)) by pow2_side.
    rewrite Hm, H52, H53.
    split; [apply Z.mul_le_mono_nonneg_r; lia|apply Z.mul_lt_mono_pos_r; lia]. }
  assert (Zdigits2 (Z.pos mz) = 53) as Hdz.
  { apply Z.le_antisymm; [apply Zdigits2_le; lia|apply Zdigits2_ge; [exact (proj1 Hmz)|lia]]. }
  assert (shr_fexp 53 1024 (Z.pos mz) ez loc_Exact
          = ({| shr_m := Z.pos mz; shr_r := false; shr_s := false |}, ez)) as Hshr.
  { unfold shr_fexp. rewrite Hdz, fexp_eq.
    replace (Z.max (53 + ez - 53) (-1074) - ez) with 0 by lia. reflexivity. }
  unfold binary_round_aux. rewrite Hshr. simpl. rewrite Hshr. simpl.
  replace (ez <=? 1024 - 53) with true by (symmetry; apply Z.leb_le; lia).
  exists mz, ez. split; [reflexivity|].
  change (IZR (Z.pos mz) * bpow ez = IZR (Z.pos p))%R.
  rewrite Hm, mult_IZR, He.
  replace (d + 0 - 53) with (- (53 - d)) by lia.
  rewrite <- bpow_IZR by lia. rewrite Rmult_assoc, <- bpow_add.
  replace (53 - d + - (53 - d)) with 0 by lia. change (bpow 0) with 1%R. ring.
Qed.

(** ** Numbers *)

Lemma bpow_neg_val k n :
  k <= 0 -> 2 ^ (- k) = n -> bpow k = (/ IZR n)%R.
Proof.
  intros Hk <-. assert (bpow k * bpow (- k) = 1)%R as H.
  { rewrite <- bpow_add. replace (k + - k) with 0 by lia. reflexivity. }
  rewrite (bpow_IZR (- k)) in H by lia.
  assert (0 < IZR (2 ^ (- k)))%R by (apply IZR_lt; pow2_side).
  apply (Rmult_eq_reg_r (IZR (2 ^ (- k)))); [|lra]. rewrite H. field. lra.
Qed.

Lemma u_rel_le : (u_rel <= 2 / 1000000000000000)%R.
Proof.
  unfold u_rel. rewrite (bpow_neg_val (-52) 4503599627370496) by (lia || reflexivity). lra.
Qed.

Lemma u_abs_le : (u_abs <= 1 / 1000000000000000)%R.
Proof.
  unfold u_abs. pose proof (bpow_le (-1074) (-60) ltac:(lia)) as H.
  rewrite (bpow_neg_val (-60) 1152921504606846976) in H by (lia || reflexivity). lra.
Qed.

Lemma bpow_1000_large : (1000000000000000 <= bpow 1000)%R.
Proof.
  pose proof (bpow_le 50 1000 ltac:(lia)) as H.
  rewrite (bpow_IZR 50) in H by lia.
  change (2 ^ 50) with 1125899906842624 in H. lra.
Qed.

(** From a bound on the rounded result back to the exact value. *)
Lemma unround v r B :
  (Rabs (r - v) <= u_rel * Rabs v + u_abs)%R -> (Rabs r <= B)%R -> (Rabs v <= B + B / 1000000 + 1 / 1000000)%R.
Proof.
  intros Hr HB. pose proof u_rel_le. pose proof u_abs_le.
  pose proof u_rel_pos. pose proof u_abs_pos.
  assert (0 <= B)%R by (pose proof (Rabs_pos r); lra).
  revert Hr HB. unfold Rabs.
  destruct (Rcase_abs (r - v)), (Rcase_abs v), (Rcase_abs r); intros; nra.
Qed.

(** From a bound on the exact value to the rounding error. *)
Lemma round_error v r B :
  (Rabs (r - v) <= u_rel * Rabs v + u_abs)%R -> (Rabs v <= B)%R ->
  (Rabs (r - v) <= (2 * B + 1) / 1000000000000000)%R.
Proof.
  intros Hr HB. pose proof u_rel_le. pose proof u_abs_le.
  pose proof u_rel_pos. pose proof u_abs_pos.
  pose proof (Rabs_pos v).
  eapply Rle_trans; [exact Hr|]. nra.
Qed.

(** ** Summation *)

Lemma Rsum_app xs ys : Rsum (xs ++ ys) = (Rsum xs + Rsum ys)%R.
Proof. induction xs as [|x xs IH]; simpl; [lra|]. rewrite IH. lra. Qed.

Lemma Rsum_bound B xs :
  Forall (bounded B) xs -> (Rabs (Rsum xs) <= INR (length xs) * B)%R.
Proof.
  induction 1 as [|x xs [_ Hx] _ IH].
  - simpl. rewrite Rabs_R0. lra.
  - cbn [Rsum fold_right length]. fold (Rsum xs). rewrite S_INR.
    eapply Rle_trans; [apply Rabs_triang|]. lra.
Qed.

(** The running sum of [sum]: each addition loses at most [eps], as long
    as the partial sums stay below [M]. *)
Lemma fold_fadd_R B M eps xs : forall acc A (j : nat),
  (0 <= B)%R -> (0 <= eps)%R -> (M <= bpow 1000)%R ->
  (u_rel * M + u_abs <= eps)%R ->
  Forall (bounded B) xs ->
  is_finite acc = true ->
  (Rabs (F2R acc - A) <= INR j * eps)%R ->
  (Rabs A <= INR j * B)%R ->
  (INR (j + length xs) * (B + eps) <= M)%R ->
  is_finite (fold_left fadd xs acc) = true
  /\ (Rabs (F2R (fold_left fadd xs acc) - (A + Rsum xs)) <= INR (j + length xs) * eps)%R.
Proof.
  induction xs as [|x xs IH]; intros acc A j HB He HM Heps Hxs Hacc Herr HA Hcap.
  - simpl. rewrite Nat.add_0_r, Rplus_0_r. done.
  - apply Forall_cons in Hxs as [[Hx HxB] Hxs].
    pose proof u_rel_pos as Hu. pose proof u_abs_pos as Heta.
    pose proof (pos_INR j) as Hj. pose proof (pos_INR (length xs)) as Hn.
    rewrite length_cons, plus_INR, S_INR in Hcap.
    set (v := (F2R acc + F2R x)%R).
    assert (Rabs v <= (INR j + 1) * (B + eps))%R as Hv.
    { unfold v. apply Rabs_between in Herr, HA, HxB. apply Rabs_le. split; nra. }
    assert (Rabs v <= M)%R as HvM by nra.
    destruct (fadd_R acc x Hacc Hx) as [Hfin Hval]. fold v in Hfin, Hval.
    assert (is_finite (fadd acc x) = true) as Hf by (apply Hfin; lra).
    specialize (Hval Hf).
    assert (Rabs (F2R (fadd acc x) - v) <= eps)%R as Hstep.
    { eapply Rle_trans; [exact Hval|]. pose proof (Rabs_pos v). nra. }
    destruct (IH (fadd acc x) (A + F2R x)%R (S j) HB He HM Heps Hxs Hf) as [Hfin' Hval'].
    + rewrite S_INR. unfold v in Hstep.
      apply Rabs_between in Herr, Hstep. apply Rabs_le. split; nra.
    + rewrite S_INR. apply Rabs_between in HA, HxB. apply Rabs_le. split; nra.
    + rewrite plus_INR, S_INR. lra.
    + cbn [fold_left Rsum fold_right]. fold (Rsum xs). split; [exact Hfin'|].
      rewrite length_cons, plus_INR, S_INR.
      rewrite plus_INR, S_INR in Hval'.
      replace (A + (F2R x + Rsum xs))%R with (A + F2R x + Rsum xs)%R by ring.
      replace (INR j + (INR (length xs) + 1))%R with (INR j + 1 + INR (length xs))%R by ring.
      exact Hval'.
Qed.

Lemma py_sum_R B M eps xs :
  (0 <= B)%R -> (0 <= eps)%R -> (M <= bpow 1000)%R ->
  (u_rel * M + u_abs <= eps)%R ->
  Forall (bounded B) xs ->
  (INR (length xs) * (B + eps) <= M)%R ->
  is_finite (py_sum xs) = true
  /\ (Rabs (F2R (py_sum xs) - Rsum xs) <= INR (length xs) * eps)%R.
Proof.
  intros HB He HM Heps Hxs Hcap.
  destruct (fold_fadd_R B M eps xs (S754_zero false) 0%R 0 HB He HM Heps Hxs eq_refl)
    as [Hfin Hval].
  - simpl. rewrite Rminus_diag, Rabs_R0. lra.
  - simpl. rewrite Rabs_R0. lra.
  - exact Hcap.
  - split; [exact Hfin|]. simpl in Hval. rewrite Rplus_0_l in Hval. exact Hval.
Qed.

Lemma Rdiv_abs_le a N e : (0 < N)%R -> (Rabs a <= N * e)%R -> (Rabs (a / N) <= e)%R.
Proof.
  intros HN Ha. apply Rabs_between in Ha. apply Rabs_le.
  assert (a / N * N = a)%R as H by (field; lra).
  split; apply Rmult_le_reg_r with N; try lra; rewrite H; lra.
Qed.

Lemma bounded_weaken B B' x : (B <= B')%R -> bounded B x -> bounded B' x.
Proof. intros HB [Hf Hx]. split; [exact Hf|lra]. Qed.

(** [sum(xs) / len(xs)] against the exact mean, for at most a million
    values of magnitude at most 10001. *)
Lemma float_mean_R xs :
  xs <> [] -> Z.of_nat (length xs) <= 1000000 ->
  Forall (bounded 10001) xs ->
  exists c, float_div_int (py_sum xs) (Z.of_nat (length xs)) = Ok c
            /\ bounded 10002 c
            /\ (Rabs (F2R c - Rmean xs) <= 1 / 10000)%R.
Proof.
  intros Hne Hlen Hxs.
  set (n := length xs) in *.
  assert (1 <= n)%nat as Hn1 by (unfold n; destruct xs; [done|simpl; lia]).
  assert (1 <= INR n <= 1000000)%R as [HN1 HN2].
  { rewrite INR_IZR_INZ. split; apply IZR_le; lia. }
  pose proof bpow_1000_large as Hbig.
  pose proof u_rel_le as Hu. pose proof u_abs_le as Heta.
  pose proof u_rel_pos as Hu0. pose proof u_abs_pos as Heta0.
  destruct (py_sum_R 10001 17179869184 (35 / 1000000) xs) as [Hsf Hs];
    try lra; try assumption.
  { fold n. nra. }
  fold n in Hs.
  pose proof (Rsum_bound _ _ Hxs) as Hsum. fold n in Hsum.
  destruct (float_of_int_exact (Z.of_nat n)) as (m & e & Hnf & Hnv).
  { change (2 ^ 53) with 9007199254740992. lia. }
  assert (F2R (S754_finite false m e) = INR n) as HN by (rewrite Hnv; symmetry; apply INR_IZR_INZ).
  unfold float_div_int. rewrite Hnf.
  replace (Z.of_nat n =? 0) with false by (symmetry; apply Z.eqb_neq; lia).
  exists (fdiv (py_sum xs) (S754_finite false m e)).
  split; [reflexivity|].
  destruct (fdiv_R (py_sum xs) false m e Hsf) as [Hfin Hval].
  cbv zeta in Hfin, Hval. rewrite HN in Hfin, Hval.
  set (S := F2R (py_sum xs)) in *. set (c := F2R (fdiv (py_sum xs) (S754_finite false m e))) in *.
  assert (Rabs (S / INR n - Rmean xs) <= 35 / 1000000)%R as Hmean.
  { unfold Rmean. fold n.
    replace (S / INR n - Rsum xs / INR n)%R with ((S - Rsum xs) / INR n)%R by (field; lra).
    apply Rdiv_abs_le; lra. }
  assert (Rabs (S / INR n) <= 10001 + 35 / 1000000)%R as Hv.
  { apply Rdiv_abs_le; [lra|].
    apply Rabs_between in Hs, Hsum. apply Rabs_le. split; nra. }
  assert (is_finite (fdiv (py_sum xs) (S754_finite false m e)) = true) as Hf
      by (apply Hfin; lra).
  specialize (Hval Hf).
  pose proof (round_error _ _ _ Hval Hv) as Herr.
  apply Rabs_between in Herr, Hmean, Hv.
  split; [split; [exact Hf|]|]; fold c; apply Rabs_le; split; lra.
Qed.

(** ** Coordinate fields in the reals *)

(** A sign and [k] thousandths, read by [float]. *)
Lemma decimal3_R neg k :
  0 <= k < 10 ^ 7 ->
  is_finite (float_of_decimal neg k (-3)) = true
  /\ (Rabs (F2R (float_of_decimal neg k (-3)) - sgn neg * (IZR k / 1000))
      <= 1 / 1000000000)%R.
Proof.
  intros Hk. change (10 ^ 7) with 10000000 in Hk.
  destruct k as [|p|p]; [| |lia].
  { split; [reflexivity|]. simpl. unfold Rdiv.
    rewrite Rmult_0_l, Rmult_0_r, Rminus_diag, Rabs_R0. lra. }
  unfold float_of_decimal.
  change (Z.to_pos (10 ^ Z.max (-3) 0)) with 1%positive.
  change (Z.to_pos (10 ^ Z.max (- -3) 0)) with 1000%positive.
  rewrite Pos.mul_1_r.
  destruct (fdiv_R (S754_finite neg p 0) false 1000 0 eq_refl) as [Hfin Hval].
  cbv zeta in Hfin, Hval. rewrite !F2R_finite in Hfin, Hval.
  change (bpow 0) with 1%R in Hfin, Hval. unfold sgn at 2 in Hfin. unfold sgn at 2 in Hval.
  unfold sgn at 3 in Hval.
  replace (sgn neg * (IZR (Z.pos p) * 1) / (1 * (1000 * 1)))%R
    with (sgn neg * (IZR (Z.pos p) / 1000))%R in Hfin, Hval by (field; lra).
  assert (1 <= IZR (Z.pos p) <= 10000000)%R as [Hp1 Hp2] by (split; apply IZR_le; lia).
  assert (Rabs (sgn neg * (IZR (Z.pos p) / 1000)) <= 10000)%R as Hv.
  { rewrite Rabs_sgn; lra. }
  pose proof bpow_1000_large.
  assert (is_finite (fdiv (S754_finite neg p 0) (S754_finite false 1000 0)) = true) as Hf
      by (apply Hfin; lra).
  split; [exact Hf|].
  pose proof (round_error _ _ _ (Hval Hf) Hv) as Herr.
  eapply Rle_trans; [exact Herr|]. lra.
Qed.

Lemma div_half_even_bound n d :
  0 <= n -> 0 < d -> 2 * Z.abs (div_half_even n d * d - n) <= d.
Proof.
  intros Hn Hd. unfold div_half_even.
  pose proof (Z.div_mod n d ltac:(lia)) as Hdm.
  pose proof (Z.mod_pos_bound n d Hd) as Hr.
  set (q := n / d) in *. set (r := n mod d) in *.
  destruct (Z.compare_spec (2 * r) d) as [He|Hl|Hg]; [destruct (Z.even q)| |]; lia.
Qed.

Lemma F2R_sign v :
  is_finite v = true -> F2R v = (sgn (sign_bit v) * Rabs (F2R v))%R.
Proof.
  destruct v as [s| | |s m e]; try discriminate; intros _.
  - simpl. rewrite Rabs_R0. lra.
  - rewrite F2R_finite. simpl sign_bit. rewrite Rabs_sgn; [reflexivity|].
    pose proof (bpow_pos e). assert (0 < IZR (Z.pos m))%R by (apply IZR_lt; lia). nra.
Qed.

(** The thousandths of a finite value are its magnitude times 1000, up to
    one half. *)
Lemma thousandths_R v :
  is_finite v = true ->
  (Rabs (IZR (thousandths v) - 1000 * Rabs (F2R v)) <= 1 / 2)%R.
Proof.
  destruct v as [s| | |s m e]; try discriminate; intros _.
  { simpl. rewrite Rabs_R0, Rmult_0_r, Rminus_diag, Rabs_R0. lra. }
  rewrite F2R_finite, Rabs_sgn.
  2:{ pose proof (bpow_pos e). assert (0 < IZR (Z.pos m))%R by (apply IZR_lt; lia). nra. }
  unfold thousandths.
  set (a := Z.max e 0). set (b := Z.max (- e) 0).
  set (N := Z.pos m * 1000 * 2 ^ a). set (d := 2 ^ b).
  assert (0 < d) as Hd by (unfold d, b; pow2_side).
  assert (0 <= N) as HN.
  { unfold N. apply Z.mul_nonneg_nonneg; [lia|unfold a; pow2_side]. }
  pose proof (div_half_even_bound N d HN Hd) as Hb.
  set (k := div_half_even N d) in *.
  assert (IZR N = 1000 * (IZR (Z.pos m) * bpow e) * IZR d)%R as HNd.
  { unfold N, d. rewrite !mult_IZR, <- !bpow_IZR by (unfold a, b; lia).
    assert (bpow a = bpow e * bpow b)%R as ->
        by (rewrite <- bpow_add; f_equal; unfold a, b; lia).
    ring. }
  assert (0 < IZR d)%R as Hd0 by (apply IZR_lt; lia).
  set (V := (IZR (Z.pos m) * bpow e)%R) in *.
  assert (2 * Rabs (IZR k * IZR d - IZR N) <= IZR d)%R as HbR.
  { rewrite <- mult_IZR, <- minus_IZR, <- abs_IZR.
    change 2%R with (IZR 2). rewrite <- mult_IZR. by apply IZR_le. }
  rewrite HNd in HbR.
  replace (IZR k * IZR d - 1000 * V * IZR d)%R with ((IZR k - 1000 * V) * IZR d)%R in HbR by ring.
  rewrite Rabs_mult, (Rabs_right (IZR d)) in HbR by lra.
  pose proof (Rabs_pos (IZR k - 1000 * V)). nra.
Qed.

Lemma fits_field_inv v :
  fits_field v = true -> is_finite v = true /\ 0 <= thousandths v < 10 ^ 7.
Proof.
  unfold fits_field. intros H. apply andb_prop in H as [Hf Hk].
  apply Z.leb_le in Hk. pose proof (thousandths_nonneg v).
  change (10 ^ 7) with 10000000. split; [exact Hf|]. destruct (sign_bit v); lia.
Qed.

Lemma fits_field_bounded v : fits_field v = true -> bounded 10001 v.
Proof.
  intros Hfit. destruct (fits_field_inv v Hfit) as [Hf Hk].
  split; [exact Hf|]. pose proof (thousandths_R v Hf) as Ht.
  change (10 ^ 7) with 10000000 in Hk.
  assert (IZR (thousandths v) <= 10000000)%R by (apply IZR_le; lia).
  apply Rabs_between in Ht. lra.
Qed.

(** Rendering and reading back moves a value by at most half a thousandth
    (and the rounding of the read). *)
Lemma reread_R v :
  fits_field v = true ->
  bounded 10001 (reread v)
  /\ (Rabs (F2R (reread v) - F2R v) <= 1 / 2000 + 1 / 1000000000)%R.
Proof.
  intros Hfit. destruct (fits_field_inv v Hfit) as [Hf Hk].
  destruct (decimal3_R (sign_bit v) (thousandths v) Hk) as [Hfin Hval].
  fold (reread v) in Hfin, Hval.
  pose proof (thousandths_R v Hf) as Ht. pose proof (F2R_sign v Hf) as Hs.
  pose proof (Rabs_pos (F2R v)) as Hv0.
  change (10 ^ 7) with 10000000 in Hk.
  assert (0 <= IZR (thousandths v) <= 10000000)%R as [Hk0 Hk1] by (split; apply IZR_le; lia).
  apply Rabs_between in Ht, Hval.
  set (K := IZR (thousandths v)) in *. set (A := Rabs (F2R v)) in *.
  set (r := F2R (reread v)) in *.
  assert (r - F2R v = (r - sgn (sign_bit v) * (K / 1000)) + sgn (sign_bit v) * (K / 1000 - A))%R
    as Hsplit by (rewrite Hs at 1; ring).
  split; [split; [exact Hfin|]|].
  - fold r. unfold sgn in *. apply Rabs_le. destruct (sign_bit v); split; lra.
  - rewrite Hsplit. unfold sgn in *. apply Rabs_le. destruct (sign_bit v); split; lra.
Qed.

(** What [float] reads from the rendering of a value that fits. *)
Lemma py_float_format v :
  fits_field v = true -> py_float (format_coordinate v) = Ok (reread v).
Proof.
  intros Hfit. destruct (format_3f_fits v Hfit) as [Hfmt Hk].
  unfold format_coordinate, rjust. rewrite Hfmt, fixed3_field_body.
  set (k := thousandths v) in *.
  assert (0 <= k) as Hk0 by lia.
  rewrite py_float_field;
    [|apply decimal_plain, Z.div_pos; lia
     |apply digit_char_is_digit, Z.mod_pos_bound; lia..].
  unfold reread. fold k. do 2 f_equal.
  rewrite digits_value_frac, digits_value_decimal by (apply Z.div_pos; lia).
  rewrite !digit_val_char by (apply Z.mod_pos_bound; lia).
  Z.to_euclidean_division_equations. lia.
Qed.

(** What [float] reads from a fixed field. *)
Lemma fixed_field_bounded s :
  is_fixed_field s = true -> exists x, py_float s = Ok x /\ bounded 10001 x.
Proof.
  intros Hs. destruct (fixed_field_value s Hs) as (neg & k & Hk & Hp & _).
  exists (float_of_decimal neg k (-3)). split; [exact Hp|].
  destruct (decimal3_R neg k Hk) as [Hf Hval]. split; [exact Hf|].
  change (10 ^ 7) with 10000000 in Hk.
  assert (0 <= IZR k <= 10000000)%R as [Hk0 Hk1] by (split; apply IZR_le; lia).
  apply Rabs_between in Hval. unfold sgn in Hval. apply Rabs_le.
  destruct neg; split; lra.
Qed.

(** ** Valid structures, moved *)

Lemma fixed_field_no_nl s : is_fixed_field s = true -> nl ∉ s.
Proof.
  intros Hs. destruct (fixed_field_value s Hs) as (neg & k & _ & _ & <-).
  apply format_coordinate_no_nl.
Qed.

Lemma fixed_field_dot s : is_fixed_field s = true -> s !! 4%nat = Some "."%char.
Proof.
  intros Hs.
  destruct (is_fixed_field_inv s Hs) as (n & neg & ip & a & b & c & -> & Hlen & _).
  unfold field_body in *. rewrite !app_assoc in *.
  apply list_lookup_middle. rewrite !length_app in Hlen. simpl in Hlen.
  rewrite !length_app. lia.
Qed.

(** A rendering cut to 8 characters is a fixed field only if nothing was
    cut: the value fits. *)
Lemma fixed_take_fits v :
  is_fixed_field (take 8 (format_coordinate v)) = true -> fits_field v = true.
Proof.
  intros Hfix. unfold fits_field.
  destruct (is_finite v) eqn:Hf.
  2:{ destruct v as [|[|]| |]; try discriminate; vm_compute in Hfix; discriminate. }
  simpl. apply Z.leb_le.
  destruct (Z_le_gt_dec (thousandths v) (if sign_bit v then 999999 else 9999999))
    as [|Hgt]; [assumption|exfalso].
  apply Z.gt_lt in Hgt. pose proof (fixed3_length_ge _ _ Hgt) as Hlen.
  assert (format_3f v = fixed3 (sign_bit v) (thousandths v)) as Hfmt by (by destruct v).
  apply fixed_field_dot in Hfix.
  unfold format_coordinate, rjust in Hfix. rewrite Hfmt in Hfix.
  replace (8 - length (fixed3 (sign_bit v) (thousandths v)))%nat with 0%nat in Hfix by lia.
  simpl replicate in Hfix. rewrite app_nil_l in Hfix.
  rewrite lookup_take_lt in Hfix by lia.
  rewrite fixed3_field_body in Hfix, Hlen. unfold field_body in Hfix, Hlen.
  rewrite !length_app in Hlen. simpl length in Hlen.
  pose proof (thousandths_nonneg v) as Hk.
  pose proof (decimal_digits (thousandths v / 1000) ltac:(apply Z.div_pos; lia)) as Hdig.
  set (ds := decimal (thousandths v / 1000)) in *.
  rewrite app_assoc, lookup_app_l in Hfix by (rewrite length_app; lia).
  apply list_elem_of_lookup_2, elem_of_app in Hfix as [Hin|Hin].
  - destruct (sign_bit v); simpl in Hin.
    + apply list_elem_of_singleton in Hin. discriminate.
    + by apply elem_of_nil in Hin.
  - rewrite forallb_forall in Hdig. apply list_elem_of_In, Hdig in Hin. discriminate.
Qed.

Lemma slice_field a pre f rest :
  length pre = a -> (8 <= length f)%nat ->
  slice a (a + 8) (pre ++ f ++ rest) = take 8 f.
Proof.
  intros Hpre Hf. unfold slice.
  rewrite drop_app_length' by done.
  replace (a + 8 - a)%nat with 8%nat by lia.
  by rewrite take_app_le.
Qed.

Lemma startswith_app a b pre :
  (length pre <= length a)%nat -> startswith (a ++ b) pre = startswith a pre.
Proof.
  revert a. induction pre as [|p pre IH]; intros a Hlen; [by destruct a, b|].
  destruct a as [|c a]; simpl in *; [lia|]. rewrite IH by lia. reflexivity.
Qed.

Lemma is_atom_line_new_line line x y z :
  (30 <= length line)%nat -> is_atom_line (new_line line x y z) = is_atom_line line.
Proof.
  intros Hlen. unfold is_atom_line, new_line.
  assert (length (take 30 line) = 30%nat) as Hpre by (rewrite length_take; lia).
  assert (forall pre, (length pre <= 30)%nat ->
            startswith line pre = startswith (take 30 line) pre) as Hstart.
  { intros pre Hp. rewrite <- (take_drop 30 line) at 1. apply startswith_app. lia. }
  rewrite !startswith_app by (rewrite Hpre; vm_compute; lia).
  by rewrite !(Hstart (lit _)) by (vm_compute; lia).
Qed.

Lemma valid_atom_line_coords line :
  valid_atom_line line = true ->
  (54 <= length line)%nat
  /\ exists c, line_coords line = Ok c /\ bounded3 10001 c.
Proof.
  unfold valid_atom_line. intros H.
  apply andb_prop in H as [H Hz]. apply andb_prop in H as [Hx Hy].
  split.
  { apply fixed_field_length in Hz. unfold slice in Hz.
    rewrite length_take, length_drop in Hz. lia. }
  destruct (fixed_field_bounded _ Hx) as (x & Hpx & Hbx).
  destruct (fixed_field_bounded _ Hy) as (y & Hpy & Hby).
  destruct (fixed_field_bounded _ Hz) as (z & Hpz & Hbz).
  exists (x, y, z). unfold line_coords. rewrite Hpx, Hpy, Hpz. by split.
Qed.

(** A geometry line of a valid structure, moved, is a geometry line of a
    valid structure only if the three moved values fit their fields; they
    are then read back as [reread3] tells. *)
Lemma valid_new_line line v :
  (54 <= length line)%nat ->
  valid_atom_line (new_line line v.1.1 v.1.2 v.2) = true ->
  fits3 v = true /\ line_coords (new_line line v.1.1 v.1.2 v.2) = Ok (reread3 v).
Proof.
  destruct v as [[vx vy] vz]. simpl. intros Hlen Hvalid.
  unfold valid_atom_line in Hvalid.
  apply andb_prop in Hvalid as [Hvalid Hz]. apply andb_prop in Hvalid as [Hx Hy].
  assert (length (take 30 line) = 30%nat) as Hpre by (rewrite length_take; lia).
  pose proof (format_coordinate_length_ge vx) as Hlx.
  pose proof (format_coordinate_length_ge vy) as Hly.
  pose proof (format_coordinate_length_ge vz) as Hlz.
  unfold new_line in Hx. rewrite (slice_field 30) in Hx by assumption.
  apply fixed_take_fits in Hx.
  destruct (format_coordinate_fits vx Hx) as [Hx8 _].
  unfold new_line in Hy. rewrite (app_assoc (take 30 line)) in Hy.
  rewrite (slice_field 38) in Hy by (rewrite ?length_app; lia).
  apply fixed_take_fits in Hy.
  destruct (format_coordinate_fits vy Hy) as [Hy8 _].
  unfold new_line in Hz.
  rewrite (app_assoc (take 30 line)), (app_assoc (take 30 line ++ _)) in Hz.
  rewrite (slice_field 46) in Hz by (rewrite ?length_app; lia).
  apply fixed_take_fits in Hz.
  destruct (format_coordinate_fits vz Hz) as [Hz8 _].
  split; [unfold fits3; simpl; by rewrite Hx, Hy, Hz|].
  unfold line_coords, new_line.
  destruct (slices_of_new_line (take 30 line) _ _ _ (drop 54 line) Hpre Hx8 Hy8 Hz8)
    as (-> & -> & ->).
  by rewrite !py_float_format.
Qed.

Lemma moved_atom_coords tr lines :
  forallb valid_line lines = true ->
  forallb valid_line (map (moved_line tr) lines) = true ->
  atom_coords (map (moved_line tr) lines)
  = map (fun c => reread3 (shift tr c)) (atom_coords lines)
  /\ Forall (bounded3 10001) (atom_coords lines)
  /\ Forall (fun c => fits3 (shift tr c) = true) (atom_coords lines).
Proof.
  induction lines as [|line lines IH]; simpl; [done|].
  intros Hin Hout.
  apply andb_prop in Hin as [Hl Hin]. apply andb_prop in Hout as [Hl' Hout].
  destruct (IH Hin Hout) as (IHc & IHb & IHf).
  unfold valid_line in Hl. unfold moved_line at 1 2. unfold moved_line in Hl'.
  destruct (is_atom_line line) eqn:Hatom; simpl in Hl; [|by rewrite Hatom].
  destruct (valid_atom_line_coords line Hl) as (Hlen & c & Hc & Hb).
  rewrite Hc in Hl' |- *.
  unfold valid_line in Hl'. rewrite is_atom_line_new_line in Hl' |- * by lia.
  rewrite Hatom in Hl' |- *. simpl in Hl'.
  destruct (valid_new_line line (shift tr c) Hlen Hl') as [Hfit Hread].
  simpl in Hread. rewrite Hread. simpl.
  split; [by rewrite IHc|]. split; by constructor.
Qed.

Lemma valid_line_span b line :
  is_line b line -> valid_line line = true ->
  is_atom_line line = true -> nl ∉ take 54 line.
Proof.
  intros (body & Hnl & -> & _) Hvalid Hatom.
  unfold valid_line in Hvalid. rewrite Hatom in Hvalid. simpl in Hvalid.
  unfold valid_atom_line in Hvalid. apply andb_prop in Hvalid as [_ Hz].
  pose proof (fixed_field_length _ Hz) as Hlen.
  pose proof (fixed_field_no_nl _ Hz) as Hno.
  unfold slice in Hlen, Hno. rewrite length_take, length_drop in Hlen.
  destruct (le_lt_dec 54 (length body)) as [Hge|Hlt].
  - rewrite take_app_le by lia. intros Hin. by apply subseteq_take in Hin.
  - exfalso. destruct b; rewrite length_app in Hlen; simpl length in Hlen; [|lia].
    apply Hno. rewrite drop_app_le by lia.
    rewrite take_ge by (rewrite length_app, length_drop; simpl length; lia).
    apply elem_of_app. right. by apply list_elem_of_singleton.
Qed.

Lemma lines_wf_span lines :
  lines_wf lines -> forallb valid_line lines = true ->
  Forall (fun line => is_atom_line line = true -> nl ∉ take 54 line) lines.
Proof.
  induction 1 as [|l Hl|l ls Hl _ IH]; simpl; intros Hvalid.
  - constructor.
  - apply andb_prop in Hvalid as [Hv _]. constructor; [|constructor].
    by apply (valid_line_span false).
  - apply andb_prop in Hvalid as [Hv Hvs]. constructor; [|by apply IH].
    by apply (valid_line_span true).
Qed.

(** ** The centroid of the output *)

Lemma fadd_finite_inv x y :
  is_finite (fadd x y) = true -> is_finite x = true /\ is_finite y = true.
Proof. destruct x as [|[|]| |], y as [|[|]| |]; simpl; try discriminate; done. Qed.

Lemma fsub_finite_inv x y :
  is_finite (fsub x y) = true -> is_finite x = true /\ is_finite y = true.
Proof. destruct x as [|[|]| |], y as [|[|]| |]; simpl; try discriminate; done. Qed.

Lemma Rsum_map_near (f : float -> float) d e xs :
  Forall (fun x => (Rabs (F2R (f x) - (F2R x + d)) <= e)%R) xs ->
  (Rabs (Rsum (map f xs) - (Rsum xs + INR (length xs) * d)) <= INR (length xs) * e)%R.
Proof.
  induction 1 as [|x xs Hx _ IH].
  - simpl. rewrite Rmult_0_l, Rplus_0_r, Rminus_diag, Rabs_R0. lra.
  - cbn [map Rsum fold_right length]. fold (Rsum xs). fold (Rsum (map f xs)).
    rewrite S_INR. apply Rabs_between in Hx, IH. apply Rabs_le. split; lra.
Qed.

Lemma center_axes coords :
  center coords
  = (center_x ← axis_mean (map (fun c : coord => c.1.1) coords);
     center_y ← axis_mean (map (fun c : coord => c.1.2) coords);
     center_z ← axis_mean (map (fun c : coord => c.2) coords);
     Ok (center_x, center_y, center_z)).
Proof. unfold center, axis_mean. by rewrite !length_map. Qed.

(** One axis: the mean of the values read back from the output is within
    7/10000 of the target. *)
Lemma axis_R xs t c :
  xs <> [] -> Z.of_nat (length xs) <= 1000000 ->
  Forall (bounded 10001) xs ->
  axis_mean xs = Ok c ->
  Forall (fun x => fits_field (fadd x (fsub t c)) = true) xs ->
  exists c', axis_mean (map (fun x => reread (fadd x (fsub t c))) xs) = Ok c'
             /\ near (1 / 1000) c' t.
Proof.
  intros Hne Hlen Hxs Hc Hfit.
  set (tr := fsub t c) in *.
  destruct (float_mean_R xs Hne Hlen Hxs) as (c0 & Hc0 & [Hcf HcB] & Hcm).
  unfold axis_mean in Hc. rewrite Hc0 in Hc. injection Hc as ->.
  set (n := INR (length xs)) in *.
  assert (1 <= n)%R as Hn.
  { unfold n. destruct xs; [done|]. rewrite length_cons, S_INR.
    pose proof (pos_INR (length xs)). lra. }
  (* each moved value *)
  assert (Forall (fun x => is_finite tr = true
                           /\ (Rabs (F2R x + F2R tr) <= 10002)%R
                           /\ bounded 10001 (reread (fadd x tr))
                           /\ (Rabs (F2R (reread (fadd x tr)) - (F2R x + F2R tr))
                               <= 1 / 2000 + 2 / 1000000000)%R) xs) as Hall.
  { rewrite Forall_forall in Hxs, Hfit |- *. intros x Hin.
    specialize (Hxs x Hin) as [Hxf HxB]. specialize (Hfit x Hin).
    destruct (fits_field_bounded _ Hfit) as [Hvf HvB].
    destruct (fadd_finite_inv _ _ Hvf) as [_ Htrf].
    destruct (fadd_R x tr Hxf Htrf) as [_ Hval]. specialize (Hval Hvf).
    pose proof (unround _ _ _ Hval HvB) as Hexact.
    assert (Rabs (F2R x + F2R tr) <= 10002)%R as Hexact' by lra.
    pose proof (round_error _ _ _ Hval Hexact') as Herr.
    destruct (reread_R _ Hfit) as [Hyb Hy].
    split; [exact Htrf|]. split; [exact Hexact'|]. split; [exact Hyb|].
    apply Rabs_between in Herr, Hy. apply Rabs_le. split; lra. }
  (* the translation *)
  assert (is_finite tr = true /\ (Rabs (F2R tr) <= 20003)%R) as [Htrf HtrB].
  { destruct xs as [|x xs]; [done|].
    apply Forall_cons in Hall as [(Htrf & Hx & _) _].
    apply Forall_cons in Hxs as [[_ HxB] _].
    split; [exact Htrf|].
    apply Rabs_between in Hx, HxB. apply Rabs_le. split; lra. }
  destruct (fsub_finite_inv _ _ Htrf) as [Htf _].
  destruct (fsub_R t c Htf Hcf) as [_ Htr]. fold tr in Htr. specialize (Htr Htrf).
  pose proof (unround _ _ _ Htr HtrB) as Htc.
  assert (Rabs (F2R t - F2R c) <= 20004)%R as Htc' by lra.
  pose proof (round_error _ _ _ Htr Htc') as Htrerr.
  (* the values read back *)
  set (ys := map (fun x => reread (fadd x tr)) xs).
  assert (length ys = length xs) as Hlys by (unfold ys; apply length_map).
  assert (Forall (bounded 10001) ys) as Hys.
  { unfold ys. rewrite Forall_fmap. eapply Forall_impl; [exact Hall|].
    by intros x (_ & _ & Hb & _). }
  assert (ys <> []) as Hyne by (intros Hnil; rewrite Hnil in Hlys; by destruct xs).
  destruct (float_mean_R ys Hyne ltac:(rewrite Hlys; exact Hlen) Hys)
    as (c' & Hc' & [Hc'f _] & Hc'm).
  exists c'. split; [exact Hc'|].
  split; [exact Hc'f|]. split; [exact Htf|].
  assert (Rabs (Rsum ys - (Rsum xs + n * F2R tr)) <= n * (1 / 2000 + 2 / 1000000000))%R
    as Hsum.
  { apply Rsum_map_near. eapply Forall_impl; [exact Hall|]. by intros x (_ & _ & _ & H). }
  assert (Rabs (Rmean ys - (Rmean xs + F2R tr)) <= 1 / 2000 + 2 / 1000000000)%R as Hmean.
  { unfold Rmean. rewrite Hlys. fold n.
    replace (Rsum ys / n - (Rsum xs / n + F2R tr))%R
      with ((Rsum ys - (Rsum xs + n * F2R tr)) / n)%R by (field; lra).
    apply Rdiv_abs_le; [lra|exact Hsum]. }
  apply Rabs_between in Hcm, Hc'm, Hmean, Htrerr. apply Rabs_le. split; lra.
Qed.

Lemma map_axis_moved (g : coord -> float) (h : coord -> float) tr (f : float -> float) coords :
  (forall c, g (reread3 (shift tr c)) = f (h c)) ->
  map g (map (fun c => reread3 (shift tr c)) coords) = map f (map h coords).
Proof. intros Hg. rewrite <- !list_fmap_compose. apply list_fmap_ext. intros _ c _. apply Hg. Qed.

(** The centroid of a valid structure once moved, when the moved text is
    again a valid structure. *)
Lemma moved_centroid tx ty tz c lines :
  lines_wf lines ->
  forallb valid_line lines = true ->
  Z.of_nat (length lines) <= 1000000 ->
  atom_coords lines <> [] ->
  center (atom_coords lines) = Ok c ->
  forallb valid_line (readlines (moved_text (tx, ty, tz) c lines)) = true ->
  exists c', text_centroid (moved_text (tx, ty, tz) c lines) = Ok c'
             /\ near3 (1 / 1000) c' (tx, ty, tz).
Proof.
  intros Hwf Hvalid Hlen Hne Hc Hvalid'.
  unfold moved_text in *.
  set (tr := translation (tx, ty, tz) c) in *.
  assert (readlines (concat (map (moved_line tr) lines)) = map (moved_line tr) lines) as Hread.
  { apply readlines_concat, moved_lines_wf; [exact Hwf|].
    apply lines_wf_span; [exact Hwf|exact Hvalid]. }
  rewrite Hread in Hvalid'.
  destruct (moved_atom_coords tr lines Hvalid Hvalid') as (Hcoords & Hb & Hfit).
  set (coords := atom_coords lines) in *.
  assert (Z.of_nat (length coords) <= 1000000) as Hn.
  { pose proof (atom_coords_length lines). fold coords in H. lia. }
  unfold text_centroid. rewrite Hread.
  rewrite scan_atoms_ok by (by apply valid_lines_ok).
  simpl. rewrite Hcoords.
  assert (forall h : coord -> float, map h coords <> []) as Hmne.
  { intros h Hnil. apply Hne. apply (f_equal length) in Hnil.
    rewrite length_map in Hnil. by destruct coords. }
  destruct (map (fun c => reread3 (shift tr c)) coords) as [|d ds] eqn:Hm.
  { exfalso. apply Hne. apply (f_equal length) in Hm.
    rewrite length_map in Hm. by destruct coords. }
  rewrite <- Hm.
  (* the three axes *)
  rewrite center_axes in Hc.
  destruct (axis_mean (map (fun c : coord => c.1.1) coords)) as [cx|] eqn:Hcx; [|discriminate].
  destruct (axis_mean (map (fun c : coord => c.1.2) coords)) as [cy|] eqn:Hcy; [|discriminate].
  destruct (axis_mean (map (fun c : coord => c.2) coords)) as [cz|] eqn:Hcz; [|discriminate].
  simpl in Hc. injection Hc as <-.
  assert (forall h : coord -> float, Z.of_nat (length (map h coords)) <= 1000000) as Hmlen
      by (intros h; by rewrite length_map).
  destruct (axis_R (map (fun c : coord => c.1.1) coords) tx cx (Hmne _) (Hmlen _)) as (cx' & Hcx' & Hnx);
    [rewrite Forall_fmap; eapply Forall_impl; [exact Hb|]; by intros p (H & _ & _)
    |exact Hcx
    |rewrite Forall_fmap; eapply Forall_impl; [exact Hfit|]; intros p H;
       unfold fits3 in H; apply andb_prop in H as [H _]; by apply andb_prop in H as [H _]|].
  destruct (axis_R (map (fun c : coord => c.1.2) coords) ty cy (Hmne _) (Hmlen _)) as (cy' & Hcy' & Hny);
    [rewrite Forall_fmap; eapply Forall_impl; [exact Hb|]; by intros p (_ & H & _)
    |exact Hcy
    |rewrite Forall_fmap; eapply Forall_impl; [exact Hfit|]; intros p H;
       unfold fits3 in H; apply andb_prop in H as [H _]; by apply andb_prop in H as [_ H]|].
  destruct (axis_R (map (fun c : coord => c.2) coords) tz cz (Hmne _) (Hmlen _)) as (cz' & Hcz' & Hnz);
    [rewrite Forall_fmap; eapply Forall_impl; [exact Hb|]; by intros p (_ & _ & H)
    |exact Hcz
    |rewrite Forall_fmap; eapply Forall_impl; [exact Hfit|]; intros p H;
       unfold fits3 in H; by apply andb_prop in H as [_ H]|].
  exists (cx', cy', cz'). split; [|by split].
  rewrite center_axes.
  rewrite (map_axis_moved (fun c : coord => c.1.1) (fun c : coord => c.1.1) tr
             (fun x => reread (fadd x (fsub tx cx)))) by reflexivity.
  rewrite (map_axis_moved (fun c : coord => c.1.2) (fun c : coord => c.1.2) tr
             (fun x => reread (fadd x (fsub ty cy)))) by reflexivity.
  rewrite (map_axis_moved (fun c : coord => c.2) (fun c : coord => c.2) tr
             (fun x => reread (fadd x (fsub tz cz)))) by reflexivity.
  rewrite Hcx', Hcy', Hcz'. reflexivity.
Qed.

(** After a successful run on a valid structure of at most a million
    lines whose output is again a valid structure (no moved coordinate
    outgrew its 8-character field), the target is finite and the centroid
    computed from the output file, as the program itself would compute it,
    is finite and within one thousandth of the target on each axis. *)
Theorem recentred_centroid_accuracy inp out tx ty tz w w' t t' :
  nodes w !! inp = Some (File t) ->
  forallb valid_line (readlines t) = true ->
  Z.of_nat (length (readlines t)) <= 1000000 ->
  reposition_ligand inp out tx ty tz w = (Ok true, w') ->
  nodes w' !! out = Some (File t') ->
  forallb valid_line (readlines t') = true ->
  exists c', text_centroid t' = Ok c' /\ near3 (1 / 1000) c' (tx, ty, tz).
Proof.
  intros Hin Hvalid Hlen Hrun Hout Hvalid'.
  destruct (reposition_ligand_success _ _ _ _ _ _ _ Hrun)
    as (t0 & c & others & Hin0 & Hok & Hne & Hc & _ & ->).
  rewrite Hin in Hin0. injection Hin0 as <-.
  simpl in Hout. rewrite lookup_insert_eq in Hout. injection Hout as <-.
  apply moved_centroid; try assumption. apply readlines_wf.
Qed.

Lemma recentred_centroid_accuracy_witness :
  exists c', text_centroid two_atoms_moved = Ok c'
             /\ near3 (1 / 1000) c' (flt "10", flt "10", flt "10").
Proof.
  apply (recentred_centroid_accuracy "in.pdbqt" "out.pdbqt" (flt "10") (flt "10") (flt "10")
           (world_of two_atoms_text)
           (with_nodes (<["out.pdbqt"%string := File two_atoms_moved]>
                          (nodes (world_of two_atoms_text))) (world_of two_atoms_text))
           two_atoms_text two_atoms_moved).
  - reflexivity.
  - vm_compute. reflexivity.
  - vm_compute. discriminate.
  - vm_compute. reflexivity.
  - reflexivity.
  - vm_compute. reflexivity.
Defined.

(** ** The centroid after repositioning *)





(** ** Repositioning onto the structure's own centroid *)

Lemma fixed_field_float s :
  is_fixed_field s = true -> exists x, py_float s = Ok x /\ field_float x.
Proof.
  intros Hs.
  destruct (is_fixed_field_inv s Hs)
    as (n & neg & ip & a & b & c & -> & Hlen & Hip & Ha & Hb & Hc).
  exists (float_of_decimal neg (digits_value (ip ++ [a; b; c])) (-3)).
  split; [by apply py_float_field|].
  exists neg, (digits_value (ip ++ [a; b; c])). split; [|reflexivity].
  destruct (plain_int_head ip Hip) as (c0 & r & Hipeq & _ & Hdig).
  pose proof (digits_value_range ip Hdig) as Hv.
  pose proof (digit_val_range a Ha). pose proof (digit_val_range b Hb).
  pose proof (digit_val_range c Hc).
  rewrite length_app, length_replicate in Hlen. unfold field_body in Hlen.
  rewrite !length_app in Hlen. simpl length in Hlen.
  rewrite digits_value_frac.
  destruct neg; simpl length in Hlen.
  - assert (10 ^ Z.of_nat (length ip) <= 10 ^ 3) as Hpow by (apply Z.pow_le_mono_r; lia).
    change (10 ^ 3) with 1000 in Hpow. lia.
  - assert (10 ^ Z.of_nat (length ip) <= 10 ^ 4) as Hpow by (apply Z.pow_le_mono_r; lia).
    change (10 ^ 4) with 10000 in Hpow. lia.
Qed.

Lemma field_float_R x :
  field_float x ->
  exists (neg : bool) (k : Z),
    0 <= k <= (if neg then 999999 else 9999999)
    /\ x = float_of_decimal neg k (-3)
    /\ is_finite x = true
    /\ (Rabs (F2R x - sgn neg * (IZR k / 1000)) <= 1 / 1000000000)%R.
Proof.
  intros (neg & k & Hk & ->). exists neg, k.
  destruct (decimal3_R neg k) as [Hf Hval].
  { change (10 ^ 7) with 10000000. destruct neg; lia. }
  split; [exact Hk|]. split; [reflexivity|]. split; [exact Hf|exact Hval].
Qed.

Lemma field_float_bounded x : field_float x -> bounded 10001 x.
Proof.
  intros Hx. destruct (field_float_R x Hx) as (neg & k & Hk & _ & Hf & Hval).
  split; [exact Hf|].
  assert (0 <= IZR k <= 9999999)%R as [Hk0 Hk1].
  { split; apply IZR_le; destruct neg; lia. }
  apply Rabs_between in Hval. unfold sgn in Hval. apply Rabs_le.
  destruct neg; split; lra.
Qed.

Lemma thousandths_unique v k :
  is_finite v = true ->
  (Rabs (1000 * Rabs (F2R v) - IZR k) < 1 / 2)%R ->
  thousandths v = k.
Proof.
  intros Hf Hk. pose proof (thousandths_R v Hf) as Ht.
  apply Rabs_between in Ht. apply Rabs_def2 in Hk.
  assert (IZR (thousandths v - k) < IZR 1)%R as Hlt by (rewrite minus_IZR; lra).
  assert (IZR (-1) < IZR (thousandths v - k))%R as Hgt by (rewrite minus_IZR; lra).
  apply lt_IZR in Hlt, Hgt. lia.
Qed.

Lemma sign_of_F2R v :
  is_finite v = true ->
  ((F2R v < 0)%R -> sign_bit v = true) /\ ((0 < F2R v)%R -> sign_bit v = false).
Proof.
  destruct v as [s| | |s m e]; try discriminate; intros _.
  - simpl. split; intros; lra.
  - rewrite F2R_finite. simpl sign_bit.
    assert (0 < IZR (Z.pos m) * bpow e)%R as Hpos.
    { apply Rmult_lt_0_compat; [apply IZR_lt; lia|apply bpow_pos]. }
    unfold sgn. destruct s; split; intros; try reflexivity; lra.
Qed.

Lemma feqb_refl x : is_finite x = true -> feqb x x = true.
Proof.
  destruct x as [[|]| | |s m e]; try discriminate; intros _;
    [reflexivity..|apply feqb_refl_finite].
Qed.

(** A field's value moved by less than a third of a thousandth is
    rendered as the same number. *)
Lemma field_float_unmoved x tr :
  field_float x -> is_finite tr = true -> (Rabs (F2R tr) <= 3 / 10000)%R ->
  fits_field (fadd x tr) = true /\ feqb (reread (fadd x tr)) x = true.
Proof.
  intros Hx Htr HtrB.
  destruct (field_float_R x Hx) as (neg & k & Hk & Hxeq & Hxf & Hxv).
  assert (0 <= IZR k <= 9999999)%R as [Hk0 Hk1].
  { split; apply IZR_le; destruct neg; lia. }
  pose proof bpow_1000_large as Hbig.
  destruct (fadd_R x tr Hxf Htr) as [Hfin Hval].
  set (X := F2R x) in *. set (T := F2R tr) in *. set (K := IZR k) in *.
  apply Rabs_between in Hxv, HtrB.
  assert (Rabs (X + T) <= 10001)%R as Hexact.
  { unfold sgn in Hxv. apply Rabs_le. destruct neg; split; lra. }
  assert (is_finite (fadd x tr) = true) as Hvf by (apply Hfin; lra).
  pose proof (round_error _ _ _ (Hval Hvf) Hexact) as Herr.
  set (V := F2R (fadd x tr)) in *. apply Rabs_between in Herr.
  assert (Rabs (V - sgn neg * (K / 1000)) <= 31 / 100000)%R as Hnear.
  { apply Rabs_le. split; lra. }
  assert (thousandths (fadd x tr) = k) as Hth.
  { apply thousandths_unique; [exact Hvf|]. fold V K.
    apply Rabs_between in Hnear. unfold sgn in Hnear.
    apply Rabs_def1; unfold Rabs; destruct (Rcase_abs V); destruct neg; lra. }
  destruct (Z.eq_dec k 0) as [->|Hk0'].
  - split.
    + unfold fits_field. rewrite Hvf, Hth. by destruct (sign_bit (fadd x tr)).
    + unfold reread. rewrite Hth, Hxeq. simpl.
      by destruct (sign_bit (fadd x tr)), neg.
  - assert (1 <= K)%R as HK1 by (apply IZR_le; lia).
    assert (sign_bit (fadd x tr) = neg) as Hsign.
    { destruct (sign_of_F2R _ Hvf) as [Hn Hp]. fold V in Hn, Hp.
      apply Rabs_between in Hnear. unfold sgn in Hnear.
      destruct neg; [apply Hn|apply Hp]; lra. }
    split.
    + unfold fits_field. rewrite Hvf, Hth, Hsign. simpl. apply Z.leb_le. lia.
    + unfold reread. rewrite Hth, Hsign, <- Hxeq. by apply feqb_refl.
Qed.

(** The translation the program computes when the target is the exact
    centroid up to 1/10000: finite and below 3/10000. *)
Lemma axis_on_centroid xs t c :
  xs <> [] -> Z.of_nat (length xs) <= 1000000 ->
  Forall field_float xs ->
  axis_mean xs = Ok c ->
  at_mean (1 / 10000) xs t ->
  is_finite (fsub t c) = true /\ (Rabs (F2R (fsub t c)) <= 3 / 10000)%R.
Proof.
  intros Hne Hlen Hxs Hc [Htf Htm].
  assert (Forall (bounded 10001) xs) as Hb
      by (eapply Forall_impl; [exact Hxs|apply field_float_bounded]).
  destruct (float_mean_R xs Hne Hlen Hb) as (c0 & Hc0 & [Hcf _] & Hcm).
  unfold axis_mean in Hc. rewrite Hc0 in Hc. injection Hc as ->.
  pose proof bpow_1000_large as Hbig.
  destruct (fsub_R t c Htf Hcf) as [Hfin Hval].
  apply Rabs_between in Htm, Hcm.
  assert (Rabs (F2R t - F2R c) <= 1)%R as Hexact by (apply Rabs_le; split; lra).
  assert (is_finite (fsub t c) = true) as Hf by (apply Hfin; lra).
  split; [exact Hf|].
  pose proof (round_error _ _ _ (Hval Hf) Hexact) as Herr.
  apply Rabs_between in Herr. apply Rabs_le. split; lra.
Qed.

Lemma valid_atom_line_fields line :
  valid_atom_line line = true ->
  (54 <= length line)%nat /\ exists p, line_coords line = Ok p /\ field_coord p.
Proof.
  unfold valid_atom_line. intros H.
  apply andb_prop in H as [H Hz]. apply andb_prop in H as [Hx Hy].
  split.
  { apply fixed_field_length in Hz. unfold slice in Hz.
    rewrite length_take, length_drop in Hz. lia. }
  destruct (fixed_field_float _ Hx) as (x & Hpx & Hfx).
  destruct (fixed_field_float _ Hy) as (y & Hpy & Hfy).
  destruct (fixed_field_float _ Hz) as (z & Hpz & Hfz).
  exists (x, y, z). unfold line_coords. rewrite Hpx, Hpy, Hpz. by split.
Qed.

Lemma new_line_coords line v :
  (54 <= length line)%nat -> fits3 v = true ->
  line_coords (new_line line v.1.1 v.1.2 v.2) = Ok (reread3 v).
Proof.
  destruct v as [[vx vy] vz]. unfold fits3. simpl. intros Hlen Hfit.
  apply andb_prop in Hfit as [Hfit Hz]. apply andb_prop in Hfit as [Hx Hy].
  destruct (format_coordinate_fits vx Hx) as [Hx8 _].
  destruct (format_coordinate_fits vy Hy) as [Hy8 _].
  destruct (format_coordinate_fits vz Hz) as [Hz8 _].
  unfold line_coords, new_line.
  destruct (slices_of_new_line (take 30 line) _ _ _ (drop 54 line)
              ltac:(rewrite length_take; lia) Hx8 Hy8 Hz8) as (-> & -> & ->).
  by rewrite !py_float_format.
Qed.

Lemma atom_coords_fields lines :
  forallb valid_line lines = true -> Forall field_coord (atom_coords lines).
Proof.
  induction lines as [|line lines IH]; simpl; [constructor|]. intros H.
  apply andb_prop in H as [Hl Hls]. specialize (IH Hls).
  unfold valid_line in Hl. destruct (is_atom_line line); simpl in Hl; [|exact IH].
  destruct (valid_atom_line_fields line Hl) as (_ & p & -> & Hp). by constructor.
Qed.

(** C6: for a valid structure (every geometry line carries three
    fixed-point fields) of at most a million lines, a successful run whose
    target is the structure's own centroid (the exact mean of its
    coordinates on each axis, up to 1/10000) is the identity on
    coordinates: the output holds the input's lines in their order, every
    other line unchanged, and each geometry line reads as numbers equal to
    the input's. *)
Theorem reposition_to_own_centroid inp out tx ty tz w w' t :
  nodes w !! inp = Some (File t) ->
  forallb valid_line (readlines t) = true ->
  Z.of_nat (length (readlines t)) <= 1000000 ->
  own_centroid (atom_coords (readlines t)) (tx, ty, tz) ->
  reposition_ligand inp out tx ty tz w = (Ok true, w') ->
  exists lines',
    nodes w' !! out = Some (File (concat lines'))
    /\ length lines' = length (readlines t)
    /\ forall i line, readlines t !! i = Some line ->
         exists line', lines' !! i = Some line'
           /\ (is_atom_line line = false -> line' = line)
           /\ (is_atom_line line = true ->
                 exists p p', line_coords line = Ok p /\ line_coords line' = Ok p'
                              /\ coord_eqb p' p = true).
Proof.
  intros Hin Hvalid Hlen (Hox & Hoy & Hoz) Hrun.
  destruct (reposition_ligand_success _ _ _ _ _ _ _ Hrun)
    as (t0 & c & others & Hin0 & Hok & Hne & Hc & _ & ->).
  rewrite Hin in Hin0. injection Hin0 as <-.
  set (lines := readlines t) in *. set (coords := atom_coords lines) in *.
  set (tr := translation (tx, ty, tz) c).
  exists (map (moved_line tr) lines).
  split; [apply put_lookup|]. split; [by rewrite length_map|].
  (* the translation is small on each axis *)
  pose proof (atom_coords_fields lines Hvalid) as Hfields. fold coords in Hfields.
  assert (Z.of_nat (length coords) <= 1000000) as Hn.
  { pose proof (atom_coords_length lines). fold coords in H. lia. }
  assert (forall h : coord -> float, map h coords <> []) as Hmne.
  { intros h Hnil. apply Hne. apply (f_equal length) in Hnil.
    rewrite length_map in Hnil. by destruct coords. }
  assert (forall h : coord -> float, Z.of_nat (length (map h coords)) <= 1000000) as Hmlen
      by (intros h; by rewrite length_map).
  rewrite center_axes in Hc.
  destruct (axis_mean (map (fun c : coord => c.1.1) coords)) as [cx|] eqn:Hcx; [|discriminate].
  destruct (axis_mean (map (fun c : coord => c.1.2) coords)) as [cy|] eqn:Hcy; [|discriminate].
  destruct (axis_mean (map (fun c : coord => c.2) coords)) as [cz|] eqn:Hcz; [|discriminate].
  simpl in Hc. injection Hc as <-.
  destruct (axis_on_centroid (map (fun c : coord => c.1.1) coords) tx cx (Hmne _) (Hmlen _)) as [Hfx Hbx];
    [rewrite Forall_fmap; eapply Forall_impl; [exact Hfields|]; by intros p (H & _ & _)
    |exact Hcx|exact Hox|].
  destruct (axis_on_centroid (map (fun c : coord => c.1.2) coords) ty cy (Hmne _) (Hmlen _)) as [Hfy Hby];
    [rewrite Forall_fmap; eapply Forall_impl; [exact Hfields|]; by intros p (_ & H & _)
    |exact Hcy|exact Hoy|].
  destruct (axis_on_centroid (map (fun c : coord => c.2) coords) tz cz (Hmne _) (Hmlen _)) as [Hfz Hbz];
    [rewrite Forall_fmap; eapply Forall_impl; [exact Hfields|]; by intros p (_ & _ & H)
    |exact Hcz|exact Hoz|].
  (* line by line *)
  intros i line Hi. exists (moved_line tr line).
  split; [by rewrite list_lookup_fmap, Hi|].
  unfold moved_line. split; [by intros ->|]. intros Hatom. rewrite Hatom.
  rewrite forallb_forall in Hvalid.
  assert (valid_line line = true) as Hl.
  { apply Hvalid. eapply list_elem_of_In, list_elem_of_lookup_2, Hi. }
  unfold valid_line in Hl. rewrite Hatom in Hl. simpl in Hl.
  destruct (valid_atom_line_fields line Hl) as (Hlen54 & p & Hp & Hpx & Hpy & Hpz).
  rewrite Hp.
  destruct (field_float_unmoved p.1.1 (fsub tx cx) Hpx Hfx Hbx) as [Hfitx Heqx].
  destruct (field_float_unmoved p.1.2 (fsub ty cy) Hpy Hfy Hby) as [Hfity Heqy].
  destruct (field_float_unmoved p.2 (fsub tz cz) Hpz Hfz Hbz) as [Hfitz Heqz].
  exists p, (reread3 (shift tr p)). split; [reflexivity|]. split.
  - apply (new_line_coords line (shift tr p) Hlen54).
    unfold fits3, shift, tr, translation. simpl. by rewrite Hfitx, Hfity, Hfitz.
  - unfold coord_eqb, reread3, shift, tr, translation. simpl.
    by rewrite Heqx, Heqy, Heqz.
Qed.

Lemma two_atoms_own_centroid :
  own_centroid (atom_coords (readlines two_atoms_text)) (flt "1", flt "1", flt "1").
Proof.
  replace (atom_coords (readlines two_atoms_text))
    with [(fzero, fzero, fzero);
          (S754_finite false 4503599627370496 (-51),
           S754_finite false 4503599627370496 (-51),
           S754_finite false 4503599627370496 (-51))]
    by (vm_compute; reflexivity).
  replace (flt "1") with (S754_finite false 4503599627370496 (-52))
    by (vm_compute; reflexivity).
  assert (at_mean (1 / 10000)
            [fzero; S754_finite false 4503599627370496 (-51)]
            (S754_finite false 4503599627370496 (-52))) as H.
  { split; [reflexivity|].
    unfold Rmean, Rsum, fzero. cbn [fold_right length F2R].
    rewrite (bpow_neg_val (-51) 2251799813685248) by (vm_compute; done).
    rewrite (bpow_neg_val (-52) 4503599627370496) by (vm_compute; done).
    replace (INR 2) with 2%R by (simpl; lra).
    apply Rabs_le. lra. }
  unfold own_centroid. cbn [map fst snd]. split; [exact H|]. split; exact H.
Qed.

Lemma reposition_to_own_centroid_witness :
  exists lines',
    nodes (with_nodes (<["out.pdbqt"%string := File two_atoms_text]>
                         (nodes (world_of two_atoms_text))) (world_of two_atoms_text))
      !! "out.pdbqt"%string = Some (File (concat lines'))
    /\ length lines' = length (readlines two_atoms_text)
    /\ forall i line, readlines two_atoms_text !! i = Some line ->
         exists line', lines' !! i = Some line'
           /\ (is_atom_line line = false -> line' = line)
           /\ (is_atom_line line = true ->
                 exists p p', line_coords line = Ok p /\ line_coords line' = Ok p'
                              /\ coord_eqb p' p = true).
Proof.
  apply (reposition_to_own_centroid "in.pdbqt" "out.pdbqt" (flt "1") (flt "1") (flt "1")
           (world_of two_atoms_text)
           (with_nodes (<["out.pdbqt"%string := File two_atoms_text]>
                          (nodes (world_of two_atoms_text))) (world_of two_atoms_text))
           two_atoms_text).
  - reflexivity.
  - vm_compute. reflexivity.
  - vm_compute. discriminate.
  - exact two_atoms_own_centroid.
  - vm_compute. reflexivity.
Defined.
